(** * Product catalog: cart store, wishlist store, cart utilities,
      filter engine and search engine

    A shallow embedding of the client-side logic of the product catalog
    (src/store/cartStore.js, the wishlist store, src/utils/cartUtils.js,
    src/hooks/useFilterSort.js and the search utility) together with the
    properties its specification states about it.

    Conventions used throughout:
    - a zustand store is a record of state fields; [set (state => partial)]
      is a function from the current state to the next one, [get ()] is the
      state argument;
    - item ids are strings or integers compared with [===];
    - quantities are integers ([Z]); prices and the scores of the fuzzy
      match are exact rationals ([Q]), standing for the numbers they
      denote;
    - the weights and scores of the ranked search are IEEE 754 binary64
      numbers ([float]) with the operations of the language, since the
      order of its result depends on how they round;
    - JS strings are [string]s of 8-bit characters; case folding is the
      ASCII one. *)

From Stdlib Require Import ZArith QArith Qround Lqa List Sorted String Ascii Bool Lia.
From Stdlib Require Import Floats.
From stdpp Require Import base list gmap strings pretty.
Import ListNotations.

Local Open Scope Z_scope.

(** ** Item identifiers *)

(** [id: string|number]. [===] never identifies a string with a number. *)
Inductive ItemId :=
| IdStr (s : string)
| IdNum (n : Z).

#[global] Instance ItemId_eq_dec : EqDecision ItemId.
Proof. solve_decision. Defined.

(** [a === b] on identifiers. *)
Definition strictEq (a b : ItemId) : bool := bool_decide (a = b).

(** The property key an identifier is converted to when it indexes an
    object ([updates[item.id]], [updates.hasOwnProperty(item.id)]). *)
Definition propertyKey (i : ItemId) : string :=
  match i with
  | IdStr s => s
  | IdNum n => pretty n
  end.

(** [array.findIndex(p)], with [None] for the source's [-1]. *)
Fixpoint findIndex {A} (p : A -> bool) (l : list A) : option nat :=
  match l with
  | [] => None
  | x :: l' => if p x then Some O else option_map S (findIndex p l')
  end.

(** ** Cart store (src/store/cartStore.js) *)

Module Cart.

(** A cart line. [image] and [metadata] may be unset when neither the
    added item nor [defaultItem] gives them. *)
Record CartItem := mkCartItem {
  id : ItemId;
  title : string;
  price : Q;
  quantity : Z;
  image : option string;
  metadata : option string
}.

(** What callers pass to [addItem]/[addMultipleItems]: the required
    fields of an item, and the optional ones. [in_quantity] is only read
    by [addMultipleItems]; [addItem] overrides it by its argument. *)
Record ItemInput := mkItemInput {
  in_id : ItemId;
  in_title : string;
  in_price : Q;
  in_quantity : option Z;
  in_image : option string;
  in_metadata : option string
}.

(** The [defaultItem] of the store configuration, for the fields an
    input item may leave unset. *)
Record DefaultItem := mkDefaultItem {
  def_image : option string;
  def_metadata : option string
}.

Record CartState := mkCartState {
  items : list CartItem;
  totalItems : Z;
  totalPrice : Q;
  isEmpty : bool
}.

Definition initialState : CartState :=
  {| items := []; totalItems := 0; totalPrice := 0%Q; isEmpty := true |}.

(** [calculateTotals(items)]: three folds over the item list. *)
Definition calculateTotals (its : list CartItem) : Z * Q * bool :=
  let totalItems := fold_left (fun total item => total + quantity item) its 0 in
  let totalPrice :=
    fold_left (fun total item => (total + price item * inject_Z (quantity item))%Q)
              its 0%Q in
  let isEmpty := (length its =? 0)%nat in
  (totalItems, totalPrice, isEmpty).

(** [{ items: updatedItems, ...calculateTotals(updatedItems) }], the
    partial state every mutating operation hands to [set]; it overwrites
    all four fields. *)
Definition withItems (updatedItems : list CartItem) : CartState :=
  let '(ti, tp, e) := calculateTotals updatedItems in
  {| items := updatedItems; totalItems := ti; totalPrice := tp; isEmpty := e |}.

Definition setQuantity (q : Z) (item : CartItem) : CartItem :=
  {| id := id item; title := title item; price := price item; quantity := q;
     image := image item; metadata := metadata item |}.

(** [{ ...defaultItem, ...item, quantity }]. *)
Definition newLine (defaultItem : DefaultItem) (item : ItemInput) (q : Z) : CartItem :=
  {| id := in_id item; title := in_title item; price := in_price item;
     quantity := q;
     image := match in_image item with Some i => Some i | None => def_image defaultItem end;
     metadata := match in_metadata item with
                 | Some m => Some m
                 | None => def_metadata defaultItem
                 end |}.

(** The body shared by [addItem] and the loop of [addMultipleItems]:
    bump the existing line in place, or push a new one. *)
Definition addTo (defaultItem : DefaultItem) (updatedItems : list CartItem)
    (item : ItemInput) (q : Z) : list CartItem :=
  match findIndex (fun cartItem => strictEq (id cartItem) (in_id item)) updatedItems with
  | Some existingItemIndex =>
      alter (fun it => setQuantity (quantity it + q) it) existingItemIndex updatedItems
  | None => updatedItems ++ [newLine defaultItem item q]
  end.

Section Store.

Variable defaultItem : DefaultItem.

Definition addItem (item : ItemInput) (q : Z) (state : CartState) : CartState :=
  withItems (addTo defaultItem (items state) item q).

Definition removeItem (itemId : ItemId) (state : CartState) : CartState :=
  withItems (List.filter (fun item => negb (strictEq (id item) itemId)) (items state)).

Definition updateQuantity (itemId : ItemId) (q : Z) (state : CartState) : CartState :=
  if q <=? 0 then removeItem itemId state
  else withItems (map (fun item => if strictEq (id item) itemId
                                   then setQuantity q item else item)
                      (items state)).

Definition incrementItem (itemId : ItemId) (amount : Z) (state : CartState) : CartState :=
  withItems (map (fun item => if strictEq (id item) itemId
                              then setQuantity (quantity item + amount) item
                              else item)
                 (items state)).

(** [.map(item => ... null ...).filter(Boolean)] is [omap]. *)
Definition decrementItem (itemId : ItemId) (amount : Z) (state : CartState) : CartState :=
  withItems (omap (fun item =>
                     if strictEq (id item) itemId then
                       let newQuantity := quantity item - amount in
                       if newQuantity <=? 0 then None
                       else Some (setQuantity newQuantity item)
                     else Some item)
                  (items state)).

Definition clearCart (_ : CartState) : CartState := initialState.

(** [item.quantity || 1]: an unset or zero quantity counts as one. *)
Definition quantityOr1 (item : ItemInput) : Z :=
  match in_quantity item with
  | Some q => if q =? 0 then 1 else q
  | None => 1
  end.

Definition addMultipleItems (its : list ItemInput) (state : CartState) : CartState :=
  withItems (fold_left (fun updatedItems item =>
                          addTo defaultItem updatedItems item (quantityOr1 item))
                       its (items state)).

Definition removeMultipleItems (itemIds : list ItemId) (state : CartState) : CartState :=
  withItems (List.filter (fun item => negb (existsb (strictEq (id item)) itemIds))
                         (items state)).

(** [updates] is an object keyed by item id. *)
Definition updateMultipleQuantities (updates : gmap string Z) (state : CartState)
    : CartState :=
  withItems (omap (fun item =>
                     match updates !! propertyKey (id item) with
                     | Some newQuantity =>
                         if newQuantity <=? 0 then None
                         else Some (setQuantity newQuantity item)
                     | None => Some item
                     end)
                  (items state)).

(** Read-only queries. *)
Definition getCartItem (itemId : ItemId) (state : CartState) : option CartItem :=
  List.find (fun item => strictEq (id item) itemId) (items state).

Definition getItemQuantity (itemId : ItemId) (state : CartState) : Z :=
  match getCartItem itemId state with
  | Some item => quantity item
  | None => 0
  end.

Definition isItemInCart (itemId : ItemId) (state : CartState) : bool :=
  existsb (fun cartItem => strictEq (id cartItem) itemId) (items state).

(** The store as a state machine. *)
Inductive Op :=
| AddItem (item : ItemInput) (q : Z)
| RemoveItem (itemId : ItemId)
| UpdateQuantity (itemId : ItemId) (q : Z)
| IncrementItem (itemId : ItemId) (amount : Z)
| DecrementItem (itemId : ItemId) (amount : Z)
| ClearCart
| AddMultipleItems (its : list ItemInput)
| RemoveMultipleItems (itemIds : list ItemId)
| UpdateMultipleQuantities (updates : gmap string Z).

Definition apply (o : Op) : CartState -> CartState :=
  match o with
  | AddItem item q => addItem item q
  | RemoveItem itemId => removeItem itemId
  | UpdateQuantity itemId q => updateQuantity itemId q
  | IncrementItem itemId amount => incrementItem itemId amount
  | DecrementItem itemId amount => decrementItem itemId amount
  | ClearCart => clearCart
  | AddMultipleItems its => addMultipleItems its
  | RemoveMultipleItems itemIds => removeMultipleItems itemIds
  | UpdateMultipleQuantities updates => updateMultipleQuantities updates
  end.

(** States the store can be in: the initial one and those any sequence
    of operations leads to. *)
Inductive reachable : CartState -> Prop :=
| reachable_init : reachable initialState
| reachable_step o s : reachable s -> reachable (apply o s).

End Store.

(** The derived quantities as the data model words them. *)
Fixpoint sumQuantities (its : list CartItem) : Z :=
  match its with
  | [] => 0
  | item :: rest => quantity item + sumQuantities rest
  end.

Fixpoint sumPrices (its : list CartItem) : Q :=
  match its with
  | [] => 0%Q
  | item :: rest => (price item * inject_Z (quantity item) + sumPrices rest)%Q
  end.

Definition derived (s : CartState) : Prop :=
  totalItems s = sumQuantities (items s)
  /\ (totalPrice s == sumPrices (items s))%Q
  /\ (isEmpty s = true <-> items s = []).

End Cart.

(** ** Wishlist store *)

Module Wishlist.

Record WishlistItem := mkWishlistItem {
  id : ItemId;
  title : string;
  price : Q;
  image : option string;
  metadata : option string
}.

(** What callers pass to [addItem]/[toggleItem]. *)
Record ItemInput := mkItemInput {
  in_id : ItemId;
  in_title : string;
  in_price : Q;
  in_image : option string;
  in_metadata : option string
}.

Record DefaultItem := mkDefaultItem {
  def_image : option string;
  def_metadata : option string
}.

Record WishlistState := mkWishlistState {
  items : list WishlistItem;
  totalItems : nat;
  isEmpty : bool
}.

Definition initialState : WishlistState :=
  {| items := []; totalItems := 0; isEmpty := true |}.

Definition calculateTotals (its : list WishlistItem) : nat * bool :=
  let totalItems := length its in
  let isEmpty := (length its =? 0)%nat in
  (totalItems, isEmpty).

Definition withItems (updatedItems : list WishlistItem) : WishlistState :=
  let '(ti, e) := calculateTotals updatedItems in
  {| items := updatedItems; totalItems := ti; isEmpty := e |}.

(** [{ ...defaultItem, ...item }]. *)
Definition newItem (defaultItem : DefaultItem) (item : ItemInput) : WishlistItem :=
  {| id := in_id item; title := in_title item; price := in_price item;
     image := match in_image item with Some i => Some i | None => def_image defaultItem end;
     metadata := match in_metadata item with
                 | Some m => Some m
                 | None => def_metadata defaultItem
                 end |}.

Section Store.

Variable defaultItem : DefaultItem.

Definition addItem (item : ItemInput) (state : WishlistState) : WishlistState :=
  match List.find (fun wishlistItem => strictEq (id wishlistItem) (in_id item))
                  (items state) with
  | Some existingItem => state
  | None => withItems (items state ++ [newItem defaultItem item])
  end.

Definition removeItem (itemId : ItemId) (state : WishlistState) : WishlistState :=
  withItems (List.filter (fun item => negb (strictEq (id item) itemId)) (items state)).

Definition isItemInWishlist (itemId : ItemId) (state : WishlistState) : bool :=
  existsb (fun wishlistItem => strictEq (id wishlistItem) itemId) (items state).

(** [toggleItem(item)]: the next state and the reported boolean. *)
Definition toggleItem (item : ItemInput) (state : WishlistState)
    : WishlistState * bool :=
  let isInWishlist := isItemInWishlist (in_id item) state in
  if isInWishlist then (removeItem (in_id item) state, false)
  else (addItem item state, true).

Definition clearWishlist (_ : WishlistState) : WishlistState := initialState.

Definition getWishlistItem (itemId : ItemId) (state : WishlistState)
    : option WishlistItem :=
  List.find (fun item => strictEq (id item) itemId) (items state).

(** [moveToCart(itemId, addToCartCallback)]. The callback works on state
    outside the wishlist store (the cart, when it is the cart's
    [addItem]): [W] is that state and a call [cb item q] transforms it.
    [None] stands for a callback that was not given. The result is the
    next wishlist state, the outside state, and the returned item
    ([None] for [undefined]). *)
Definition moveToCart {W : Type} (itemId : ItemId)
    (addToCartCallback : option (WishlistItem -> Z -> W -> W))
    (state : WishlistState) (w : W) : WishlistState * W * option WishlistItem :=
  match List.find (fun wishlistItem => strictEq (id wishlistItem) itemId) (items state),
        addToCartCallback with
  | Some item, Some cb =>
      let w' := cb item 1 w in
      (removeItem itemId state, w', Some item)
  | _, _ => (state, w, None)
  end.

Inductive Op :=
| AddItem (item : ItemInput)
| RemoveItem (itemId : ItemId)
| ToggleItem (item : ItemInput)
| ClearWishlist.

Definition apply (o : Op) (s : WishlistState) : WishlistState :=
  match o with
  | AddItem item => addItem item s
  | RemoveItem itemId => removeItem itemId s
  | ToggleItem item => fst (toggleItem item s)
  | ClearWishlist => clearWishlist s
  end.

Inductive reachable : WishlistState -> Prop :=
| reachable_init : reachable initialState
| reachable_step o s : reachable s -> reachable (apply o s).

End Store.

(** A callback that records its calls, to count them. *)
Definition recordCall (item : WishlistItem) (q : Z)
    (calls : list (WishlistItem * Z)) : list (WishlistItem * Z) :=
  calls ++ [(item, q)].

(** The totals are the derived function of the items. *)
Definition derived (s : WishlistState) : Prop :=
  totalItems s = length (items s) /\ isEmpty s = (length (items s) =? 0)%nat.

End Wishlist.

(** ** JavaScript values read by the validator and the filter *)

Module JS.

(** Numbers: the value a double denotes. *)
Inductive num :=
| NaN
| Inf (negative : bool)
| Fin (q : Q).

Inductive value :=
| VUndefined
| VNull
| VBool (b : bool)
| VNum (n : num)
| VStr (s : string)
| VObj.

Inductive type := TUndefined | TObject | TBoolean | TNumber | TString.

#[global] Instance type_eq_dec : EqDecision type.
Proof. solve_decision. Defined.

Definition typeof (v : value) : type :=
  match v with
  | VUndefined => TUndefined
  | VNull => TObject
  | VBool _ => TBoolean
  | VNum _ => TNumber
  | VStr _ => TString
  | VObj => TObject
  end.

(** ToBoolean: what [!v], [v && ...] and [v || ...] test. *)
Definition truthy (v : value) : bool :=
  match v with
  | VUndefined | VNull => false
  | VBool b => b
  | VNum NaN => false
  | VNum (Inf _) => true
  | VNum (Fin q) => negb (Qeq_bool q 0)
  | VStr s => negb (String.eqb s "")
  | VObj => true
  end.

(** [a < b] on numbers; false as soon as one side is NaN. *)
Definition lt (a b : num) : bool :=
  match a, b with
  | NaN, _ | _, NaN => false
  | Inf true, Inf true => false
  | Inf true, _ => true
  | _, Inf true => false
  | Inf false, _ => false
  | _, Inf false => true
  | Fin x, Fin y => negb (Qle_bool y x)
  end.

Definition gt (a b : num) : bool := lt b a.

(** [a <= b]: false with a NaN, else [a < b || a == b]. *)
Definition le (a b : num) : bool :=
  match a, b with
  | NaN, _ | _, NaN => false
  | _, _ => negb (lt b a)
  end.

Definition isNaN (n : num) : bool :=
  match n with NaN => true | _ => false end.

Definition isInteger (n : num) : bool :=
  match n with
  | Fin q => Qeq_bool q (inject_Z (Qfloor q))
  | _ => false
  end.

(** *** StringToNumber *)

Definition isWhite (c : ascii) : bool :=
  let n := nat_of_ascii c in
  ((n =? 32) || (n =? 9) || (n =? 10) || (n =? 11) || (n =? 12) || (n =? 13)
   || (n =? 160))%nat.

Fixpoint dropWhite (l : list ascii) : list ascii :=
  match l with
  | c :: l' => if isWhite c then dropWhite l' else l
  | [] => []
  end.

Definition trim (l : list ascii) : list ascii :=
  rev (dropWhite (rev (dropWhite l))).

(** The value of a digit in a radix up to 16. *)
Definition digitValue (c : ascii) : option Z :=
  let n := Z.of_nat (nat_of_ascii c) in
  if (48 <=? n) && (n <=? 57) then Some (n - 48)
  else if (97 <=? n) && (n <=? 102) then Some (n - 87)
  else if (65 <=? n) && (n <=? 70) then Some (n - 55)
  else None.

(** Reads the longest prefix of digits of the radix: their value, their
    number, and the rest. *)
Fixpoint readDigits (radix : Z) (acc : Z) (count : nat) (l : list ascii)
    : Z * nat * list ascii :=
  match l with
  | c :: l' =>
      match digitValue c with
      | Some d => if d <? radix then readDigits radix (acc * radix + d) (S count) l'
                  else (acc, count, l)
      | None => (acc, count, l)
      end
  | [] => (acc, count, l)
  end.

Definition pow10 (e : Z) : Q :=
  if 0 <=? e then inject_Z (10 ^ e) else (1 / inject_Z (10 ^ (- e)))%Q.

(** The exponent part [e[+-]digits], when there is one. *)
Definition readExponent (l : list ascii) : option Z :=
  match l with
  | [] => Some 0
  | c :: l' =>
      if (Ascii.eqb c "e" || Ascii.eqb c "E")%char then
        let '(neg, l'') :=
          match l' with
          | s :: r => if Ascii.eqb s "-" then (true, r)
                      else if Ascii.eqb s "+" then (false, r) else (false, l')
          | [] => (false, l')
          end in
        match readDigits 10 0 O l'' with
        | (e, S _, []) => Some (if neg : bool then - e else e)
        | _ => None
        end
      else None
  end.

(** An unsigned StrDecimalLiteral other than [Infinity]. *)
Definition readDecimal (l : list ascii) : option Q :=
  let '(ip, ni, r1) := readDigits 10 0 O l in
  let '(fp, nf, r2) :=
    match r1 with
    | c :: r => if Ascii.eqb c "." then readDigits 10 0 O r else (0, O, r1)
    | [] => (0, O, r1)
    end in
  match ni, nf with
  | O, O => None
  | _, _ =>
      match readExponent r2 with
      | Some e =>
          Some ((inject_Z ip + inject_Z fp * pow10 (- Z.of_nat nf)) * pow10 e)%Q
      | None => None
      end
  end.

Definition readRadix (radix : Z) (l : list ascii) : num :=
  match readDigits radix 0 O l with
  | (v, S _, []) => Fin (inject_Z v)
  | _ => NaN
  end.

Definition readSigned (l : list ascii) : num :=
  let '(neg, r) :=
    match l with
    | c :: r => if Ascii.eqb c "-" then (true, r)
                else if Ascii.eqb c "+" then (false, r) else (false, l)
    | [] => (false, l)
    end in
  if bool_decide (r = list_ascii_of_string "Infinity") then Inf neg
  else match readDecimal r with
       | Some q => Fin (if neg : bool then - q else q)%Q
       | None => NaN
       end.

(** [Number(s)] for a string: blank is 0, a numeric literal is its value,
    anything else is NaN. *)
Definition StringToNumber (s : string) : num :=
  match trim (list_ascii_of_string s) with
  | [] => Fin 0
  | c1 :: c2 :: r =>
      if Ascii.eqb c1 "0" && (Ascii.eqb c2 "x" || Ascii.eqb c2 "X") then readRadix 16 r
      else if Ascii.eqb c1 "0" && (Ascii.eqb c2 "o" || Ascii.eqb c2 "O") then readRadix 8 r
      else if Ascii.eqb c1 "0" && (Ascii.eqb c2 "b" || Ascii.eqb c2 "B") then readRadix 2 r
      else readSigned (c1 :: c2 :: r)
  | l => readSigned l
  end.

(** [Number(v)]. *)
Definition Number (v : value) : num :=
  match v with
  | VUndefined => NaN
  | VNull => Fin 0
  | VBool b => Fin (if b then 1 else 0)
  | VNum n => n
  | VStr s => StringToNumber s
  | VObj => NaN
  end.

End JS.

(** ** Cart utilities (src/utils/cartUtils.js) *)

Module CartUtils.
Import JS.

(** The fields [validateCartItem] reads of the object it is given; a
    field the object lacks reads as [VUndefined]. *)
Record Item := mkItem {
  id : value;
  title : value;
  price : value;
  quantity : value;
  image : value
}.

Record Validation := mkValidation {
  isValid : bool;
  errors : list string;
  warnings : list string
}.

(** [errors.push(msg)] under a condition. *)
Definition pushIf (c : bool) (msg : string) (l : list string) : list string :=
  if c then l ++ [msg] else l.

Definition validateCartItem (item : Item) : Validation :=
  let errors := [] in
  let warnings := [] in
  let errors := pushIf (negb (truthy (id item))) "Item ID is required" errors in
  let errors :=
    pushIf (negb (truthy (title item))
            || negb (bool_decide (typeof (title item) = TString)))
           "Item title is required and must be a string" errors in
  let errors :=
    pushIf (match price item with
            | VNum n => lt n (Fin 0)
            | _ => true
            end)
           "Item price must be a non-negative number" errors in
  let errors :=
    pushIf (match quantity item with
            | VNum n => le n (Fin 0)
            | _ => true
            end)
           "Item quantity must be a positive number" errors in
  let warnings :=
    pushIf (truthy (image item)
            && negb (bool_decide (typeof (image item) = TString)))
           "Item image should be a string URL" warnings in
  {| isValid := (length errors =? 0)%nat; errors := errors; warnings := warnings |}.

(** The validity condition in the words of the specification: id
    present, title a string, price a number at least 0, quantity a
    positive integer. *)
Definition idPresent (item : Item) : Prop :=
  id item <> VUndefined /\ id item <> VNull.

Definition titleIsString (item : Item) : Prop :=
  typeof (title item) = TString.

Definition priceNonNegative (item : Item) : Prop :=
  exists n, price item = VNum n /\ le (Fin 0) n = true.

Definition quantityPositiveInteger (item : Item) : Prop :=
  exists n, quantity item = VNum n /\ lt (Fin 0) n = true /\ isInteger n = true.

Definition specValid (item : Item) : Prop :=
  idPresent item /\ titleIsString item /\ priceNonNegative item
  /\ quantityPositiveInteger item.

End CartUtils.

(** ** Filter engine (src/hooks/useFilterSort.js) *)

Module FilterSort.
Import JS.

(** The part of a catalogue record the filter reads: [item?.category?.name]
    and [item?.price]. *)
Record Category := mkCategory {
  name : value
}.

Record Product := mkProduct {
  title : string;
  category : option Category;   (* [None]: no category object *)
  price : value                 (* [VUndefined]: no price field *)
}.

(** An element of the data array; [None] is a [null]/[undefined] entry. *)
Definition Record_ := option Product.

Record PriceRange := mkPriceRange {
  min : string;
  max : string
}.

Inductive SortOption := SortNone | SortAsc | SortDesc | SortPriceLow | SortPriceHigh.

Record FilterSortState := mkState {
  selectedCategories : list string;
  priceRange : PriceRange;
  sortOption : SortOption
}.

(** [item?.category?.name]. *)
Definition categoryName (item : Record_) : value :=
  match item with
  | Some p => match category p with
              | Some c => name c
              | None => VUndefined
              end
  | None => VUndefined
  end.

(** [item?.price]. *)
Definition itemPrice (item : Record_) : value :=
  match item with
  | Some p => price p
  | None => VUndefined
  end.

(** [selectedCategories.includes(v)]: only a string equals a string. *)
Definition includes (selected : list string) (v : value) : bool :=
  match v with
  | VStr s => existsb (String.eqb s) selected
  | _ => false
  end.

(** The category test of the filter callback: [false] is its early
    [return false]. *)
Definition passesCategory (st : FilterSortState) (item : Record_) : bool :=
  if (0 <? length (selectedCategories st))%nat then
    let itemCategory := categoryName item in
    negb (negb (truthy itemCategory)
          || negb (includes (selectedCategories st) itemCategory))
  else true.

(** The price-range test of the filter callback. *)
Definition passesPrice (st : FilterSortState) (item : Record_) : bool :=
  let price := Number (itemPrice item) in
  if negb (isNaN price) then
    if negb (String.eqb (min (priceRange st)) "")
       && lt price (Number (VStr (min (priceRange st))))
    then false
    else if negb (String.eqb (max (priceRange st)) "")
            && gt price (Number (VStr (max (priceRange st))))
    then false
    else true
  else true.

(** [filteredData]: the records the filters keep, in their order. *)
Definition filteredData (data : list Record_) (st : FilterSortState) : list Record_ :=
  if (length data =? 0)%nat then []
  else List.filter (fun item => passesCategory st item && passesPrice st item) data.

(** A price bound is set when [min] or [max] is not the empty string. *)
Definition boundSet (st : FilterSortState) : bool :=
  negb (String.eqb (min (priceRange st)) "")
  || negb (String.eqb (max (priceRange st)) "").

(** A record's price is numeric when [Number(item?.price)] is not NaN. *)
Definition numericPrice (item : Record_) : bool :=
  negb (isNaN (Number (itemPrice item))).

End FilterSort.

(** ** JavaScript string operations used by the search engine *)

Module Str.

Definition lowerChar (c : ascii) : ascii :=
  let n := nat_of_ascii c in
  if ((65 <=? n) && (n <=? 90))%nat then ascii_of_nat (n + 32) else c.

(** [s.toLowerCase()]. *)
Fixpoint toLowerCase (s : string) : string :=
  match s with
  | EmptyString => EmptyString
  | String c s' => String (lowerChar c) (toLowerCase s')
  end.

(** [s.startsWith(q)]. *)
Fixpoint startsWith (s q : string) : bool :=
  match q, s with
  | EmptyString, _ => true
  | String a q', String b s' => Ascii.eqb a b && startsWith s' q'
  | String _ _, EmptyString => false
  end.

(** [s.indexOf(q)], with [None] for [-1]. *)
Fixpoint indexOf (s q : string) : option nat :=
  if startsWith s q then Some O
  else match s with
       | EmptyString => None
       | String _ s' => option_map S (indexOf s' q)
       end.

(** [s.includes(q)]. *)
Definition includes (s q : string) : bool :=
  match indexOf s q with Some _ => true | None => false end.

Definition drop (n : nat) (s : string) : string :=
  String.substring n (String.length s - n) s.

(** [s.endsWith(q)]. *)
Definition endsWith (s q : string) : bool :=
  (String.length q <=? String.length s)%nat
  && String.eqb (drop (String.length s - String.length q) s) q.

(** [s.split('.')]: never empty. *)
Fixpoint splitDots (s : string) : list string :=
  match s with
  | EmptyString => [EmptyString]
  | String c s' =>
      if Ascii.eqb c "." then EmptyString :: splitDots s'
      else match splitDots s' with
           | seg :: segs => String c seg :: segs
           | [] => [String c EmptyString]
           end
  end.

(** A path of one segment: no dot in it. *)
Fixpoint noDot (s : string) : bool :=
  match s with
  | EmptyString => true
  | String c s' => negb (Ascii.eqb c ".") && noDot s'
  end.

(** The double quote character, as a string. *)
Definition dquote : string := String (ascii_of_nat 34) EmptyString.

End Str.

(** ** Search engine *)

Module Search.

(** Records are objects in a store: two values may refer to the same
    object, and writing through one is seen through the other. *)
Definition loc := nat.

Inductive value :=
| VUndefined
| VNull
| VBool (b : bool)
| VNum (n : Z)            (* the numeric fields of records are integers *)
| VStr (s : string)
| VRef (l : loc).         (* a plain object *)

(** An object maps property names to values; the store maps addresses to
    objects. *)
Abbreviation object := (gmap string value).
Abbreviation heap := (list (gmap string value)).

Definition truthy (v : value) : bool :=
  match v with
  | VUndefined | VNull => false
  | VBool b => b
  | VNum n => negb (n =? 0)
  | VStr s => negb (String.eqb s "")
  | VRef _ => true
  end.

Definition isObject (v : value) : bool :=
  match v with VRef _ => true | _ => false end.

Definition nullish (v : value) : bool :=
  match v with VUndefined | VNull => true | _ => false end.

(** [String(v)]. *)
Definition toString (v : value) : string :=
  match v with
  | VUndefined => "undefined"
  | VNull => "null"
  | VBool b => if b then "true" else "false"
  | VNum n => pretty n
  | VStr s => s
  | VRef _ => "[object Object]"
  end.

(** [current[key]] for a non-nullish [current]: an own property of an
    object, the length of a string; other properties of primitives
    (methods, indexed characters) are not modelled. *)
Definition getProp (h : heap) (current : value) (key : string) : value :=
  match current with
  | VRef l =>
      match h !! l with
      | Some o => default VUndefined (o !! key)
      | None => VUndefined
      end
  | VStr s => if String.eqb key "length" then VNum (Z.of_nat (String.length s))
              else VUndefined
  | _ => VUndefined
  end.

(** [target[key] = v] on the object at [l]. *)
Definition setProp (h : heap) (l : loc) (key : string) (v : value) : heap :=
  alter (fun o => <[key := v]> o) l h.

(** A new object: its address and the extended store. *)
Definition alloc (h : heap) (o : object) : loc * heap :=
  (length h, h ++ [o]).

(** [getNestedValue(obj, path)] for a dotted path. *)
Definition getNestedValue (h : heap) (obj : value) (path : string) : value :=
  if negb (truthy obj) || String.eqb path "" then VUndefined
  else
    let pathArray := Str.splitDots path in
    fold_left (fun current key =>
                 if nullish current then VUndefined
                 else getProp h current key)
              pathArray obj.

(** [setNestedValue(obj, path, value)] for the object at [obj]. *)
Definition setNestedValue (h : heap) (obj : loc) (path : string) (v : value) : heap :=
  let pathArray := Str.splitDots path in
  let lastKey := List.last pathArray EmptyString in
  let pathArray := removelast pathArray in
  let '(target, h) :=
    fold_left (fun '(current, h) key =>
                 let next := getProp h (VRef current) key in
                 match next with
                 | VRef l => (l, h)
                 | _ =>
                     let '(l, h) := alloc h ∅ in
                     (l, setProp h current key (VRef l))
                 end)
              pathArray (obj, h) in
  setProp h target lastKey v.

Inductive Strategy :=
| Contains | StartsWith | EndsWith | Fuzzy | Regex.

Record SearchOptions := mkOptions {
  keys : list (string * string);       (* [Object.entries(keys)] *)
  caseSensitive : bool;
  exactMatch : bool;
  customMatcher : option (heap -> value -> string -> bool);
  strategy : Strategy;
  minScore : Q;
  regexFlags : string;
  weights : gmap string float;         (* [weights[key]], a number *)
  highlightClass : string
}.

Definition defaultOptions (ks : list (string * string)) : SearchOptions :=
  {| keys := ks; caseSensitive := false; exactMatch := false;
     customMatcher := None; strategy := Contains; minScore := 0.3%Q;
     regexFlags := "gi"; weights := ∅; highlightClass := "search-highlight" |}.

Definition normalize (caseSensitive : bool) (s : string) : string :=
  if caseSensitive then s else Str.toLowerCase s.

(** [searchData(data, query, searchOptions)]. *)
Definition searchData (h : heap) (data : list value) (query : string)
    (searchOptions : SearchOptions) : list value :=
  if String.eqb query "" then data
  else if (length (keys searchOptions) =? 0)%nat then data
  else
    let normalizedQuery := normalize (caseSensitive searchOptions) query in
    List.filter
      (fun item =>
         match customMatcher searchOptions with
         | Some matcher => matcher h item normalizedQuery
         | None =>
             existsb
               (fun '(searchKey, dataPath) =>
                  let v := getNestedValue h item dataPath in
                  if nullish v then false
                  else
                    let stringValue := toString v in
                    let normalizedValue :=
                      normalize (caseSensitive searchOptions) stringValue in
                    if exactMatch searchOptions
                    then String.eqb normalizedValue normalizedQuery
                    else Str.includes normalizedValue normalizedQuery)
               (keys searchOptions)
         end)
      data.

(** The loop of [fuzzyMatch]: one step per character of [text] while
    [patternIndex < pattern.length]; returns [(score, patternIndex)]. *)
Fixpoint fuzzyLoop (pattern text : string) (score patternIndex : nat) : nat * nat :=
  match text with
  | EmptyString => (score, patternIndex)
  | String c text' =>
      if (patternIndex <? String.length pattern)%nat then
        if bool_decide (Some c = String.get patternIndex pattern)
        then fuzzyLoop pattern text' (S score) (S patternIndex)
        else fuzzyLoop pattern text' score patternIndex
      else (score, patternIndex)
  end.

(** [fuzzyMatch(text, pattern)]. *)
Definition fuzzyMatch (text pattern : string) : Q :=
  if String.eqb text "" || String.eqb pattern "" then 0%Q
  else
    let '(score, patternIndex) := fuzzyLoop pattern text O O in
    if (patternIndex =? String.length pattern)%nat
    then (inject_Z (Z.of_nat score) / inject_Z (Z.of_nat (String.length pattern)))%Q
    else 0%Q.

Section Advanced.

(** [new RegExp(pattern, flags).test(s)], with [None] when the pattern
    does not compile. The regular-expression engine is the host's. *)
Variable regexTest : string -> string -> string -> option bool.

(** [advancedSearch(data, query, options)]. *)
Definition advancedSearch (h : heap) (data : list value) (query : string)
    (options : SearchOptions) : list value :=
  if String.eqb query "" then data
  else
    let normalizedQuery := normalize (caseSensitive options) query in
    List.filter
      (fun item =>
         existsb
           (fun '(searchKey, dataPath) =>
              let v := getNestedValue h item dataPath in
              if nullish v then false
              else
                let stringValue := toString v in
                let normalizedValue := normalize (caseSensitive options) stringValue in
                match strategy options with
                | StartsWith => Str.startsWith normalizedValue normalizedQuery
                | EndsWith => Str.endsWith normalizedValue normalizedQuery
                | Fuzzy =>
                    Qle_bool (minScore options) (fuzzyMatch normalizedValue normalizedQuery)
                | Regex =>
                    match regexTest normalizedQuery (regexFlags options) normalizedValue with
                    | Some b => b
                    | None => false
                    end
                | Contains => Str.includes normalizedValue normalizedQuery
                end)
           (keys options))
      data.

End Advanced.

(** The value of [calculateMatchScore(text, query)] as a fraction, that
    is before any rounding. It is only called on a [text] that includes
    a non-empty [query], so [text.length] is not 0. What the program
    computes is [Double.calculateMatchScore] below. *)
Definition calculateMatchScore (text query : string) : Q :=
  match Str.indexOf text query with
  | None => 0
  | Some index =>
      let len := inject_Z (Z.of_nat (String.length text)) in
      let positionScore := 1 - inject_Z (Z.of_nat index) / len in
      let lengthScore := inject_Z (Z.of_nat (String.length query)) / len in
      (positionScore + lengthScore) / 2
  end%Q.

(** *** Ranking, in the numbers of the language *)

Module Double.

(** A length, an index or a count as a number. A string has fewer than
    [2^53] characters, and the integers below [2^53] are doubles. *)
Definition ofNat (n : nat) : float := of_uint63 (Uint63.of_Z (Z.of_nat n)).

(** A number in a condition: 0, -0 and NaN are falsy. *)
Definition truthy (x : float) : bool := negb (is_zero x || is_nan x).

(** [calculateMatchScore(text, query)]. *)
Definition calculateMatchScore (text query : string) : float :=
  match Str.indexOf text query with
  | None => 0
  | Some index =>
      let positionScore := 1 - ofNat index / ofNat (String.length text) in
      let lengthScore := ofNat (String.length query) / ofNat (String.length text) in
      (positionScore + lengthScore) / 2
  end%float.

(** A number of the format with sign [s] that is not zero. *)
Definition signed (s : bool) (x : spec_float) : Prop :=
  match x with
  | S754_finite s' _ _ | S754_infinity s' => s' = s
  | _ => False
  end.

(** What a double above 0 is: a positive number of the format, or
    [Infinity]. *)
Inductive positiveSpec : spec_float -> Prop :=
| positive_infinity : positiveSpec (S754_infinity false)
| positive_finite m e :
    bounded prec emax m e = true -> positiveSpec (S754_finite false m e).

End Double.

(** [weights[searchKey] || defaultWeight]. *)
Definition weightOf (weights : gmap string float) (searchKey : string) : float :=
  let defaultWeight := 1%float in
  match weights !! searchKey with
  | Some w => if Double.truthy w then w else defaultWeight
  | None => defaultWeight
  end.

(** What [rankedSearch] computes for one record. *)
Record Ranked := mkRanked {
  item : value;
  score : float;
  matchCount : nat
}.

(** The callback of the [forEach] over the keys, on the running
    [(totalScore, matchCount)]. *)
Definition scoreKey (h : heap) (options : SearchOptions) (normalizedQuery : string)
    (it : value) (acc : float * nat) (entry : string * string) : float * nat :=
  let '(totalScore, matchCount) := acc in
  let '(searchKey, dataPath) := entry in
  let v := getNestedValue h it dataPath in
  if negb (nullish v) then
    let stringValue := toString v in
    let normalizedValue := normalize (caseSensitive options) stringValue in
    if Str.includes normalizedValue normalizedQuery then
      let weight := weightOf (weights options) searchKey in
      let score := Double.calculateMatchScore normalizedValue normalizedQuery in
      ((totalScore + score * weight)%float, S matchCount)
    else (totalScore, matchCount)
  else (totalScore, matchCount).

Definition accumulate (h : heap) (options : SearchOptions) (normalizedQuery : string)
    (it : value) : float * nat :=
  fold_left (scoreKey h options normalizedQuery it) (keys options) (0%float, O).

Definition rank (h : heap) (options : SearchOptions) (normalizedQuery : string)
    (it : value) : Ranked :=
  let '(totalScore, matchCount) := accumulate h options normalizedQuery it in
  {| item := it;
     score := if (0 <? matchCount)%nat
              then (totalScore / Double.ofNat matchCount)%float
              else 0%float;
     matchCount := matchCount |}.

(** [array.sort(compare)]: the order is stable, and an element moves
    behind another one exactly when [compare] is above 0 on them. *)
Fixpoint insertSorted {A} (compare : A -> A -> float) (x : A) (l : list A) : list A :=
  match l with
  | [] => [x]
  | y :: l' =>
      if (0 <? compare x y)%float then y :: insertSorted compare x l'
      else x :: l
  end.

Definition sort {A} (compare : A -> A -> float) (l : list A) : list A :=
  fold_right (insertSorted compare) [] l.

(** The comparator [(a, b) => key(b) - key(a)]. *)
Definition descending {A} (key : A -> float) (a b : A) : float :=
  (key b - key a)%float.

(** [rankedSearch(data, query, options)]. *)
Definition rankedSearch (h : heap) (data : list value) (query : string)
    (options : SearchOptions) : list value :=
  if String.eqb query "" then data
  else
    let normalizedQuery := normalize (caseSensitive options) query in
    let results :=
      List.filter (fun result => (0 <? score result)%float)
                  (map (rank h options normalizedQuery) data) in
    let results := sort (descending score) results in
    map item results.

(** *** Highlighting *)

(** [`<span class="${highlightClass}">$1</span>`] around a match. *)
Definition wrap (highlightClass matched : string) : string :=
  ("<span class=" ++ Str.dquote ++ highlightClass ++ Str.dquote ++ ">"
   ++ matched ++ "</span>")%string.

(** Whether the escaped query, as a pattern, matches at the start of [s]. *)
Definition matchesAt (caseSensitive : bool) (query s : string) : bool :=
  Str.startsWith (normalize caseSensitive s) (normalize caseSensitive query).

(** [stringValue.replace(regex, ...)] for the global pattern made of the
    escaped query: every match, left to right and without overlap, is
    wrapped. [skip] counts the characters of the current match still to
    pass over. An empty query matches before every character and at the
    end. *)
Fixpoint replaceFrom (caseSensitive : bool) (highlightClass query : string)
    (s : string) (skip : nat) : string :=
  match s with
  | EmptyString =>
      if String.eqb query "" then wrap highlightClass "" else ""
  | String c s' =>
      match skip with
      | S k => replaceFrom caseSensitive highlightClass query s' k
      | O =>
          if String.eqb query "" then
            (wrap highlightClass "" ++ String c
               (replaceFrom caseSensitive highlightClass query s' O))%string
          else if matchesAt caseSensitive query s then
            (wrap highlightClass (String.substring 0 (String.length query) s)
             ++ replaceFrom caseSensitive highlightClass query s'
                  (String.length query - 1))%string
          else String c (replaceFrom caseSensitive highlightClass query s' O)
      end
  end.

Definition highlight (caseSensitive : bool) (highlightClass query stringValue : string)
    : string :=
  replaceFrom caseSensitive highlightClass query stringValue O.

(** [{ ...item }]: a new object with the own properties of [item]; the
    property values, references included, are copied as they are. *)
Definition spread (h : heap) (it : value) : object :=
  match it with
  | VRef l => default ∅ (h !! l)
  | _ => ∅
  end.

(** The callback of [results.map] in [searchWithHighlight]: the store
    after it, and the returned [highlightedItem]. *)
Definition highlightItem (options : SearchOptions) (query : string)
    (h : heap) (it : value) : heap * value :=
  let '(highlightedItem, h) := alloc h (spread h it) in
  let h :=
    fold_left
      (fun h '(searchKey, dataPath) =>
         let v := getNestedValue h it dataPath in
         if negb (nullish v) then
           let stringValue := toString v in
           let normalizedValue := normalize (caseSensitive options) stringValue in
           let normalizedQuery := normalize (caseSensitive options) query in
           if Str.includes normalizedValue normalizedQuery then
             let highlightedValue :=
               highlight (caseSensitive options) (highlightClass options)
                         query stringValue in
             setNestedValue h highlightedItem dataPath (VStr highlightedValue)
           else h
         else h)
      (keys options) h in
  (h, VRef highlightedItem).

(** [searchWithHighlight(data, query, options)]: the store after the
    call and the returned array. *)
Definition searchWithHighlight (h : heap) (data : list value) (query : string)
    (options : SearchOptions) : heap * list value :=
  let results :=
    searchData h data query
      {| keys := keys options; caseSensitive := caseSensitive options;
         exactMatch := false; customMatcher := None; strategy := Contains;
         minScore := 0.3%Q; regexFlags := "gi"; weights := ∅;
         highlightClass := "search-highlight" |} in
  fold_left
    (fun '(h, out) it =>
       let '(h, highlightedItem) := highlightItem options query h it in
       (h, out ++ [highlightedItem]))
    results (h, []).

(** *** Vocabulary of the specification *)

(** The query's characters appear in the target in order. *)
Definition subsequence (query target : string) : Prop :=
  sublist (list_ascii_of_string query) (list_ascii_of_string target).

(** What the [fuzzy] strategy is said to test on one key of a record. *)
Definition fuzzyKeyMatches (h : heap) (options : SearchOptions) (query : string)
    (it : value) (dataPath : string) : Prop :=
  let v := getNestedValue h it dataPath in
  nullish v = false
  /\ subsequence (normalize (caseSensitive options) query)
                 (normalize (caseSensitive options) (toString v)).

(** The normalized resolved value of a key of a record. *)
Definition normalizedValue (h : heap) (options : SearchOptions) (it : value)
    (dataPath : string) : string :=
  normalize (caseSensitive options) (toString (getNestedValue h it dataPath)).

(** A key matches when its resolved value is there and, normalized,
    contains the normalized query. *)
Definition keyMatches (h : heap) (options : SearchOptions) (query : string)
    (it : value) (entry : string * string) : bool :=
  negb (nullish (getNestedValue h it (snd entry)))
  && Str.includes (normalizedValue h options it (snd entry))
                  (normalize (caseSensitive options) query).

Definition hasMatch (h : heap) (options : SearchOptions) (query : string)
    (it : value) : bool :=
  existsb (keyMatches h options query it) (keys options).

(** [(1 - firstMatchIndex/valueLength + queryLength/valueLength) / 2]. *)
Definition specMatchScore (firstMatchIndex valueLength queryLength : nat) : Q :=
  ((1 - inject_Z (Z.of_nat firstMatchIndex) / inject_Z (Z.of_nat valueLength)
      + inject_Z (Z.of_nat queryLength) / inject_Z (Z.of_nat valueLength)) / 2)%Q.

(** The number a double stands for; 0 for the infinities and NaN. *)
Definition exact (x : float) : Q :=
  match Prim2SF x with
  | S754_finite s m e =>
      ((if s then -1 else 1) * inject_Z (Zpos m) * 2 ^ e)%Q
  | _ => 0%Q
  end.

(** The match score of a key times [weights[key]], 1 when there is none,
    as a fraction. *)
Definition specKeyScore (h : heap) (options : SearchOptions) (query : string)
    (it : value) (entry : string * string) : Q :=
  let nv := normalizedValue h options it (snd entry) in
  let nq := normalize (caseSensitive options) query in
  (specMatchScore (default O (Str.indexOf nv nq)) (String.length nv) (String.length nq)
   * default 1 (exact <$> weights options !! fst entry))%Q.

Fixpoint Qsum (l : list Q) : Q :=
  match l with
  | [] => 0
  | x :: l' => x + Qsum l'
  end%Q.

(** The average of the key scores over the matching keys, as a fraction. *)
Definition specScore (h : heap) (options : SearchOptions) (query : string)
    (it : value) : Q :=
  let matching := List.filter (keyMatches h options query it) (keys options) in
  (Qsum (map (specKeyScore h options query it) matching)
   / inject_Z (Z.of_nat (length matching)))%Q.

(** [(1 - firstMatchIndex/valueLength + queryLength/valueLength) / 2]
    with every operation rounded to a double. *)
Definition roundedMatchScore (firstMatchIndex valueLength queryLength : nat) : float :=
  ((1 - Double.ofNat firstMatchIndex / Double.ofNat valueLength
      + Double.ofNat queryLength / Double.ofNat valueLength) / 2)%float.

(** The rounded match score of a key times [weights[key] || 1]. *)
Definition roundedKeyScore (h : heap) (options : SearchOptions) (query : string)
    (it : value) (entry : string * string) : float :=
  let nv := normalizedValue h options it (snd entry) in
  let nq := normalize (caseSensitive options) query in
  (roundedMatchScore (default O (Str.indexOf nv nq)) (String.length nv)
                     (String.length nq)
   * weightOf (weights options) (fst entry))%float.

(** The key scores of the matching keys, added up from 0 in the order of
    the keys and divided by their number, every operation rounded. *)
Definition roundedScore (h : heap) (options : SearchOptions) (query : string)
    (it : value) : float :=
  let matching := List.filter (keyMatches h options query it) (keys options) in
  (fold_left PrimFloat.add (map (roundedKeyScore h options query it) matching) 0
   / Double.ofNat (length matching))%float.

(** The overall score [rankedSearch] gives a record. *)
Definition overallScore (h : heap) (options : SearchOptions) (query : string)
    (it : value) : float :=
  score (rank h options (normalize (caseSensitive options) query) it).

(** [b] may follow [a] in an order of non-increasing keys. *)
Definition nonIncreasing {A} (key : A -> float) (a b : A) : Prop :=
  (key b <=? key a)%float = true.

(** The elements whose key equals [q]. *)
Definition scored {A} (key : A -> float) (q : float) (a : A) : bool :=
  (key a =? q)%float.

End Search.

(** ** Sample data *)

Module Samples.

Definition cartDefaults : Cart.DefaultItem :=
  {| Cart.def_image := Some EmptyString; Cart.def_metadata := None |}.

Definition laptop : Cart.ItemInput :=
  {| Cart.in_id := IdStr "product-1"; Cart.in_title := "Laptop";
     Cart.in_price := 999%Q; Cart.in_quantity := Some 1;
     Cart.in_image := None; Cart.in_metadata := None |}.

Definition mouse : Cart.ItemInput :=
  {| Cart.in_id := IdStr "product-2"; Cart.in_title := "Mouse";
     Cart.in_price := 25%Q; Cart.in_quantity := Some 2;
     Cart.in_image := None; Cart.in_metadata := None |}.

(** One laptop in the cart. *)
Definition cartOneLaptop : Cart.CartState :=
  Cart.apply cartDefaults (Cart.AddItem laptop 1) Cart.initialState.

(** Two laptops and a mouse line. *)
Definition cartLaptopsMouse : Cart.CartState :=
  Cart.apply cartDefaults (Cart.AddItem mouse 3)
    (Cart.apply cartDefaults (Cart.AddItem laptop 2) Cart.initialState).

(** A laptop, then a mouse added with quantity 0. *)
Definition cartZeroMouse : Cart.CartState :=
  Cart.apply cartDefaults (Cart.AddItem mouse 0) cartOneLaptop.

Definition wishDefaults : Wishlist.DefaultItem :=
  {| Wishlist.def_image := Some EmptyString; Wishlist.def_metadata := None |}.

Definition wishLaptop : Wishlist.ItemInput :=
  {| Wishlist.in_id := IdStr "product-1"; Wishlist.in_title := "Laptop";
     Wishlist.in_price := 999%Q;
     Wishlist.in_image := None; Wishlist.in_metadata := None |}.

Definition wishBook : Wishlist.ItemInput :=
  {| Wishlist.in_id := IdNum 3; Wishlist.in_title := "Book";
     Wishlist.in_price := 19%Q;
     Wishlist.in_image := None; Wishlist.in_metadata := None |}.

(** A wishlist holding the book. *)
Definition wishOneBook : Wishlist.WishlistState :=
  Wishlist.apply wishDefaults (Wishlist.AddItem wishBook) Wishlist.initialState.

(** A wishlist holding the laptop, then the book. *)
Definition wishLaptopBook : Wishlist.WishlistState :=
  Wishlist.apply wishDefaults (Wishlist.AddItem wishBook)
    (Wishlist.apply wishDefaults (Wishlist.AddItem wishLaptop) Wishlist.initialState).

(** A mouse bought one and a half times. *)
Definition halfMouse : CartUtils.Item :=
  {| CartUtils.id := JS.VStr "product-2"; CartUtils.title := JS.VStr "Mouse";
     CartUtils.price := JS.VNum (JS.Fin 25);
     CartUtils.quantity := JS.VNum (JS.Fin (3 # 2));
     CartUtils.image := JS.VUndefined |}.

(** Two mice under the numeric id 0. *)
Definition mouseZeroId : CartUtils.Item :=
  {| CartUtils.id := JS.VNum (JS.Fin 0); CartUtils.title := JS.VStr "Mouse";
     CartUtils.price := JS.VNum (JS.Fin 25);
     CartUtils.quantity := JS.VNum (JS.Fin 2);
     CartUtils.image := JS.VUndefined |}.

(** A record whose price is not a number. *)
Definition giftCard : FilterSort.Record_ :=
  Some {| FilterSort.title := "Gift card";
          FilterSort.category :=
            Some {| FilterSort.name := JS.VStr "Vouchers" |};
          FilterSort.price := JS.VStr "on request" |}.

Definition phone : FilterSort.Record_ :=
  Some {| FilterSort.title := "Phone";
          FilterSort.category :=
            Some {| FilterSort.name := JS.VStr "Electronics" |};
          FilterSort.price := JS.VNum (JS.Fin 599) |}.

(** No category selected, a lower price bound of 700. *)
Definition minBound : FilterSort.FilterSortState :=
  {| FilterSort.selectedCategories := [];
     FilterSort.priceRange := {| FilterSort.min := "700"; FilterSort.max := "" |};
     FilterSort.sortOption := FilterSort.SortNone |}.

(** A store with three catalogue records; each record refers to its
    category object. *)
Definition catalog : Search.heap :=
  [ {[ "id" := Search.VNum 1; "title" := Search.VStr "Laptop";
       "category" := Search.VRef 3%nat; "price" := Search.VNum 999 ]};
    {[ "id" := Search.VNum 2; "title" := Search.VStr "Phone";
       "category" := Search.VRef 3%nat; "price" := Search.VNum 599 ]};
    {[ "id" := Search.VNum 3; "title" := Search.VStr "Book";
       "category" := Search.VRef 4%nat; "price" := Search.VNum 19 ]};
    {[ "name" := Search.VStr "Electronics" ]};
    {[ "name" := Search.VStr "Books" ]} ].

Definition records : list Search.value :=
  [Search.VRef 0%nat; Search.VRef 1%nat; Search.VRef 2%nat].

Definition byTitle : Search.SearchOptions :=
  Search.defaultOptions [("title", "title")].

Definition byCategory : Search.SearchOptions :=
  Search.defaultOptions [("category", "category.name")].

Definition fuzzyByTitle : Search.SearchOptions :=
  {| Search.keys := [("title", "title")]; Search.caseSensitive := false;
     Search.exactMatch := false; Search.customMatcher := None;
     Search.strategy := Search.Fuzzy; Search.minScore := 0.3%Q;
     Search.regexFlags := "gi"; Search.weights := ∅;
     Search.highlightClass := "search-highlight" |}.

(** Two records whose titles score two thirds for the query [ab], as
    fractions: [(1 - 0/6 + 2/6)/2] and [(1 - 1/3 + 2/3)/2]. *)
Definition tied : Search.heap :=
  [ {[ "title" := Search.VStr "abyyyy" ]};
    {[ "title" := Search.VStr "xab" ]} ].

Definition tiedRecords : list Search.value :=
  [Search.VRef 0%nat; Search.VRef 1%nat].

(** A record whose title scores one half for the query [ab]:
    [(1 - 2/4 + 2/4)/2]. *)
Definition halved : Search.heap :=
  [ {[ "title" := Search.VStr "xxab" ]} ].

(** Titles weighted by the smallest double above 0, [2^-1074]. *)
Definition tinyWeight : Search.SearchOptions :=
  {| Search.keys := [("title", "title")]; Search.caseSensitive := false;
     Search.exactMatch := false; Search.customMatcher := None;
     Search.strategy := Search.Contains; Search.minScore := 0.3%Q;
     Search.regexFlags := "gi"; Search.weights := {[ "title" := 0x1p-1074%float ]};
     Search.highlightClass := "search-highlight" |}.

(** A regular-expression engine that compiles nothing. *)
Definition noRegex (pattern flags s : string) : option bool := None.

(** Titles count double. *)
Definition weightedByTitle : Search.SearchOptions :=
  {| Search.keys := [("title", "title")]; Search.caseSensitive := false;
     Search.exactMatch := false; Search.customMatcher := None;
     Search.strategy := Search.Contains; Search.minScore := 0.3%Q;
     Search.regexFlags := "gi"; Search.weights := {[ "title" := 2%float ]};
     Search.highlightClass := "search-highlight" |}.

End Samples.

(** ** Cart store: the remaining queries *)

Module CartQueries.
Import Cart.

(** [calculateSubtotal(itemIds)]. *)
Definition calculateSubtotal (itemIds : list ItemId) (state : CartState) : Q :=
  let its :=
    List.filter (fun item => existsb (strictEq (id item)) itemIds) (items state) in
  fold_left (fun total item => (total + price item * inject_Z (quantity item))%Q)
            its 0%Q.

(** The cart's [addItem] as the UI hands it to the wishlist's
    [moveToCart]: it receives the wishlist item object, which has no
    quantity field. *)
Definition asCartInput (w : Wishlist.WishlistItem) : ItemInput :=
  {| in_id := Wishlist.id w; in_title := Wishlist.title w;
     in_price := Wishlist.price w; in_quantity := None;
     in_image := Wishlist.image w; in_metadata := Wishlist.metadata w |}.

Definition addToCart (defaultItem : DefaultItem) (w : Wishlist.WishlistItem) (q : Z)
    (cart : CartState) : CartState :=
  addItem defaultItem (asCartInput w) q cart.

End CartQueries.

(** ** Filter engine: the controls of the hook *)

Module FilterControls.
Import JS FilterSort.

(** [hasActiveFilters]. *)
Definition hasActiveFilters (st : FilterSortState) : bool :=
  (0 <? length (selectedCategories st))%nat
  || negb (String.eqb (min (priceRange st)) "")
  || negb (String.eqb (max (priceRange st)) "")
  || negb (match sortOption st with SortNone => true | _ => false end).

(** The state update of [toggleCategory(category)]. *)
Definition toggleCategory (category : string) (prev : list string) : list string :=
  if existsb (String.eqb category) prev
  then List.filter (fun c => negb (String.eqb c category)) prev
  else prev ++ [category].

(** [clearAll()]. *)
Definition clearAll (_ : FilterSortState) : FilterSortState :=
  {| selectedCategories := [];
     priceRange := {| min := ""; max := "" |};
     sortOption := SortNone |}.

End FilterControls.

(** ** More sample data *)

Module MoreSamples.

(** Prices from 500 to 700. *)
Definition priceWindow : FilterSort.FilterSortState :=
  {| FilterSort.selectedCategories := [];
     FilterSort.priceRange := {| FilterSort.min := "500"; FilterSort.max := "700" |};
     FilterSort.sortOption := FilterSort.SortNone |}.

Definition electronicsOnly : FilterSort.FilterSortState :=
  {| FilterSort.selectedCategories := ["Electronics"%string];
     FilterSort.priceRange := {| FilterSort.min := ""; FilterSort.max := "" |};
     FilterSort.sortOption := FilterSort.SortNone |}.

End MoreSamples.

(** ** Search engine: option updates and the search hook
       (src/hooks/useSearch.js) *)

Module SearchHook.
Import Search.

(** [{ ...options, strategy }]. *)
Definition withStrategy (s : Strategy) (o : SearchOptions) : SearchOptions :=
  {| keys := keys o; caseSensitive := caseSensitive o; exactMatch := exactMatch o;
     customMatcher := customMatcher o; strategy := s; minScore := minScore o;
     regexFlags := regexFlags o; weights := weights o;
     highlightClass := highlightClass o |}.

(** [{ ...options, exactMatch }]. *)
Definition withExactMatch (b : bool) (o : SearchOptions) : SearchOptions :=
  {| keys := keys o; caseSensitive := caseSensitive o; exactMatch := b;
     customMatcher := customMatcher o; strategy := strategy o; minScore := minScore o;
     regexFlags := regexFlags o; weights := weights o;
     highlightClass := highlightClass o |}.

(** [{ ...options, keys }]. *)
Definition withKeys (ks : list (string * string)) (o : SearchOptions) : SearchOptions :=
  {| keys := ks; caseSensitive := caseSensitive o; exactMatch := exactMatch o;
     customMatcher := customMatcher o; strategy := strategy o; minScore := minScore o;
     regexFlags := regexFlags o; weights := weights o;
     highlightClass := highlightClass o |}.

(** [s.trim()]. *)
Definition trim (s : string) : string :=
  string_of_list_ascii (JS.trim (list_ascii_of_string s)).

(** What a call of [performSearch] ends in: a returned array, or the
    TypeError of calling something that is not a function. *)
Inductive Outcome :=
| Returned (results : list value)
| TypeError.

(** The configuration of [useSearch]: the options handed on to the
    search functions, and the name of the strategy. *)
Record SearchConfig := mkConfig {
  options : SearchOptions;
  strategyName : string
}.

Section Hook.

Variable regexTest : string -> string -> string -> option bool.

(** [performSearch(searchQuery, searchData)]. Its second parameter hides
    the imported function [searchData]: the [default] branch calls the
    data array. *)
Definition performSearch (h : heap) (config : SearchConfig) (searchQuery : string)
    (searchData : list value) : Outcome :=
  if String.eqb (trim searchQuery) "" || (length searchData =? 0)%nat
  then Returned searchData
  else
    let searchOptions := withStrategy Contains (options config) in
    let name := strategyName config in
    if String.eqb name "advanced" then
      Returned (advancedSearch regexTest h searchData searchQuery searchOptions)
    else if String.eqb name "ranked" then
      Returned (rankedSearch h searchData searchQuery searchOptions)
    else if String.eqb name "contains" then
      Returned (advancedSearch regexTest h searchData searchQuery
                  (withStrategy Contains searchOptions))
    else if String.eqb name "startsWith" then
      Returned (advancedSearch regexTest h searchData searchQuery
                  (withStrategy StartsWith searchOptions))
    else if String.eqb name "endsWith" then
      Returned (advancedSearch regexTest h searchData searchQuery
                  (withStrategy EndsWith searchOptions))
    else if String.eqb name "fuzzy" then
      Returned (advancedSearch regexTest h searchData searchQuery
                  (withStrategy Fuzzy searchOptions))
    else if String.eqb name "regex" then
      Returned (advancedSearch regexTest h searchData searchQuery
                  (withStrategy Regex searchOptions))
    else TypeError.

End Hook.

(** The state of the hook that its handlers set; [isSearching] is set
    from the debounced call and is left out. *)
Record HookState := mkHookState {
  query : string;
  searchHistory : list string
}.

Definition initialHookState : HookState :=
  {| query := ""; searchHistory := [] |}.

(** [handleSearch(newQuery)]. The callback is made by [useCallback] at a
    render and closes over the [searchHistory] of that render, [rendered]
    here: [searchHistory.includes] reads it, while the updater
    [prev => ...] is given the state. *)
Definition handleSearch (rendered : list string) (newQuery : string)
    (st : HookState) : HookState :=
  let trimmedQuery := trim newQuery in
  {| query := trimmedQuery;
     searchHistory :=
       if negb (String.eqb trimmedQuery "")
          && negb (existsb (String.eqb trimmedQuery) rendered)
       then trimmedQuery :: take 9 (searchHistory st)
       else searchHistory st |}.

Definition clearSearch (st : HookState) : HookState :=
  {| query := ""; searchHistory := searchHistory st |}.

Definition clearHistory (st : HookState) : HookState :=
  {| query := query st; searchHistory := [] |}.

(** [getSuggestions(partialQuery = '')], a callback too: it reads the
    [searchHistory] of its render. *)
Definition getSuggestions (rendered : list string) (partialQuery : string)
    : list string :=
  if String.eqb (trim partialQuery) "" then take 5 rendered
  else
    take 5 (List.filter
              (fun historyItem =>
                 Str.includes (Str.toLowerCase historyItem)
                              (Str.toLowerCase partialQuery))
              rendered).

(** A call of a handler; [HandleSearch] names the history its callback
    closed over. *)
Inductive HookOp :=
| HandleSearch (rendered : list string) (newQuery : string)
| ClearSearch
| ClearHistory.

Definition applyHook (o : HookOp) (st : HookState) : HookState :=
  match o with
  | HandleSearch rendered newQuery => handleSearch rendered newQuery st
  | ClearSearch => clearSearch st
  | ClearHistory => clearHistory st
  end.

(** The states the handlers lead to, whichever render each callback of
    [handleSearch] comes from. *)
Inductive hookReachable : HookState -> Prop :=
| hookReachable_init : hookReachable initialHookState
| hookReachable_step o st : hookReachable st -> hookReachable (applyHook o st).

(** A call through an up-to-date callback: one made at a render that has
    seen the present state. *)
Definition upToDate (o : HookOp) (st : HookState) : Prop :=
  match o with
  | HandleSearch rendered _ => rendered = searchHistory st
  | _ => True
  end.

(** The states reached when every call is up to date, that is when a
    render comes between a change of the history and the next call of
    [handleSearch]. *)
Inductive renderedReachable : HookState -> Prop :=
| renderedReachable_init : renderedReachable initialHookState
| renderedReachable_step o st :
    renderedReachable st -> upToDate o st -> renderedReachable (applyHook o st).

(** The strategy names the hook knows. *)
Definition knownStrategy (name : string) : Prop :=
  In name ["advanced"; "ranked"; "contains"; "startsWith"; "endsWith"; "fuzzy";
           "regex"]%string.

End SearchHook.

(** ** Cart utilities: totals and merging (src/utils/cartUtils.js) *)

Module CartCalc.
Import Cart.

Record TotalsOptions := mkTotalsOptions {
  taxRate : Q;
  discountRate : Q;
  shippingCost : Q
}.

(** [options = {}]: all three default to 0. *)
Definition defaultTotalsOptions : TotalsOptions :=
  {| taxRate := 0; discountRate := 0; shippingCost := 0 |}.

Record Totals := mkTotals {
  subtotal : Q;
  discountAmount : Q;
  taxAmount : Q;
  shipping : Q;
  total : Q;
  itemCount : Z;
  uniqueItems : nat
}.

(** [calculateCartTotals(items, options)]. *)
Definition calculateCartTotals (its : list CartItem) (options : TotalsOptions) : Totals :=
  let subtotal :=
    fold_left (fun total item => (total + price item * inject_Z (quantity item))%Q)
              its 0%Q in
  let discountAmount := (subtotal * discountRate options)%Q in
  let taxableAmount := (subtotal - discountAmount)%Q in
  let taxAmount := (taxableAmount * taxRate options)%Q in
  let total := (taxableAmount + taxAmount + shippingCost options)%Q in
  {| subtotal := subtotal;
     discountAmount := discountAmount;
     taxAmount := taxAmount;
     shipping := shippingCost options;
     total := total;
     itemCount := fold_left (fun count item => count + quantity item) its 0;
     uniqueItems := length its |}.

(** An item as the merging utilities read it: the id may be missing, and
    the item may carry a [variants] object. *)
Record Line := mkLine {
  lineId : option ItemId;
  lineTitle : string;
  linePrice : Q;
  lineQuantity : Z;
  variants : option (gmap string string)
}.

(** [String(id)]. *)
Definition idString (i : ItemId) : string := propertyKey i.

(** [item.id || item.title || 'item'], as a string. *)
Definition baseId (item : Line) : string :=
  match lineId item with
  | Some (IdStr s) =>
      if negb (String.eqb s "") then s
      else if negb (String.eqb (lineTitle item) "") then lineTitle item else "item"
  | Some (IdNum n) =>
      if negb (n =? 0) then idString (IdNum n)
      else if negb (String.eqb (lineTitle item) "") then lineTitle item else "item"
  | None =>
      if negb (String.eqb (lineTitle item) "") then lineTitle item else "item"
  end.

(** [keys.sort()]: strings in the order of their character codes. *)
Fixpoint insertString (s : string) (l : list string) : list string :=
  match l with
  | [] => [s]
  | t :: l' => if String.leb s t then s :: l else t :: insertString s l'
  end.

Definition sortStrings (l : list string) : list string :=
  fold_right insertString [] l.

(** [generateCartItemId(item)] with its default options: variants
    included, separator ['_']. *)
Definition generateCartItemId (item : Line) : string :=
  let separator := "_"%string in
  match variants item with
  | Some vs =>
      let variantKeys := sortStrings (map fst (map_to_list vs)) in
      let variantString :=
        String.concat separator
          (map (fun key => (key ++ ":" ++ default EmptyString (vs !! key))%string)
               variantKeys) in
      (baseId item ++ separator ++ variantString)%string
  | None => baseId item
  end.

Definition addQuantity (q : Z) (item : Line) : Line :=
  {| lineId := lineId item; lineTitle := lineTitle item; linePrice := linePrice item;
     lineQuantity := lineQuantity item + q; variants := variants item |}.

(** The callback of the [forEach] of [mergeDuplicateItems] on the map,
    kept as the list of its entries in insertion order. *)
Definition mergeStep (itemMap : list (string * Line)) (item : Line)
    : list (string * Line) :=
  let key := generateCartItemId item in
  match findIndex (fun entry => String.eqb (fst entry) key) itemMap with
  | Some i =>
      alter (fun entry => (fst entry, addQuantity (lineQuantity item) (snd entry)))
            i itemMap
  | None => itemMap ++ [(key, item)]
  end.

(** [mergeDuplicateItems(items)]. *)
Definition mergeDuplicateItems (its : list Line) : list Line :=
  map snd (fold_left mergeStep its []).

Fixpoint sumLineQuantities (its : list Line) : Z :=
  match its with
  | [] => 0
  | item :: rest => lineQuantity item + sumLineQuantities rest
  end.

(** An entry of the map is filed under the identity key of its item. *)
Definition filed (entry : string * Line) : Prop :=
  generateCartItemId (snd entry) = fst entry.

End CartCalc.

(** * Properties *)

(** ** Identifiers and array helpers *)

Lemma strictEq_true a b : strictEq a b = true <-> a = b.
Proof. unfold strictEq. apply bool_decide_eq_true. Qed.

Lemma strictEq_false a b : strictEq a b = false <-> a <> b.
Proof. unfold strictEq. apply bool_decide_eq_false. Qed.

Lemma strictEq_refl a : strictEq a a = true.
Proof. by apply strictEq_true. Qed.

Lemma findIndex_None {A} (p : A -> bool) l :
  findIndex p l = None <-> (forall x, In x l -> p x = false).
Proof.
  induction l as [|a l IH]; simpl.
  - split; [intros _ x []|done].
  - destruct (p a) eqn:Hp.
    + split; [done|]. intros H. specialize (H a (or_introl eq_refl)). congruence.
    + destruct (findIndex p l) eqn:Hf; simpl.
      * split; [done|]. intros H.
        assert (Some n = None) as Hn; [|done].
        apply IH. intros x Hx. apply H. by right.
      * split; [|done]. intros _ x [<-|Hx]; [done|]. by apply IH.
Qed.

Lemma findIndex_Some {A} (p : A -> bool) l i :
  findIndex p l = Some i -> exists x, l !! i = Some x /\ p x = true.
Proof.
  revert i. induction l as [|a l IH]; simpl; intros i; [done|].
  destruct (p a) eqn:Hp.
  - intros [= <-]. by exists a.
  - destruct (findIndex p l) as [j|] eqn:Hf; simpl; [|done].
    intros [= <-]. by apply IH.
Qed.


Lemma NoDup_map_inj {A B} (f : A -> B) (l : list A) a b :
  NoDup (map f l) -> In a l -> In b l -> f a = f b -> a = b.
Proof.
  induction l as [|x l IH]; simpl; [done|].
  intros Hnd Ha Hb Hab. apply NoDup_cons in Hnd as [Hx Hnd].
  destruct Ha as [<-|Ha], Hb as [<-|Hb]; try done.
  - exfalso. apply Hx. rewrite Hab. apply list_elem_of_In, in_map, Hb.
  - exfalso. apply Hx. rewrite <- Hab. apply list_elem_of_In, in_map, Ha.
  - by apply IH.
Qed.

(** ** Cart store *)

Module CartProps.
Import Cart.

Lemma fold_quantities its a :
  fold_left (fun total item => total + quantity item) its a = a + sumQuantities its.
Proof.
  revert a. induction its as [|i its IH]; intros a; simpl; [lia|].
  rewrite IH. lia.
Qed.

Lemma fold_prices its a :
  (fold_left (fun total item => total + price item * inject_Z (quantity item)) its a
   == a + sumPrices its)%Q.
Proof.
  revert a. induction its as [|i its IH]; intros a; simpl.
  - ring.
  - rewrite IH. ring.
Qed.

Lemma withItems_items its : items (withItems its) = its.
Proof. reflexivity. Qed.

Lemma withItems_derived its : derived (withItems its).
Proof.
  unfold derived, withItems, calculateTotals; simpl. split; [|split].
  - rewrite fold_quantities. lia.
  - rewrite fold_prices. ring.
  - destruct its; simpl; split; done.
Qed.

Lemma initialState_derived : derived initialState.
Proof. unfold derived; simpl. split; [done|]. split; [reflexivity|done]. Qed.

Lemma apply_derived d o s : derived (apply d o s).
Proof.
  destruct o; simpl;
    first [ apply withItems_derived
          | apply initialState_derived
          | unfold updateQuantity; destruct (_ <=? 0); apply withItems_derived ].
Qed.

(** Every state the store reaches has at most one line per id. *)
Lemma addTo_ids_NoDup d its item q :
  NoDup (map id its) -> NoDup (map id (addTo d its item q)).
Proof.
  intros Hnd. unfold addTo.
  destruct (findIndex _ its) as [i|] eqn:Hf.
  - replace (map id (alter _ i its)) with (map id its); [done|].
    clear. revert i. induction its as [|x its IH]; intros [|i]; simpl; try done.
    f_equal. apply IH.
  - rewrite map_app; simpl. apply NoDup_app. split; [done|]. split.
    + intros x Hx Hx'. apply list_elem_of_singleton in Hx'. subst x.
      apply list_elem_of_In, in_map_iff in Hx as (c & Hc & Hin).
      apply findIndex_None with (x := c) in Hf; [|done].
      apply strictEq_false in Hf. done.
    + apply NoDup_singleton.
Qed.

Lemma filter_ids_NoDup (p : CartItem -> bool) its :
  NoDup (map id its) -> NoDup (map id (List.filter p its)).
Proof.
  induction its as [|x its IH]; simpl; [done|].
  intros Hnd. apply NoDup_cons in Hnd as [Hx Hnd].
  destruct (p x); simpl; [|by apply IH].
  apply NoDup_cons. split; [|by apply IH].
  intros Hin. apply Hx. apply list_elem_of_In, in_map_iff in Hin as (c & Hc & Hin).
  apply filter_In in Hin as [Hin _].
  apply list_elem_of_In, in_map_iff. by exists c.
Qed.

Lemma map_ids_NoDup (f : CartItem -> CartItem) its :
  (forall x, id (f x) = id x) -> NoDup (map id its) -> NoDup (map id (map f its)).
Proof.
  intros Hf. rewrite map_map.
  replace (map (fun x => id (f x)) its) with (map id its); [done|].
  apply map_ext. intros x. by rewrite Hf.
Qed.

Lemma omap_ids_NoDup (f : CartItem -> option CartItem) its :
  (forall x y, f x = Some y -> id y = id x) ->
  NoDup (map id its) -> NoDup (map id (omap f its)).
Proof.
  intros Hf. induction its as [|x its IH]; simpl; [done|].
  intros Hnd. apply NoDup_cons in Hnd as [Hx Hnd].
  destruct (f x) as [y|] eqn:Hy; simpl; [|by apply IH].
  apply NoDup_cons. split; [|by apply IH].
  rewrite (Hf _ _ Hy). intros Hin. apply Hx.
  apply list_elem_of_In, in_map_iff in Hin as (c & Hc & Hin).
  apply list_elem_of_In, list_elem_of_omap in Hin as (c' & Hin & Hc').
  apply Hf in Hc'. apply list_elem_of_In, in_map_iff. exists c'.
  split; [congruence|]. by apply list_elem_of_In.
Qed.

Lemma reachable_ids_NoDup d s : reachable d s -> NoDup (map id (items s)).
Proof.
  induction 1 as [|o s Hs IH]; simpl; [apply NoDup_nil_2|].
  destruct o; simpl.
  - by apply addTo_ids_NoDup.
  - by apply filter_ids_NoDup.
  - unfold updateQuantity. destruct (q <=? 0); simpl.
    + by apply filter_ids_NoDup.
    + apply map_ids_NoDup; [|done]. intros x. by destruct (strictEq _ _).
  - apply map_ids_NoDup; [|done]. intros x. by destruct (strictEq _ _).
  - apply omap_ids_NoDup; [|done]. intros x y.
    destruct (strictEq _ _); [|by intros [= <-]].
    destruct (_ <=? 0); [done|]. by intros [= <-].
  - apply NoDup_nil_2.
  - revert IH. generalize (items s). induction its as [|i its IHits]; simpl; [done|].
    intros l Hl. apply IHits. by apply addTo_ids_NoDup.
  - by apply filter_ids_NoDup.
  - apply omap_ids_NoDup; [|done]. intros x y.
    destruct (_ !! _); [|by intros [= <-]].
    destruct (_ <=? 0); [done|]. by intros [= <-].
Qed.

(** C4. In every state the cart store reaches, whatever the sequence of
    operations (single-item and bulk), [totalItems] is the sum of the
    quantities of the lines, [totalPrice] the sum of price times quantity
    over the lines, and [isEmpty] holds exactly when there is no line. *)
Theorem cart_totals_derived (d : DefaultItem) (s : CartState) :
  reachable d s ->
  totalItems s = sumQuantities (items s)
  /\ (totalPrice s == sumPrices (items s))%Q
  /\ (isEmpty s = true <-> items s = []).
Proof.
  intros Hs. change (derived s). destruct Hs as [|o s Hs].
  - apply initialState_derived.
  - apply apply_derived.
Qed.

Lemma cart_totals_derived_witness :
  Cart.reachable Samples.cartDefaults Samples.cartLaptopsMouse
  /\ totalItems Samples.cartLaptopsMouse = sumQuantities (items Samples.cartLaptopsMouse)
  /\ (totalPrice Samples.cartLaptopsMouse
      == sumPrices (items Samples.cartLaptopsMouse))%Q
  /\ (isEmpty Samples.cartLaptopsMouse = true <-> items Samples.cartLaptopsMouse = []).
Proof.
  assert (Cart.reachable Samples.cartDefaults Samples.cartLaptopsMouse) as Hr.
  { unfold Samples.cartLaptopsMouse. do 2 apply reachable_step. apply reachable_init. }
  split; [exact Hr|]. exact (cart_totals_derived Samples.cartDefaults _ Hr).
Defined.

Lemma removeItem_items x s l' :
  In l' (items (removeItem x s)) <-> In l' (items s) /\ id l' <> x.
Proof.
  unfold removeItem. rewrite withItems_items, filter_In.
  rewrite negb_true_iff, strictEq_false. done.
Qed.

Lemma decrement_all_is_remove x amount its :
  (forall l', In l' its -> id l' = x -> quantity l' <= amount) ->
  omap (fun item =>
          if strictEq (id item) x then
            let newQuantity := quantity item - amount in
            if newQuantity <=? 0 then None else Some (setQuantity newQuantity item)
          else Some item) its
  = List.filter (fun item => negb (strictEq (id item) x)) its.
Proof.
  induction its as [|i its IH]; intros Hall; cbv zeta in *; csimpl; [done|].
  rewrite IH by (intros l' Hl'; apply Hall; by right).
  destruct (strictEq (id i) x) eqn:Hi; simpl; [|done].
  apply strictEq_true in Hi.
  assert (quantity i <= amount) as Hq by (apply Hall; [by left|done]).
  destruct (quantity i - amount <=? 0) eqn:Hle; [done|].
  apply Z.leb_gt in Hle. lia.
Qed.

(** C5, as amended. In a cart with at most one line per id that has a
    line with id [x] and quantity [q]: [updateQuantity(x, n)] with
    [n <= 0] yields the state [removeItem(x)] yields, and so does
    [decrementItem(x, amount)] with [amount >= q]; in that state no line
    with id [x] remains and the lines with another id are exactly those
    of before, unchanged, so no line with a quantity [<= 0] remains as
    soon as every other line had a positive quantity. *)
Theorem nonpositive_removes_line (s : CartState) (x : ItemId) (q n amount : Z)
    (l : CartItem) :
  NoDup (map id (items s)) ->
  In l (items s) -> id l = x -> quantity l = q ->
  (n <= 0 -> updateQuantity x n s = removeItem x s)
  /\ (q <= amount -> decrementItem x amount s = removeItem x s)
  /\ (forall l', In l' (items (removeItem x s)) <-> In l' (items s) /\ id l' <> x)
  /\ ((forall l', In l' (items s) -> id l' <> x -> 0 < quantity l') ->
      forall l', In l' (items (removeItem x s)) -> 0 < quantity l').
Proof.
  intros Hnd Hl Hid Hq. split; [|split; [|split]].
  - intros Hn. unfold updateQuantity.
    destruct (n <=? 0) eqn:Hle; [done|]. apply Z.leb_gt in Hle. lia.
  - intros Ha. unfold decrementItem, removeItem. f_equal.
    apply decrement_all_is_remove. intros l' Hl' Hid'.
    assert (l' = l) as ->; [|lia].
    apply (NoDup_map_inj id (items s)); [done..|congruence].
  - intros l'. apply removeItem_items.
  - intros Hpos l' Hl'. apply removeItem_items in Hl' as [H1 H2]. by apply Hpos.
Qed.

Lemma nonpositive_removes_line_witness :
  let s := Samples.cartLaptopsMouse in
  let x := IdStr "product-1" in
  let l := newLine Samples.cartDefaults Samples.laptop 2 in
  (NoDup (map id (items s)) /\ In l (items s) /\ id l = x /\ quantity l = 2)
  /\ updateQuantity x 0 s = removeItem x s
  /\ decrementItem x 2 s = removeItem x s
  /\ map id (items (removeItem x s)) = [IdStr "product-2"].
Proof.
  intros s x l.
  assert (NoDup (map id (items s))) as Hnd.
  { apply (reachable_ids_NoDup Samples.cartDefaults).
    do 2 apply reachable_step. apply reachable_init. }
  assert (In l (items s)) as Hl by (vm_compute; auto).
  pose proof (nonpositive_removes_line s x 2 0 2 l Hnd Hl eq_refl eq_refl)
    as (H1 & H2 & _).
  split; [done|]. split; [apply H1; lia|]. split; [apply H2; lia|]. reflexivity.
Defined.

(** C5 as stated fails: in the reachable cart with one laptop and a
    mouse line of quantity 0, [updateQuantity] of the laptop to 0, and
    [decrementItem] of the laptop by its quantity, both leave the mouse
    line, whose quantity is not positive. *)
Lemma nonpositive_line_may_remain :
  let s := Samples.cartZeroMouse in
  let x := IdStr "product-1" in
  Cart.reachable Samples.cartDefaults s
  /\ (exists l, In l (items s) /\ id l = x /\ quantity l = 1)
  /\ (exists l', In l' (items (updateQuantity x 0 s)) /\ quantity l' <= 0)
  /\ (exists l', In l' (items (decrementItem x 1 s)) /\ quantity l' <= 0).
Proof.
  intros s x. split.
  { do 2 apply reachable_step. apply reachable_init. }
  split.
  { exists (newLine Samples.cartDefaults Samples.laptop 1). vm_compute. auto. }
  split; exists (newLine Samples.cartDefaults Samples.mouse 0);
    (split; [vm_compute; auto | vm_compute; discriminate]).
Qed.

(** C10. When the cart has no line with the id of [item], [addItem(item, n)]
    with [n <= 0] appends one new line with that id whose quantity is
    exactly [n]: the resulting cart contains a line with a non-positive
    quantity, which the queries [isItemInCart] and [getItemQuantity]
    show. *)
Theorem addItem_keeps_nonpositive_quantity (d : DefaultItem) (s : CartState)
    (item : ItemInput) (n : Z) :
  (forall c, In c (items s) -> id c <> in_id item) ->
  n <= 0 ->
  let s' := addItem d item n s in
  items s' = items s ++ [newLine d item n]
  /\ id (newLine d item n) = in_id item
  /\ quantity (newLine d item n) = n
  /\ (exists line, In line (items s') /\ quantity line <= 0)
  /\ isItemInCart (in_id item) s' = true
  /\ getItemQuantity (in_id item) s' = n.
Proof.
  intros Hnew Hn s'.
  assert (items s' = items s ++ [newLine d item n]) as Hitems.
  { unfold s', addItem, addTo. rewrite withItems_items.
    destruct (findIndex _ (items s)) as [i|] eqn:Hf; [|done].
    apply findIndex_Some in Hf as (c & Hc & Heq).
    apply strictEq_true in Heq. exfalso. apply (Hnew c); [|done].
    apply list_elem_of_In, list_elem_of_lookup. by exists i. }
  split; [done|]. split; [done|]. split; [done|]. split; [|split].
  - exists (newLine d item n). split; [|simpl; lia].
    rewrite Hitems. apply in_or_app. right. by left.
  - unfold isItemInCart. rewrite Hitems, existsb_app. simpl.
    rewrite strictEq_refl. by rewrite orb_true_r.
  - unfold getItemQuantity, getCartItem. rewrite Hitems.
    assert (List.find (fun i => strictEq (id i) (in_id item)) (items s) = None) as Hnone.
    { clear Hitems. induction (items s) as [|c its IH]; simpl; [done|].
      destruct (strictEq (id c) (in_id item)) eqn:Hc.
      - apply strictEq_true in Hc. exfalso. apply (Hnew c); [by left|done].
      - apply IH. intros c' Hc'. apply Hnew. by right. }
    assert (forall its : list CartItem,
               List.find (fun i => strictEq (id i) (in_id item)) its = None ->
               List.find (fun i => strictEq (id i) (in_id item))
                         (its ++ [newLine d item n]) = Some (newLine d item n)) as Happ.
    { induction its as [|c its IH]; simpl.
      - by rewrite strictEq_refl.
      - destruct (strictEq (id c) (in_id item)); [done|]. apply IH. }
    by rewrite (Happ _ Hnone).
Qed.

Lemma addItem_keeps_nonpositive_quantity_witness :
  let s' := addItem Samples.cartDefaults Samples.mouse 0 Samples.cartOneLaptop in
  (forall c, In c (items Samples.cartOneLaptop) -> id c <> in_id Samples.mouse)
  /\ 0 <= 0
  /\ items s' = items Samples.cartOneLaptop ++ [newLine Samples.cartDefaults Samples.mouse 0]
  /\ getItemQuantity (in_id Samples.mouse) s' = 0.
Proof.
  intros s'.
  assert (forall c, In c (items Samples.cartOneLaptop) -> id c <> in_id Samples.mouse)
    as Hnew.
  { intros c [<-|[]]. vm_compute. discriminate. }
  pose proof (addItem_keeps_nonpositive_quantity Samples.cartDefaults
                Samples.cartOneLaptop Samples.mouse 0 Hnew (Z.le_refl 0))
    as (H1 & _ & _ & _ & _ & H6).
  split; [exact Hnew|]. split; [lia|]. split; [exact H1|exact H6].
Defined.

End CartProps.

(** ** Wishlist store *)

Module WishlistProps.
Import Wishlist.

Lemma wishlist_withItems_derived its : derived (withItems its).
Proof. by unfold derived, withItems. Qed.

Lemma derived_withItems s : derived s -> withItems (items s) = s.
Proof. destruct s as [its n e]. unfold derived; simpl. by intros [-> ->]. Qed.

(** Every state the wishlist store reaches has its totals derived from
    its items. *)
Lemma reachable_derived d s : reachable d s -> derived s.
Proof.
  induction 1 as [|o s Hs IH]; [done|].
  destruct o; simpl; try apply wishlist_withItems_derived; try done.
  - unfold addItem. destruct (List.find _ _); [done|apply wishlist_withItems_derived].
  - unfold toggleItem. destruct (isItemInWishlist _ _); simpl.
    + apply wishlist_withItems_derived.
    + unfold addItem. destruct (List.find _ _); [done|apply wishlist_withItems_derived].
Qed.

Lemma find_isItemInWishlist itemId s :
  isItemInWishlist itemId s = false <-> getWishlistItem itemId s = None.
Proof.
  unfold isItemInWishlist, getWishlistItem.
  induction (items s) as [|i its IH]; simpl; [done|].
  destruct (strictEq (id i) itemId); simpl; [done|apply IH].
Qed.

Lemma filter_absent itemId (its : list WishlistItem) :
  existsb (fun w => strictEq (id w) itemId) its = false ->
  List.filter (fun item => negb (strictEq (id item) itemId)) its = its.
Proof.
  induction its as [|i its IH]; simpl; [done|].
  destruct (strictEq (id i) itemId); simpl; [done|].
  intros H. by rewrite IH.
Qed.

Lemma isItemInWishlist_removeItem itemId s :
  isItemInWishlist itemId (removeItem itemId s) = false.
Proof.
  unfold isItemInWishlist, removeItem; simpl.
  induction (items s) as [|i its IH]; simpl; [done|].
  destruct (strictEq (id i) itemId) eqn:Hi; simpl; [done|]. by rewrite Hi.
Qed.

(** C6, as amended. When the wishlist (its totals derived from its
    items) holds no item with the id of [x], toggling [x] twice yields
    the original state again (same items in the same order, same totals),
    and the two calls report [true] then [false]. *)
Theorem toggle_twice_absent (d : DefaultItem) (s : WishlistState) (x : ItemInput) :
  derived s ->
  isItemInWishlist (in_id x) s = false ->
  let '(s1, added1) := toggleItem d x s in
  let '(s2, added2) := toggleItem d x s1 in
  s2 = s /\ added1 = true /\ added2 = false.
Proof.
  intros Hd Habs. unfold toggleItem at 1. rewrite Habs.
  assert (addItem d x s = withItems (items s ++ [newItem d x])) as Hadd.
  { unfold addItem. apply find_isItemInWishlist in Habs.
    unfold getWishlistItem in Habs. by rewrite Habs. }
  rewrite Hadd. unfold toggleItem.
  assert (isItemInWishlist (in_id x) (withItems (items s ++ [newItem d x])) = true)
    as ->.
  { unfold isItemInWishlist; simpl. rewrite existsb_app; simpl.
    rewrite strictEq_refl. by rewrite orb_true_r. }
  split; [|done].
  unfold removeItem; simpl. rewrite List.filter_app; simpl.
  rewrite strictEq_refl; simpl. rewrite app_nil_r.
  rewrite filter_absent by exact Habs. by apply derived_withItems.
Qed.

Lemma toggle_twice_absent_witness :
  let s := Samples.wishOneBook in
  let x := Samples.wishLaptop in
  (derived s /\ isItemInWishlist (in_id x) s = false)
  /\ fst (toggleItem Samples.wishDefaults x
            (fst (toggleItem Samples.wishDefaults x s))) = s
  /\ snd (toggleItem Samples.wishDefaults x s) = true
  /\ snd (toggleItem Samples.wishDefaults x
            (fst (toggleItem Samples.wishDefaults x s))) = false.
Proof.
  intros s x.
  assert (derived s) as Hd by (split; reflexivity).
  assert (isItemInWishlist (in_id x) s = false) as Habs by reflexivity.
  pose proof (toggle_twice_absent Samples.wishDefaults s x Hd Habs) as H.
  destruct (toggleItem Samples.wishDefaults x s) as [s1 a1].
  simpl. destruct (toggleItem Samples.wishDefaults x s1) as [s2 a2].
  simpl. split; [done|]. exact H.
Defined.

(** C6 as stated fails: in the reachable wishlist holding the laptop and
    then the book, toggling the laptop twice reports [false] then [true],
    and leaves the laptop behind the book. *)
Lemma toggle_twice_present :
  let s := Samples.wishLaptopBook in
  let x := Samples.wishLaptop in
  Wishlist.reachable Samples.wishDefaults s
  /\ snd (toggleItem Samples.wishDefaults x s) = false
  /\ snd (toggleItem Samples.wishDefaults x
            (fst (toggleItem Samples.wishDefaults x s))) = true
  /\ fst (toggleItem Samples.wishDefaults x
            (fst (toggleItem Samples.wishDefaults x s))) <> s.
Proof.
  intros s x. split.
  { do 2 apply reachable_step. apply reachable_init. }
  split; [reflexivity|]. split; [reflexivity|].
  vm_compute. discriminate.
Qed.

(** C7. [moveToCart(id, cb)] with a callback: when no item has the id,
    the wishlist is unchanged, the callback is not invoked and the result
    is [undefined]; when an item has it, the callback is invoked exactly
    once, with that item and the quantity 1, the item is removed from
    the wishlist, and the item is returned. *)
Theorem moveToCart_spec {W : Type} (s : WishlistState) (itemId : ItemId)
    (cb : WishlistItem -> Z -> W -> W) (w : W) :
  (isItemInWishlist itemId s = false ->
     moveToCart itemId (Some cb) s w = (s, w, None)
     /\ moveToCart itemId (Some recordCall) s [] = (s, [], None))
  /\ (isItemInWishlist itemId s = true ->
      exists it,
        In it (items s) /\ id it = itemId
        /\ moveToCart itemId (Some cb) s w = (removeItem itemId s, cb it 1 w, Some it)
        /\ moveToCart itemId (Some recordCall) s []
           = (removeItem itemId s, [(it, 1)], Some it)
        /\ isItemInWishlist itemId (removeItem itemId s) = false
        /\ (forall other, In other (items (removeItem itemId s))
                          <-> In other (items s) /\ id other <> itemId)).
Proof.
  split.
  - intros Habs. apply find_isItemInWishlist in Habs.
    unfold getWishlistItem in Habs. unfold moveToCart. by rewrite Habs.
  - intros Hin. unfold moveToCart.
    destruct (List.find _ (items s)) as [it|] eqn:Hf.
    + pose proof (find_some _ _ Hf) as [Hit Hid]. apply strictEq_true in Hid.
      exists it. split; [done|]. split; [done|]. split; [done|]. split; [done|].
      split; [apply isItemInWishlist_removeItem|].
      intros other. unfold removeItem; simpl. rewrite filter_In.
      by rewrite negb_true_iff, strictEq_false.
    + apply find_isItemInWishlist in Hf. congruence.
Qed.

Lemma moveToCart_spec_witness :
  let s := Samples.wishLaptopBook in
  (isItemInWishlist (IdStr "product-9") s = false
   /\ isItemInWishlist (IdNum 3) s = true)
  /\ moveToCart (IdStr "product-9") (Some recordCall) s [] = (s, [], None)
  /\ exists it,
       moveToCart (IdNum 3) (Some recordCall) s []
       = (removeItem (IdNum 3) s, [(it, 1)], Some it).
Proof.
  intros s. split; [split; reflexivity|]. split.
  - pose proof (moveToCart_spec s (IdStr "product-9") recordCall []) as [H _].
    apply H. reflexivity.
  - pose proof (moveToCart_spec s (IdNum 3) recordCall []) as [_ H].
    destruct (H eq_refl) as (it & _ & _ & _ & Hm & _). by exists it.
Defined.

End WishlistProps.

(** ** Cart utilities *)

Module CartUtilsProps.
Import JS CartUtils.

Lemma pushIf_empty c msg l :
  pushIf c msg l = [] <-> c = false /\ l = [].
Proof.
  unfold pushIf. destruct c.
  - split; [|by intros [? _]]. by destruct l.
  - split; [done|by intros [_ ?]].
Qed.

Lemma length_eqb_0 {A} (l : list A) : (length l =? 0)%nat = true <-> l = [].
Proof. destruct l; simpl; by split. Qed.

(** C8, as amended. [validateCartItem] returns its result for every item
    object, and [isValid] is true exactly when the id is truthy, the
    title is a non-empty string, the price is of type number and the test
    [price < 0] fails, and the quantity is of type number and the test
    [quantity <= 0] fails. Both tests fail on NaN: a price passes when it
    is at least 0 or NaN, a quantity when it is above 0, whole or not, or
    NaN. *)
Theorem validateCartItem_isValid (item : Item) :
  isValid (validateCartItem item) = true
  <-> truthy (id item) = true
      /\ (exists s, title item = VStr s /\ s <> EmptyString)
      /\ (exists n, price item = VNum n /\ lt n (Fin 0) = false)
      /\ (exists n, quantity item = VNum n /\ le n (Fin 0) = false).
Proof.
  unfold validateCartItem; cbn [isValid].
  rewrite length_eqb_0, !pushIf_empty.
  rewrite negb_false_iff, orb_false_iff, !negb_false_iff, bool_decide_eq_true.
  split.
  - intros (Hq & Hp & (Ht & Hty) & Hi & _).
    split; [done|]. split; [|split].
    + destruct (title item) as [| |b|n|s|] eqn:Et; try done.
      exists s. split; [done|]. intros ->. done.
    + destruct (price item) as [| |b|n|s|]; try done. by exists n.
    + destruct (quantity item) as [| |b|n|s|]; try done. by exists n.
  - intros (Hi & (s & Ht & Hs) & (n & Hp & Hn) & (m & Hq & Hm)).
    rewrite Ht, Hp, Hq; simpl. repeat split; try done.
    destruct s; [done|reflexivity].
Qed.

(** C8 as stated fails in both directions: a quantity of one and a half
    is accepted although it is not an integer, and an item whose id is
    the number 0 is rejected although its id is present. *)
Lemma validateCartItem_not_spec :
  ~ (isValid (validateCartItem Samples.halfMouse) = true
     <-> specValid Samples.halfMouse)
  /\ ~ (isValid (validateCartItem Samples.mouseZeroId) = true
        <-> specValid Samples.mouseZeroId).
Proof.
  split.
  - intros [H _]. specialize (H eq_refl).
    destruct H as (_ & _ & _ & n & Hn & _ & Hint).
    injection Hn as <-. vm_compute in Hint. discriminate.
  - intros [_ H]. assert (specValid Samples.mouseZeroId) as Hs.
    { split; [split; discriminate|]. split; [reflexivity|]. split.
      - eexists. split; reflexivity.
      - eexists. split; [reflexivity|]. split; reflexivity. }
    specialize (H Hs). vm_compute in H. discriminate.
Qed.

End CartUtilsProps.

(** ** Filter engine *)

Module FilterSortProps.
Import JS FilterSort.

Lemma passesPrice_non_numeric st item :
  numericPrice item = false -> passesPrice st item = true.
Proof.
  unfold numericPrice, passesPrice. intros H. apply negb_false_iff in H.
  by rewrite H.
Qed.

Lemma filteredData_In data st item :
  In item (filteredData data st)
  <-> In item data /\ passesCategory st item = true /\ passesPrice st item = true.
Proof.
  unfold filteredData. destruct data as [|r data].
  - simpl. tauto.
  - change (length (r :: data) =? 0)%nat with false. cbv iota.
    rewrite filter_In, andb_true_iff. tauto.
Qed.

(** C1, as amended. A record whose price is not numeric passes the price
    filter whatever the bounds are, set or not: it is in the filtered
    data exactly when it is in the data and passes the category filter. *)
Theorem non_numeric_price_passes (data : list Record_) (st : FilterSortState)
    (item : Record_) :
  numericPrice item = false ->
  passesPrice st item = true
  /\ (In item (filteredData data st)
      <-> In item data /\ passesCategory st item = true).
Proof.
  intros H. pose proof (passesPrice_non_numeric st item H) as Hp.
  split; [done|]. rewrite filteredData_In. tauto.
Qed.

Lemma non_numeric_price_passes_witness :
  numericPrice Samples.giftCard = false
  /\ passesPrice Samples.minBound Samples.giftCard = true
  /\ (In Samples.giftCard (filteredData [Samples.phone; Samples.giftCard] Samples.minBound)
      <-> In Samples.giftCard [Samples.phone; Samples.giftCard]
          /\ passesCategory Samples.minBound Samples.giftCard = true).
Proof.
  split; [reflexivity|].
  apply (non_numeric_price_passes [Samples.phone; Samples.giftCard]
           Samples.minBound Samples.giftCard).
  reflexivity.
Defined.

(** C1 as stated fails: with the lower bound 700 set, the gift card,
    whose price is not numeric, is kept (while the phone at 599 is
    dropped). *)
Lemma non_numeric_price_kept_under_bound :
  boundSet Samples.minBound = true
  /\ numericPrice Samples.giftCard = false
  /\ filteredData [Samples.phone; Samples.giftCard] Samples.minBound
     = [Samples.giftCard].
Proof. split; [reflexivity|]. split; reflexivity. Qed.

End FilterSortProps.

(** ** Search engine: strings *)

Module StrProps.
Import Str.

Lemma length_chars s : String.length s = length (list_ascii_of_string s).
Proof. induction s as [|c s IH]; simpl; [done|]. by rewrite IH. Qed.

Lemma get_chars s k : String.get k s = list_ascii_of_string s !! k.
Proof.
  revert k. induction s as [|c s IH]; intros [|k]; simpl; done.
Qed.

Lemma toLowerCase_length s : String.length (toLowerCase s) = String.length s.
Proof. induction s as [|c s IH]; simpl; [done|]. by rewrite IH. Qed.

Lemma toLowerCase_empty s : toLowerCase s = EmptyString <-> s = EmptyString.
Proof. destruct s; simpl; by split. Qed.

Lemma eqb_empty s : String.eqb s "" = false <-> s <> EmptyString.
Proof. destruct s; simpl; by split. Qed.

End StrProps.

(** ** Search engine: fuzzy matching *)

Module FuzzyProps.
Import Search StrProps.

Abbreviation chars := list_ascii_of_string.

Lemma sublist_cons_same {A} (x : A) l k : sublist (x :: l) (x :: k) <-> sublist l k.
Proof.
  split; [|by constructor]. rewrite sublist_cons_r.
  intros [H|(l' & [= <-] & H)]; [|done].
  apply sublist_cons_l in H as (k1 & k2 & -> & H).
  apply sublist_inserts_l. by constructor.
Qed.

Lemma sublist_cons_other {A} (x y : A) l k :
  x <> y -> sublist (x :: l) (y :: k) <-> sublist (x :: l) k.
Proof.
  intros Hne. split; [|by constructor]. rewrite sublist_cons_r.
  intros [H|(l' & [= -> _] & _)]; done.
Qed.

(** The loop matches greedily: it leaves with [score] and [patternIndex]
    advanced by the same amount, and has consumed the whole pattern
    exactly when what was left of it is a subsequence of the text. *)
Lemma fuzzyLoop_spec pattern text :
  forall score k,
    (k <= String.length pattern)%nat ->
    let '(score', k') := fuzzyLoop pattern text score k in
    (score' + k = k' + score)%nat /\ (k <= k' <= String.length pattern)%nat
    /\ (k' = String.length pattern <-> sublist (drop k (chars pattern)) (chars text)).
Proof.
  induction text as [|c text IH]; intros score k Hk; simpl.
  - split; [lia|]. split; [lia|]. rewrite sublist_nil_r. split.
    + intros ->. apply drop_ge. by rewrite length_chars.
    + intros H. apply (f_equal length) in H. rewrite length_drop in H.
      rewrite length_chars in *. simpl in H. lia.
  - destruct (k <? String.length pattern)%nat eqn:Hlt.
    + apply Nat.ltb_lt in Hlt.
      assert (exists p, chars pattern !! k = Some p) as [p Hp].
      { apply lookup_lt_is_Some. by rewrite <- length_chars. }
      rewrite get_chars, Hp, (drop_S _ _ _ Hp).
      destruct (bool_decide (Some c = Some p)) eqn:Hc.
      * apply bool_decide_eq_true in Hc. injection Hc as ->.
        specialize (IH (S score) (S k) ltac:(lia)).
        destruct (fuzzyLoop pattern text (S score) (S k)) as [score' k'].
        destruct IH as (H1 & H2 & H3).
        split; [lia|]. split; [lia|]. by rewrite sublist_cons_same.
      * apply bool_decide_eq_false in Hc.
        specialize (IH score k Hk).
        destruct (fuzzyLoop pattern text score k) as [score' k'].
        destruct IH as (H1 & H2 & H3).
        split; [lia|]. split; [lia|].
        rewrite sublist_cons_other by congruence.
        by rewrite <- (drop_S _ _ _ Hp).
    + apply Nat.ltb_ge in Hlt. split; [lia|]. split; [lia|].
      rewrite drop_ge by (rewrite <- length_chars; lia).
      split; [intros _; apply sublist_nil_l|lia].
Qed.

Lemma fuzzyMatch_cases text pattern :
  pattern <> EmptyString ->
  (subsequence pattern text /\ (fuzzyMatch text pattern == 1)%Q)
  \/ (~ subsequence pattern text /\ fuzzyMatch text pattern = 0%Q).
Proof.
  intros Hp. unfold fuzzyMatch, subsequence.
  destruct pattern as [|p pattern]; [done|].
  destruct text as [|c text].
  - right. split; [|done]. simpl. by intros H%sublist_nil_r.
  - change (String.eqb (String c text) "" || String.eqb (String p pattern) "")
      with false. cbv iota.
    pose proof (fuzzyLoop_spec (String p pattern) (String c text) O O
                  ltac:(lia)) as H.
    destruct (fuzzyLoop (String p pattern) (String c text) 0 0) as [score k].
    destruct H as (H1 & H2 & H3). rewrite drop_0 in H3.
    destruct (k =? String.length (String p pattern))%nat eqn:Hk.
    + apply Nat.eqb_eq in Hk. left. split; [by apply H3|].
      assert (score = String.length (String p pattern)) as -> by lia.
      apply Qmult_inv_r. simpl. by unfold Qeq.
    + apply Nat.eqb_neq in Hk. right. split; [|done]. intros H. by apply H3 in H.
Qed.

Lemma normalize_nonempty cs query :
  query <> EmptyString -> normalize cs query <> EmptyString.
Proof.
  intros H. unfold normalize. destruct cs; [done|]. by rewrite toLowerCase_empty.
Qed.

(** C9. For a non-empty query the fuzzy score is 0 when the characters
    of the query do not appear in order in the target, and lies in (0,1]
    when they do; so with the default [minScore] of 0.3 the [fuzzy]
    strategy keeps, in their order, exactly the records with a key whose
    normalized value has the normalized query as an in-order
    subsequence. *)
Theorem fuzzy_score_subsequence
    (regexTest : string -> string -> string -> option bool)
    (h : heap) (data : list value) (query target : string) (options : SearchOptions) :
  query <> EmptyString ->
  strategy options = Fuzzy ->
  minScore options = 0.3%Q ->
  (~ subsequence query target -> fuzzyMatch target query = 0%Q)
  /\ (subsequence query target ->
      (0 < fuzzyMatch target query)%Q /\ (fuzzyMatch target query <= 1)%Q)
  /\ exists keep : value -> bool,
      advancedSearch regexTest h data query options = List.filter keep data
      /\ forall it, keep it = true
                    <-> exists searchKey dataPath,
                         In (searchKey, dataPath) (keys options)
                         /\ fuzzyKeyMatches h options query it dataPath.
Proof.
  intros Hq Hs Hm. split; [|split].
  - intros Hn. by destruct (fuzzyMatch_cases target query Hq) as [[H _]|[_ H]].
  - intros Hsub. destruct (fuzzyMatch_cases target query Hq) as [[_ H]|[H _]]; [|done].
    rewrite H. split; [reflexivity|apply Qle_refl].
  - unfold advancedSearch. apply eqb_empty in Hq as Hq'. rewrite Hq'.
    eexists. split; [reflexivity|]. intros it. rewrite existsb_exists. split.
    + intros ([searchKey dataPath] & Hin & Hk). exists searchKey, dataPath.
      split; [done|]. unfold fuzzyKeyMatches. cbv zeta.
      destruct (nullish (getNestedValue h it dataPath)); [done|].
      split; [done|]. rewrite Hs, Hm in Hk.
      destruct (fuzzyMatch_cases (normalize (caseSensitive options)
                                    (toString (getNestedValue h it dataPath)))
                  (normalize (caseSensitive options) query)
                  (normalize_nonempty _ _ Hq)) as [[H _]|[_ H]]; [done|].
      rewrite H in Hk. discriminate.
    + intros (searchKey & dataPath & Hin & Hnull & Hsub).
      exists (searchKey, dataPath). split; [done|]. cbv zeta in Hnull.
      rewrite Hnull, Hs, Hm.
      destruct (fuzzyMatch_cases (normalize (caseSensitive options)
                                    (toString (getNestedValue h it dataPath)))
                  (normalize (caseSensitive options) query)
                  (normalize_nonempty _ _ Hq)) as [[_ H]|[H _]]; [|done].
      apply Qle_bool_iff. rewrite H. by unfold Qle.
Qed.

Lemma fuzzy_score_subsequence_witness :
  ("lpt"%string <> EmptyString
   /\ strategy Samples.fuzzyByTitle = Fuzzy
   /\ minScore Samples.fuzzyByTitle = 0.3%Q)
  /\ (0 < fuzzyMatch "laptop" "lpt")%Q
  /\ fuzzyMatch "laptop" "tpl" = 0%Q
  /\ advancedSearch Samples.noRegex Samples.catalog Samples.records "lpt"
       Samples.fuzzyByTitle = [VRef 0%nat].
Proof.
  assert ("lpt"%string <> EmptyString) as Hq by discriminate.
  pose proof (fuzzy_score_subsequence Samples.noRegex Samples.catalog
                Samples.records "lpt" "laptop" Samples.fuzzyByTitle
                Hq eq_refl eq_refl) as (_ & H2 & _).
  split; [done|]. split.
  - apply H2. unfold subsequence. simpl. repeat constructor.
  - split; reflexivity.
Defined.

End FuzzyProps.

(** ** Doubles: the order of the numbers above 0 *)

Module DoubleProps.
Import Search.Double.

(** *** Mantissas and exponents of the format *)

Lemma digits2_bounds p :
  2 ^ (Zpos (digits2_pos p) - 1) <= Zpos p < 2 ^ Zpos (digits2_pos p).
Proof.
  induction p as [p IH|p IH|]; simpl digits2_pos.
  - rewrite Pos2Z.inj_succ. replace (Z.succ (Zpos (digits2_pos p)) - 1)
      with (Z.succ (Zpos (digits2_pos p) - 1)) by lia.
    rewrite !Z.pow_succ_r by lia. lia.
  - rewrite Pos2Z.inj_succ. replace (Z.succ (Zpos (digits2_pos p)) - 1)
      with (Z.succ (Zpos (digits2_pos p) - 1)) by lia.
    rewrite !Z.pow_succ_r by lia. lia.
  - simpl. lia.
Qed.

Lemma canonical_inv m e :
  canonical_mantissa prec emax m e = true ->
  emin <= e /\ Zpos (digits2_pos m) <= prec
  /\ (emin < e -> Zpos (digits2_pos m) = prec).
Proof.
  unfold canonical_mantissa, fexp, SpecFloat.emin, prec, emax.
  intros H%Z.eqb_eq. lia.
Qed.

Lemma iter_xO m d : Zpos (Pos.iter xO m d) = Zpos m * 2 ^ Zpos d.
Proof.
  revert m. induction d as [|d IH] using Pos.peano_ind; intros m.
  - simpl. lia.
  - rewrite Pos.iter_succ, Pos2Z.inj_succ, Z.pow_succ_r by lia.
    rewrite Pos2Z.inj_xO, IH. lia.
Qed.

Lemma shl_align_value m e e' :
  e' <= e -> Zpos (fst (shl_align m e e')) = Zpos m * 2 ^ (e - e').
Proof.
  intros H. unfold shl_align. destruct (e' - e) as [|d|d] eqn:Hd; simpl fst.
  - replace (e - e') with 0 by lia. simpl. lia.
  - lia.
  - rewrite iter_xO. f_equal. f_equal. lia.
Qed.

Lemma shl_align_exponent m e e' : Z.min e e' <= snd (shl_align m e e').
Proof.
  unfold shl_align. destruct (e' - e) as [|d|d] eqn:Hd; simpl snd; lia.
Qed.

(** Canonical mantissas and exponents compare as the numbers they denote. *)
Lemma aligned_compare m1 e1 m2 e2 :
  canonical_mantissa prec emax m1 e1 = true ->
  canonical_mantissa prec emax m2 e2 = true ->
  (Zpos m1 * 2 ^ (e1 - Z.min e1 e2) ?= Zpos m2 * 2 ^ (e2 - Z.min e1 e2))
  = match e1 ?= e2 with
    | Lt => Lt
    | Gt => Gt
    | Eq => Pos.compare_cont Eq m1 m2
    end.
Proof.
  intros (He1 & Hd1 & Hn1)%canonical_inv (He2 & Hd2 & Hn2)%canonical_inv.
  pose proof (digits2_bounds m1) as [Hl1 Hu1].
  pose proof (digits2_bounds m2) as [Hl2 Hu2].
  destruct (Z.compare_spec e1 e2) as [->|Hlt|Hgt].
  - rewrite Z.min_id, Z.sub_diag. simpl. rewrite !Pos.mul_1_r. reflexivity.
  - rewrite Z.min_l, Z.sub_diag by lia. rewrite Z.mul_1_r.
    apply Z.compare_lt_iff.
    rewrite Hn2 in Hl2 by lia.
    assert (2 ^ Zpos (digits2_pos m1) <= 2 ^ prec) by (apply Z.pow_le_mono_r; lia).
    assert (2 ^ 1 <= 2 ^ (e2 - e1)) by (apply Z.pow_le_mono_r; lia).
    replace (2 ^ prec) with (2 * 2 ^ (prec - 1)) in * by reflexivity.
    change (2 ^ 1) with 2 in *. nia.
  - rewrite Z.min_r, Z.sub_diag by lia. rewrite Z.mul_1_r.
    apply Z.compare_gt_iff.
    rewrite Hn1 in Hl1 by lia.
    assert (2 ^ Zpos (digits2_pos m2) <= 2 ^ prec) by (apply Z.pow_le_mono_r; lia).
    assert (2 ^ 1 <= 2 ^ (e1 - e2)) by (apply Z.pow_le_mono_r; lia).
    replace (2 ^ prec) with (2 * 2 ^ (prec - 1)) in * by reflexivity.
    change (2 ^ 1) with 2 in *. nia.
Qed.

(** *** Rounding keeps the sign *)

Lemma shr_1_positive r p :
  shr_m r = Zpos p -> 1 < Zpos (digits2_pos p) ->
  exists p', shr_m (shr_1 r) = Zpos p'
             /\ Zpos (digits2_pos p') = Zpos (digits2_pos p) - 1.
Proof.
  destruct r as [m b s]; simpl; intros ->.
  destruct p as [p|p|]; simpl digits2_pos; intros H.
  - exists p. split; [done|]. rewrite Pos2Z.inj_succ. lia.
  - exists p. split; [done|]. rewrite Pos2Z.inj_succ. lia.
  - lia.
Qed.

Lemma iter_shr_1_positive k r p :
  shr_m r = Zpos p -> Zpos k < Zpos (digits2_pos p) ->
  exists p', shr_m (SpecFloat.iter_pos shr_1 k r) = Zpos p'
             /\ Zpos (digits2_pos p') = Zpos (digits2_pos p) - Zpos k.
Proof.
  revert r p. induction k as [k IH|k IH|]; intros r p Hr Hk; simpl SpecFloat.iter_pos.
  - destruct (shr_1_positive r p Hr) as (p1 & H1 & D1); [lia|].
    destruct (IH _ _ H1) as (p2 & H2 & D2); [lia|].
    destruct (IH _ _ H2) as (p3 & H3 & D3); [lia|].
    exists p3. split; [done|lia].
  - destruct (IH _ _ Hr) as (p2 & H2 & D2); [lia|].
    destruct (IH _ _ H2) as (p3 & H3 & D3); [lia|].
    exists p3. split; [done|lia].
  - by apply shr_1_positive.
Qed.

Lemma shr_record_of_loc_m m l : shr_m (shr_record_of_loc m l) = m.
Proof. by destruct l as [|[]]. Qed.

(** Above the smallest exponent, shifting to the format's exponent keeps
    a mantissa positive. *)
Lemma shr_fexp_positive p e l :
  emin <= e ->
  exists p', shr_m (fst (shr_fexp prec emax (Zpos p) e l)) = Zpos p'
             /\ emin <= snd (shr_fexp prec emax (Zpos p) e l).
Proof.
  intros He. unfold shr_fexp, shr.
  destruct (fexp prec emax (Zdigits2 (Zpos p) + e) - e) as [|k|k] eqn:Hn; simpl fst; simpl snd.
  - exists p. by rewrite shr_record_of_loc_m.
  - destruct (iter_shr_1_positive k (shr_record_of_loc (Zpos p) l) p) as (p' & H & _).
    + apply shr_record_of_loc_m.
    + revert Hn He. unfold fexp, SpecFloat.emin, prec, emax. simpl Zdigits2. lia.
    + exists p'. split; [done|lia].
  - exists p. by rewrite shr_record_of_loc_m.
Qed.

Lemma round_nearest_even_positive p l :
  exists p', round_nearest_even (Zpos p) l = Zpos p'.
Proof.
  destruct l as [|[]]; simpl; try (by eexists).
  destruct p; by eexists.
Qed.

Lemma binary_round_aux_signed s p e l :
  emin <= e -> signed s (binary_round_aux prec emax s (Zpos p) e l).
Proof.
  intros He. unfold binary_round_aux.
  destruct (shr_fexp_positive p e l He) as (p1 & H1 & He1).
  destruct (shr_fexp prec emax (Zpos p) e l) as [mrs' e']. simpl in H1, He1.
  rewrite H1.
  destruct (round_nearest_even_positive p1 (loc_of_shr_record mrs')) as (p2 & ->).
  destruct (shr_fexp_positive p2 e' loc_Exact He1) as (p3 & H3 & _).
  destruct (shr_fexp prec emax (Zpos p2) e' loc_Exact) as [mrs'' e'']. simpl in H3.
  rewrite H3. by destruct (e'' <=? emax - prec).
Qed.

Lemma binary_round_signed s p e :
  emin <= e -> signed s (binary_round prec emax s p e).
Proof.
  intros He. unfold binary_round.
  pose proof (shl_align_exponent p e (fexp prec emax (Zpos (digits2_pos p) + e))) as Hs.
  destruct (shl_align p e _) as [mz ez]. simpl in Hs.
  apply binary_round_aux_signed.
  revert Hs. unfold fexp, SpecFloat.emin, prec, emax in *. lia.
Qed.

Lemma zero_lt_signed s x :
  signed s x -> SFltb (S754_zero false) x = negb s.
Proof. destruct x as [| |  |s' m e]; simpl; try done; by intros ->; destruct s. Qed.

(** The sign of a difference of positive numbers of the format. *)
Lemma SFsub_sign m1 e1 m2 e2 :
  bounded prec emax m1 e1 = true -> bounded prec emax m2 e2 = true ->
  SFltb (S754_zero false)
        (SF64sub (S754_finite false m2 e2) (S754_finite false m1 e1))
  = SFltb (S754_finite false m1 e1) (S754_finite false m2 e2).
Proof.
  intros [C1 _]%andb_true_iff [C2 _]%andb_true_iff.
  pose proof (aligned_compare m1 e1 m2 e2 C1 C2) as Hc.
  destruct (canonical_inv _ _ C1) as (He1 & _), (canonical_inv _ _ C2) as (He2 & _).
  assert (SFltb (S754_finite false m1 e1) (S754_finite false m2 e2)
          = match Zpos m1 * 2 ^ (e1 - Z.min e1 e2) ?= Zpos m2 * 2 ^ (e2 - Z.min e1 e2) with
            | Lt => true
            | _ => false
            end) as ->.
  { rewrite Hc. unfold SFltb, SFcompare. by destruct (e1 ?= e2). }
  clear Hc. unfold SF64sub, SFsub. cbn [cond_Zopp].
  rewrite (Z.min_comm e2 e1).
  rewrite !shl_align_value by lia.
  set (a1 := Zpos m1 * 2 ^ (e1 - Z.min e1 e2)).
  set (a2 := Zpos m2 * 2 ^ (e2 - Z.min e1 e2)).
  destruct (Z.compare_spec a1 a2) as [Heq|Hlt|Hgt].
  - rewrite Heq, Z.sub_diag. reflexivity.
  - destruct (a2 - a1) as [|d|d] eqn:Hd; try lia.
    unfold binary_normalize.
    rewrite (zero_lt_signed false); [done|]. apply binary_round_signed. lia.
  - destruct (a2 - a1) as [|d|d] eqn:Hd; try lia.
    unfold binary_normalize.
    rewrite (zero_lt_signed true); [done|]. apply binary_round_signed. lia.
Qed.

(** *** Comparisons of doubles above 0 *)

Lemma positive_spec x : (0 <? x)%float = true -> positiveSpec (Prim2SF x).
Proof.
  rewrite ltb_spec. pose proof (Prim2SF_valid x) as Hv.
  change (Prim2SF 0) with (S754_zero false).
  destruct (Prim2SF x) as [s|[]| |[] m e]; try done; by constructor.
Qed.

(** On doubles above 0, [b - a > 0] is [a < b]. *)
Lemma sub_positive x y :
  (0 <? x)%float = true -> (0 <? y)%float = true ->
  (0 <? y - x)%float = (x <? y)%float.
Proof.
  intros Hx%positive_spec Hy%positive_spec.
  rewrite !ltb_spec, sub_spec. change (Prim2SF 0) with (S754_zero false).
  destruct Hx as [|m1 e1 H1], Hy as [|m2 e2 H2]; try reflexivity.
  by apply SFsub_sign.
Qed.

Lemma compare_positive a b :
  positiveSpec a -> positiveSpec b ->
  exists c, SFcompare a b = Some c /\ SFcompare b a = Some (CompOpp c).
Proof.
  intros [|m1 e1 _] [|m2 e2 _]; simpl; try (by eexists).
  eexists. split; [reflexivity|]. f_equal.
  rewrite (Z.compare_antisym e1 e2).
  destruct (e1 ?= e2); simpl; try done.
  by rewrite Pos.compare_cont_antisym.
Qed.

Lemma ltb_leb x y : (x <? y)%float = true -> (x <=? y)%float = true.
Proof.
  rewrite ltb_spec, leb_spec. unfold SFltb, SFleb.
  by destruct (SFcompare _ _) as [[]|].
Qed.

Lemma not_ltb_leb x y :
  (0 <? x)%float = true -> (0 <? y)%float = true ->
  (x <? y)%float = false -> (y <=? x)%float = true.
Proof.
  intros Hx%positive_spec Hy%positive_spec.
  rewrite ltb_spec, leb_spec. unfold SFltb, SFleb.
  destruct (compare_positive _ _ Hx Hy) as (c & -> & ->). by destruct c.
Qed.

Lemma SFcompare_finite m1 e1 m2 e2 :
  SFcompare (S754_finite false m1 e1) (S754_finite false m2 e2)
  = Some (match e1 ?= e2 with
          | Lt => Lt
          | Gt => Gt
          | Eq => (m1 ?= m2)%positive
          end).
Proof. reflexivity. Qed.

Lemma SFleb_trans a b c :
  positiveSpec a -> positiveSpec b -> positiveSpec c ->
  SFleb a b = true -> SFleb b c = true -> SFleb a c = true.
Proof.
  intros [|m1 e1 _] [|m2 e2 _] [|m3 e3 _]; try done.
  unfold SFleb. rewrite !SFcompare_finite.
  destruct (Z.compare_spec e1 e2), (Z.compare_spec e2 e3), (Z.compare_spec e1 e3);
    try done; try lia;
    destruct (Pos.compare_spec m1 m2), (Pos.compare_spec m2 m3),
      (Pos.compare_spec m1 m3); try done; lia.
Qed.

Lemma leb_trans x y z :
  (0 <? x)%float = true -> (0 <? y)%float = true -> (0 <? z)%float = true ->
  (x <=? y)%float = true -> (y <=? z)%float = true -> (x <=? z)%float = true.
Proof.
  intros Hx%positive_spec Hy%positive_spec Hz%positive_spec.
  rewrite !leb_spec. by apply SFleb_trans.
Qed.

(** Two doubles above 0 that equal a third are not below one another. *)
Lemma eqb_not_ltb x y q :
  (0 <? x)%float = true -> (0 <? y)%float = true ->
  (x =? q)%float = true -> (y =? q)%float = true -> (x <? y)%float = false.
Proof.
  intros Hx%positive_spec Hy%positive_spec.
  rewrite !FloatAxioms.eqb_spec, ltb_spec. unfold SFeqb, SFltb.
  destruct Hx as [|m1 e1 _], Hy as [|m2 e2 _], (Prim2SF q) as [s|[]| |[] m e];
    try (simpl; done).
  rewrite !SFcompare_finite.
  destruct (Z.compare_spec e1 e), (Z.compare_spec e2 e), (Z.compare_spec e1 e2);
    try done; try lia;
    destruct (Pos.compare_spec m1 m), (Pos.compare_spec m2 m),
      (Pos.compare_spec m1 m2); try done; lia.
Qed.

End DoubleProps.

(** ** Search engine: sorting by score *)

Module SortProps.
Import Search DoubleProps.

Section Sorting.

Context {A : Type}.
Variable key : A -> float.

Local Abbreviation descending := (descending key).
Local Abbreviation nonIncreasing := (nonIncreasing key).
Local Abbreviation scored := (scored key).
Local Abbreviation positive := (fun a => (0 <? key a)%float = true).

Lemma insertSorted_In x l z :
  In z (insertSorted descending x l) <-> z = x \/ In z l.
Proof.
  induction l as [|y l IH]; simpl.
  - split; [intros [<-|[]]; by left|intros [->|[]]; by left].
  - destruct (0 <? descending x y)%float; simpl.
    + rewrite IH. split; [intros [?|[?|?]]|intros [?|[?|?]]]; auto.
    + split; [intros [<-|?]|intros [->|?]]; auto.
Qed.

Lemma insertSorted_Permutation x l :
  Permutation (insertSorted descending x l) (x :: l).
Proof.
  induction l as [|y l IH]; simpl; [done|].
  destruct (0 <? descending x y)%float; [|done].
  rewrite IH. apply perm_swap.
Qed.

Lemma sort_Permutation l : Permutation (sort descending l) l.
Proof.
  induction l as [|x l IH]; simpl; [done|].
  rewrite insertSorted_Permutation. by constructor.
Qed.

Lemma sort_positive l :
  List.Forall positive l -> List.Forall positive (sort descending l).
Proof.
  intros H. eapply Permutation_Forall; [|exact H].
  symmetry. apply sort_Permutation.
Qed.

(** Between scores above 0 the comparator is above 0 exactly when the
    first score is below the second. *)
Lemma moves_behind x y :
  positive x -> positive y ->
  (0 <? descending x y)%float = (key x <? key y)%float.
Proof. apply sub_positive. Qed.

Lemma insertSorted_sorted x l :
  positive x -> List.Forall positive l ->
  StronglySorted nonIncreasing l ->
  StronglySorted nonIncreasing (insertSorted descending x l).
Proof.
  intros Hx. induction l as [|y l IH]; simpl; intros Hp Hs.
  - constructor; [constructor|constructor].
  - apply List.Forall_cons_iff in Hp as [Hy Hp].
    apply StronglySorted_inv in Hs as [Hs Hall].
    rewrite moves_behind by done.
    destruct (key x <? key y)%float eqn:Hc.
    + constructor; [by apply IH|].
      apply List.Forall_forall. intros z Hz. apply insertSorted_In in Hz as [->|Hz].
      * by apply ltb_leb.
      * rewrite List.Forall_forall in Hall. by apply Hall.
    + apply not_ltb_leb in Hc; [|done..].
      constructor; [by constructor|].
      constructor; [done|]. rewrite List.Forall_forall in *. intros z Hz.
      apply (leb_trans _ (key y)); [exact (Hp z Hz)|done|done| |done].
      exact (Hall z Hz).
Qed.

Lemma sort_sorted l :
  List.Forall positive l -> StronglySorted nonIncreasing (sort descending l).
Proof.
  induction l as [|x l IH]; simpl; [constructor|].
  intros [Hx Hl]%List.Forall_cons_iff.
  apply insertSorted_sorted; [done|by apply sort_positive|by apply IH].
Qed.

(** Records of one score keep their relative order. *)

Lemma insertSorted_stable q x l :
  positive x -> List.Forall positive l ->
  List.filter (scored q) (insertSorted descending x l)
  = List.filter (scored q) (x :: l).
Proof.
  intros Hx. induction l as [|y l IH]; [done|].
  intros [Hy Hl]%List.Forall_cons_iff. simpl insertSorted.
  rewrite moves_behind by done.
  destruct (key x <? key y)%float eqn:Hc; [|done].
  change (List.filter (scored q) (y :: insertSorted descending x l))
    with (if scored q y then y :: List.filter (scored q) (insertSorted descending x l)
          else List.filter (scored q) (insertSorted descending x l)).
  rewrite IH by done. simpl.
  destruct (scored q x) eqn:Ex, (scored q y) eqn:Ey; try done.
  unfold Search.scored in Ex, Ey.
  by rewrite (eqb_not_ltb _ _ q Hx Hy Ex Ey) in Hc.
Qed.

Lemma sort_stable q l :
  List.Forall positive l ->
  List.filter (scored q) (sort descending l) = List.filter (scored q) l.
Proof.
  induction l as [|x l IH]; [done|].
  intros [Hx Hl]%List.Forall_cons_iff.
  change (sort descending (x :: l)) with (insertSorted descending x (sort descending l)).
  rewrite insertSorted_stable; [|done|by apply sort_positive].
  simpl. by rewrite IH.
Qed.

End Sorting.

Lemma insertSorted_map {A B} (f : A -> B) (key : B -> float) x l :
  insertSorted (descending key) (f x) (map f l)
  = map f (insertSorted (descending (fun a => key (f a))) x l).
Proof.
  induction l as [|y l IH]; simpl; [done|].
  unfold descending at 1 3.
  destruct (0 <? _)%float; simpl; [|done]. by rewrite IH.
Qed.

Lemma sort_map {A B} (f : A -> B) (key : B -> float) l :
  sort (descending key) (map f l) = map f (sort (descending (fun a => key (f a))) l).
Proof.
  induction l as [|x l IH]; [done|].
  change (sort (descending key) (map f (x :: l)))
    with (insertSorted (descending key) (f x) (sort (descending key) (map f l))).
  rewrite IH. apply insertSorted_map.
Qed.

End SortProps.

(** ** Search engine: ranked search *)

Module RankedProps.
Import Search StrProps SortProps.

Lemma startsWith_length s q :
  Str.startsWith s q = true -> (String.length q <= String.length s)%nat.
Proof.
  revert s. induction q as [|a q IH]; intros [|b s]; simpl; intros H;
    try done; try lia.
  apply andb_true_iff in H as [_ H]. apply IH in H. lia.
Qed.

Lemma indexOf_unfold s q :
  Str.indexOf s q
  = if Str.startsWith s q then Some O
    else match s with
         | EmptyString => None
         | String _ s' => option_map S (Str.indexOf s' q)
         end.
Proof. by destruct s. Qed.

Lemma indexOf_bound s q i :
  Str.indexOf s q = Some i -> (i + String.length q <= String.length s)%nat.
Proof.
  revert i. induction s as [|c s IH]; intros i; rewrite indexOf_unfold.
  - destruct (Str.startsWith "" q) eqn:Hs; [|done]. intros [= <-].
    by apply startsWith_length in Hs.
  - destruct (Str.startsWith (String c s) q) eqn:Hs.
    + intros [= <-]. by apply startsWith_length in Hs.
    + destruct (Str.indexOf s q) as [j|]; simpl; [|done].
      intros [= <-]. specialize (IH j eq_refl). lia.
Qed.

Lemma inject_nat_pos n : (0 < n)%nat -> (0 < inject_Z (Z.of_nat n))%Q.
Proof. intros H. unfold Qlt; simpl. lia. Qed.

Lemma inject_nat_le n m : (n <= m)%nat -> (inject_Z (Z.of_nat n) <= inject_Z (Z.of_nat m))%Q.
Proof. intros H. rewrite <- Zle_Qle. lia. Qed.

(** A match of a non-empty query scores above 0. *)
Lemma specMatchScore_pos i len ql :
  (0 < ql)%nat -> (i + ql <= len)%nat -> (0 < specMatchScore i len ql)%Q.
Proof.
  intros Hq Hle. unfold specMatchScore.
  assert (0 < inject_Z (Z.of_nat len))%Q as Hlen by (apply inject_nat_pos; lia).
  assert (inject_Z (Z.of_nat i) / inject_Z (Z.of_nat len) <= 1)%Q as Hi.
  { apply Qle_shift_div_r; [done|]. rewrite Qmult_1_l. apply inject_nat_le. lia. }
  assert (0 < inject_Z (Z.of_nat ql) / inject_Z (Z.of_nat len))%Q as Hl.
  { apply Qlt_shift_div_l; [done|]. rewrite Qmult_0_l. apply inject_nat_pos. lia. }
  apply Qlt_shift_div_l; [reflexivity|]. lra.
Qed.

Lemma filter_map_comm {A B} (p : B -> bool) (f : A -> B) l :
  List.filter p (map f l) = map f (List.filter (fun x => p (f x)) l).
Proof.
  induction l as [|x l IH]; simpl; [done|]. rewrite IH. by destruct (p (f x)).
Qed.

Section Ranking.

Variable h : heap.
Variable options : SearchOptions.
Variable query : string.

Local Abbreviation nq := (normalize (caseSensitive options) query).

(** One step of the loop over the keys. *)
Lemma scoreKey_step it t c entry :
  scoreKey h options nq it (t, c) entry
  = if keyMatches h options query it entry
    then ((t + roundedKeyScore h options query it entry)%float, S c)
    else (t, c).
Proof.
  destruct entry as [searchKey dataPath].
  unfold scoreKey, keyMatches, roundedKeyScore, normalizedValue; simpl.
  destruct (nullish (getNestedValue h it dataPath)); simpl; [done|].
  unfold Str.includes, Double.calculateMatchScore, roundedMatchScore.
  by destruct (Str.indexOf _ nq) as [i|].
Qed.

Lemma accumulate_fold it ks t c :
  fold_left (scoreKey h options nq it) ks (t, c)
  = (fold_left PrimFloat.add
       (map (roundedKeyScore h options query it)
            (List.filter (keyMatches h options query it) ks)) t,
     (c + length (List.filter (keyMatches h options query it) ks))%nat).
Proof.
  revert t c. induction ks as [|entry ks IH]; intros t c.
  - simpl. by rewrite Nat.add_0_r.
  - cbn [fold_left List.filter]. rewrite scoreKey_step.
    destruct (keyMatches h options query it entry).
    + rewrite IH. cbn [map fold_left length]. f_equal. lia.
    + apply IH.
Qed.

Lemma matching_nonempty it :
  hasMatch h options query it = true
  <-> List.filter (keyMatches h options query it) (keys options) <> [].
Proof.
  unfold hasMatch. induction (keys options) as [|e ks IH]; simpl; [done|].
  destruct (keyMatches h options query it e); simpl; [done|apply IH].
Qed.

(** The score computed for a record is the rounded average of its
    matching keys, and 0 when no key matches. *)
Lemma overallScore_rounded it :
  overallScore h options query it
  = if hasMatch h options query it then roundedScore h options query it
    else 0%float.
Proof.
  unfold overallScore, rank, accumulate, roundedScore.
  rewrite accumulate_fold. cbn [score]. rewrite Nat.add_0_l.
  pose proof (matching_nonempty it) as Hm.
  destruct (List.filter _ (keys options)) as [|e m] eqn:Hf.
  - destruct (hasMatch h options query it); [|done].
    by destruct (proj1 Hm eq_refl).
  - rewrite (proj2 Hm); [done|discriminate].
Qed.

Lemma positive_score_match it :
  (0 <? overallScore h options query it)%float = true ->
  hasMatch h options query it = true.
Proof.
  rewrite overallScore_rounded. by destruct (hasMatch h options query it).
Qed.

Lemma rank_item it : item (rank h options nq it) = it.
Proof. unfold rank. by destruct (accumulate _ _ _ _). Qed.

(** [rankedSearch] is the sort, by the comparator of the scores, of the
    records whose score is above 0. *)
Lemma rankedSearch_sort data :
  query <> EmptyString ->
  rankedSearch h data query options
  = sort (descending (overallScore h options query))
         (List.filter (fun it => (0 <? overallScore h options query it)%float) data).
Proof.
  intros Hq. unfold rankedSearch. rewrite (proj2 (eqb_empty query) Hq).
  rewrite filter_map_comm.
  rewrite sort_map, map_map.
  rewrite (map_ext _ (fun x => x) rank_item), map_id. reflexivity.
Qed.

End Ranking.




(** A record with a matching key is not always returned, even when the
    weights are above 0: the title [xxab] matches the query [ab] with the
    match score one half, its product with the weight [2^-1074] rounds
    to 0, and the record is left out. *)
Lemma matching_record_left_out :
  hasMatch Samples.halved Samples.tinyWeight "ab" (VRef 0%nat) = true
  /\ (0 <? weightOf (weights Samples.tinyWeight) "title")%float = true
  /\ overallScore Samples.halved Samples.tinyWeight "ab" (VRef 0%nat) = 0%float
  /\ rankedSearch Samples.halved [VRef 0%nat] "ab" Samples.tinyWeight = [].
Proof. repeat split; reflexivity. Qed.

End RankedProps.

(** ** Search engine: highlighting and the records it is given *)

Module HighlightProps.
Import Search.

(** C2 fails on the code. [searchWithHighlight] copies each matching
    record one level deep, so for a dotted key path the highlighted value
    is written into the nested object the original record still refers
    to: after highlighting the query [elec] under the key path
    [category.name], the category name read through the original laptop
    record is the marked-up string, and the category object of the input
    store has changed. *)
Theorem searchWithHighlight_mutates_nested :
  let h := Samples.catalog in
  let '(h', out) := searchWithHighlight h [VRef 0%nat] "elec" Samples.byCategory in
  getNestedValue h (VRef 0%nat) "category.name" = VStr "Electronics"
  /\ getNestedValue h' (VRef 0%nat) "category.name"
     = VStr (wrap "search-highlight" "Elec" ++ "tronics")
  /\ h' !! 3%nat <> h !! 3%nat
  /\ out = [VRef 5%nat].
Proof.
  vm_compute. split; [reflexivity|]. split; [reflexivity|].
  split; [discriminate|reflexivity].
Qed.

Lemma splitDots_flat path : Str.noDot path = true -> Str.splitDots path = [path].
Proof.
  induction path as [|c path IH]; simpl; [done|].
  destruct (Ascii.eqb c "."); simpl; [done|]. intros H. by rewrite IH.
Qed.

Lemma setNestedValue_flat (h : heap) l path v :
  Str.noDot path = true -> setNestedValue h l path v = setProp h l path v.
Proof. intros H. unfold setNestedValue. by rewrite splitDots_flat. Qed.

Lemma setProp_last (h : heap) o key v :
  setProp (h ++ [o]) (length h) key v = h ++ [<[key := v]> o].
Proof.
  unfold setProp. replace (length h) with (length h + 0)%nat by lia.
  by rewrite alter_app_r.
Qed.

(** With key paths of one segment the highlighted values go into the
    copies only: the store after the call is the store before it,
    followed by the new objects. *)
Lemma highlightItem_flat options query (h : heap) it :
  Forall (fun entry => Str.noDot (snd entry) = true) (keys options) ->
  exists o, fst (highlightItem options query h it) = h ++ [o].
Proof.
  intros Hflat. unfold highlightItem, alloc.
  generalize (spread h it). induction Hflat as [|[searchKey dataPath] ks Hp _ IH];
    intros o; simpl.
  - by exists o.
  - simpl in Hp.
    destruct (nullish (getNestedValue (h ++ [o]) it dataPath)); simpl; [apply IH|].
    destruct (Str.includes _ _); [|apply IH].
    rewrite setNestedValue_flat by done. rewrite setProp_last. apply IH.
Qed.

Lemma searchWithHighlight_flat (h : heap) data query options :
  Forall (fun entry => Str.noDot (snd entry) = true) (keys options) ->
  exists objs, fst (searchWithHighlight h data query options) = h ++ objs.
Proof.
  intros Hflat. unfold searchWithHighlight.
  generalize (searchData h data query
                {| keys := keys options; caseSensitive := caseSensitive options;
                   exactMatch := false; customMatcher := None; strategy := Contains;
                   minScore := 0.3%Q; regexFlags := "gi"; weights := ∅;
                   highlightClass := "search-highlight" |}).
  intros results.
  assert (forall (objs : heap) out,
            exists objs', fst (fold_left
                                 (fun '(h, out) it =>
                                    let '(h, highlightedItem) :=
                                      highlightItem options query h it in
                                    (h, out ++ [highlightedItem]))
                                 results (h ++ objs, out)) = h ++ objs') as H.
  { induction results as [|it results IH]; intros objs out; cbn [fold_left].
    - by exists objs.
    - destruct (highlightItem_flat options query (h ++ objs) it Hflat) as [o Ho].
      destruct (highlightItem options query (h ++ objs) it) as [h1 hi].
      simpl in Ho. subst h1. rewrite <- app_assoc. apply IH. }
  destruct (H [] []) as [objs Hobjs]. rewrite app_nil_r in Hobjs. by exists objs.
Qed.

End HighlightProps.

(** * Further properties of the code *)

(** ** Cart store: operations and queries *)

Module CartMoreProps.
Import Cart CartQueries CartProps.

(** X1. In every state the cart store reaches there is at most one line
    per id: the ids of the lines are pairwise different, so two lines
    with the same id are the same line. *)
Theorem cart_lines_unique (d : DefaultItem) (s : CartState) :
  reachable d s ->
  NoDup (map id (items s))
  /\ (forall a b, In a (items s) -> In b (items s) -> id a = id b -> a = b).
Proof.
  intros Hs. pose proof (reachable_ids_NoDup d s Hs) as Hnd.
  split; [exact Hnd|]. intros a b Ha Hb Hab.
  by apply (NoDup_map_inj id (items s)).
Qed.

Lemma cart_lines_unique_witness :
  reachable Samples.cartDefaults Samples.cartLaptopsMouse
  /\ NoDup (map id (items Samples.cartLaptopsMouse)).
Proof.
  assert (reachable Samples.cartDefaults Samples.cartLaptopsMouse) as Hr.
  { unfold Samples.cartLaptopsMouse. do 2 apply reachable_step. apply reachable_init. }
  split; [exact Hr|].
  exact (proj1 (cart_lines_unique Samples.cartDefaults _ Hr)).
Defined.

Lemma find_addTo d its item q :
  let p := fun c : CartItem => strictEq (id c) (in_id item) in
  exists line,
    List.find p (addTo d its item q) = Some line
    /\ quantity line
       = match List.find p its with Some old => quantity old | None => 0 end + q.
Proof.
  intros p. unfold addTo. fold p.
  induction its as [|x its IH]; simpl.
  - exists (newLine d item q). unfold p at 1. simpl. rewrite strictEq_refl.
    split; [done|]. simpl. lia.
  - destruct (p x) eqn:Hx; simpl.
    + exists (setQuantity (quantity x + q) x). split; [|done].
      unfold p in *. simpl. by rewrite Hx.
    + destruct IH as (line & Hf & Hq).
      destruct (findIndex p its) as [i|]; simpl; rewrite Hx; by exists line.
Qed.

(** X2. Whatever the cart holds, after [addItem(item, q)] the item is in
    the cart and [getItemQuantity] of its id is what it was before (0
    when the id was not in the cart) plus [q]. *)
Theorem addItem_adds_quantity (d : DefaultItem) (item : ItemInput) (q : Z)
    (s : CartState) :
  isItemInCart (in_id item) (addItem d item q s) = true
  /\ getItemQuantity (in_id item) (addItem d item q s)
     = getItemQuantity (in_id item) s + q.
Proof.
  destruct (find_addTo d (items s) item q) as (line & Hf & Hq).
  unfold isItemInCart, getItemQuantity, getCartItem, addItem.
  rewrite withItems_items. split.
  - apply existsb_exists. apply find_some in Hf as [Hin Hp]. by exists line.
  - by rewrite Hf.
Qed.

(** X3. [addItem] for an id that is already in the cart replaces the
    first line with that id by the same line with its quantity raised by
    [q]: no line is added, and the title, price and image of the item
    passed in are not used. *)
Theorem addItem_existing_bumps_line (d : DefaultItem) (item : ItemInput) (q : Z)
    (s : CartState) :
  isItemInCart (in_id item) s = true ->
  exists i line,
    items s !! i = Some line
    /\ id line = in_id item
    /\ items (addItem d item q s)
       = <[i := setQuantity (quantity line + q) line]> (items s).
Proof.
  intros Hin. unfold addItem, addTo. rewrite withItems_items.
  destruct (findIndex _ (items s)) as [i|] eqn:Hf.
  - destruct (findIndex_Some _ _ _ Hf) as (line & Hl & Hp).
    apply strictEq_true in Hp. exists i, line. split; [done|]. split; [done|].
    clear Hf Hin. revert i Hl. induction (items s) as [|x its IH]; intros [|i] Hl;
      simpl in *; try done.
    + by injection Hl as ->.
    + f_equal. by apply IH.
  - exfalso. unfold isItemInCart in Hin. apply existsb_exists in Hin as (c & Hc & Hp).
    apply findIndex_None with (x := c) in Hf; [congruence|done].
Qed.

Lemma addItem_existing_bumps_line_witness :
  isItemInCart (in_id Samples.laptop) Samples.cartLaptopsMouse = true
  /\ map quantity (items (addItem Samples.cartDefaults Samples.laptop 5
                            Samples.cartLaptopsMouse)) = [7; 3]
  /\ exists i line,
       items Samples.cartLaptopsMouse !! i = Some line
       /\ id line = in_id Samples.laptop
       /\ items (addItem Samples.cartDefaults Samples.laptop 5 Samples.cartLaptopsMouse)
          = <[i := setQuantity (quantity line + 5) line]> (items Samples.cartLaptopsMouse).
Proof.
  split; [reflexivity|]. split; [reflexivity|].
  apply (addItem_existing_bumps_line Samples.cartDefaults Samples.laptop 5
           Samples.cartLaptopsMouse).
  reflexivity.
Defined.

(** A state whose totals were just computed from its items. *)
Lemma fold_addItem_withItems d (its : list ItemInput) s :
  s = withItems (items s) ->
  let s' := fold_left (fun st item => addItem d item (quantityOr1 item) st) its s in
  s' = withItems (items s').
Proof.
  revert s. induction its as [|x its IH]; intros s Hs; simpl; [done|].
  apply IH. unfold addItem. by rewrite withItems_items.
Qed.

Lemma fold_addTo_items d (its : list ItemInput) l s :
  items s = l ->
  fold_left (fun updatedItems item => addTo d updatedItems item (quantityOr1 item)) its l
  = items (fold_left (fun st item => addItem d item (quantityOr1 item) st) its s).
Proof.
  revert l s. induction its as [|x its IH]; intros l s Hl; simpl; [done|].
  apply IH. unfold addItem. rewrite withItems_items. by rewrite Hl.
Qed.

(** X4. [addMultipleItems(items)] leaves the lines that calling
    [addItem(item, item.quantity || 1)] for each item in turn leaves; when
    at least one item is given the two resulting states are equal, totals
    included. *)
Theorem addMultipleItems_is_repeated_addItem (d : DefaultItem) (its : list ItemInput)
    (s : CartState) :
  let oneByOne :=
    fold_left (fun st item => addItem d item (quantityOr1 item) st) its s in
  items (addMultipleItems d its s) = items oneByOne
  /\ (its <> [] -> addMultipleItems d its s = oneByOne).
Proof.
  intros oneByOne.
  assert (items (addMultipleItems d its s) = items oneByOne) as Hitems.
  { unfold oneByOne, addMultipleItems. rewrite withItems_items.
    by apply fold_addTo_items. }
  split; [exact Hitems|]. intros Hne.
  assert (oneByOne = withItems (items oneByOne)) as ->.
  { unfold oneByOne. destruct its as [|x its]; [done|]. simpl.
    apply fold_addItem_withItems. unfold addItem. by rewrite withItems_items. }
  rewrite <- Hitems. unfold addMultipleItems. by rewrite withItems_items.
Qed.

Lemma addMultipleItems_is_repeated_addItem_witness :
  [Samples.laptop; Samples.mouse; Samples.laptop] <> []
  /\ addMultipleItems Samples.cartDefaults
       [Samples.laptop; Samples.mouse; Samples.laptop] Samples.cartOneLaptop
     = addItem Samples.cartDefaults Samples.laptop 1
         (addItem Samples.cartDefaults Samples.mouse 2
            (addItem Samples.cartDefaults Samples.laptop 1 Samples.cartOneLaptop)).
Proof.
  assert ([Samples.laptop; Samples.mouse; Samples.laptop] <> []) as Hne by discriminate.
  split; [exact Hne|].
  exact (proj2 (addMultipleItems_is_repeated_addItem Samples.cartDefaults
                  [Samples.laptop; Samples.mouse; Samples.laptop]
                  Samples.cartOneLaptop) Hne).
Defined.

Lemma filter_filter_andb {A} (p r : A -> bool) l :
  List.filter p (List.filter r l) = List.filter (fun x => r x && p x) l.
Proof.
  induction l as [|x l IH]; simpl; [done|].
  destruct (r x); simpl; [|done]. rewrite IH. by destruct (p x).
Qed.

(** X5. [removeMultipleItems(itemIds)] leaves the lines that calling
    [removeItem] for each id in turn leaves; when at least one id is given
    the two resulting states are equal. *)
Theorem removeMultipleItems_is_repeated_removeItem (itemIds : list ItemId)
    (s : CartState) :
  let oneByOne := fold_left (fun st itemId => removeItem itemId st) itemIds s in
  items (removeMultipleItems itemIds s) = items oneByOne
  /\ (itemIds <> [] -> removeMultipleItems itemIds s = oneByOne).
Proof.
  intros oneByOne.
  assert (forall ids st,
            items (fold_left (fun st itemId => removeItem itemId st) ids st)
            = List.filter (fun item => negb (existsb (strictEq (id item)) ids))
                          (items st)) as Hfold.
  { induction ids as [|a ids IH]; intros st; cbn [fold_left].
    - simpl. induction (items st) as [|x l IHl]; simpl; [done|]. by rewrite <- IHl.
    - rewrite IH. unfold removeItem. rewrite withItems_items, filter_filter_andb.
      apply filter_ext. intros x. simpl. by rewrite negb_orb. }
  assert (items (removeMultipleItems itemIds s) = items oneByOne) as Hitems.
  { unfold oneByOne. rewrite Hfold. unfold removeMultipleItems.
    by rewrite withItems_items. }
  split; [exact Hitems|]. intros Hne.
  assert (oneByOne = withItems (items oneByOne)) as ->.
  { unfold oneByOne. clear Hitems Hfold oneByOne.
    revert s. induction itemIds as [|a ids IH]; intros s; [done|]. simpl.
    destruct ids as [|b ids].
    - reflexivity.
    - apply IH. discriminate. }
  rewrite <- Hitems. unfold removeMultipleItems. by rewrite withItems_items.
Qed.

Lemma removeMultipleItems_is_repeated_removeItem_witness :
  [IdStr "product-2"; IdStr "product-7"] <> []
  /\ removeMultipleItems [IdStr "product-2"; IdStr "product-7"] Samples.cartLaptopsMouse
     = removeItem (IdStr "product-7")
         (removeItem (IdStr "product-2") Samples.cartLaptopsMouse).
Proof.
  assert ([IdStr "product-2"; IdStr "product-7"] <> []) as Hne by discriminate.
  split; [exact Hne|].
  exact (proj2 (removeMultipleItems_is_repeated_removeItem
                  [IdStr "product-2"; IdStr "product-7"] Samples.cartLaptopsMouse) Hne).
Defined.

Lemma find_map_setQuantity x (f : CartItem -> CartItem) its :
  (forall item, id (f item) = id item) ->
  List.find (fun item => strictEq (id item) x)
            (map (fun item => if strictEq (id item) x then f item else item) its)
  = option_map f (List.find (fun item => strictEq (id item) x) its).
Proof.
  intros Hf. induction its as [|i its IH]; simpl; [done|].
  destruct (strictEq (id i) x) eqn:Hi; simpl.
  - by rewrite Hf, Hi.
  - by rewrite Hi.
Qed.

Lemma map_absent x (f : CartItem -> CartItem) its :
  existsb (fun c => strictEq (id c) x) its = false ->
  map (fun item => if strictEq (id item) x then f item else item) its = its.
Proof.
  induction its as [|i its IH]; simpl; [done|].
  destruct (strictEq (id i) x); simpl; [done|]. intros H. by rewrite IH.
Qed.

(** X6. [updateQuantity(x, n)] with [n > 0] sets the quantity, it does
    not add to it: when [x] is in the cart, [getItemQuantity(x)] is [n]
    afterwards; when it is not, the lines stay as they are; in both cases
    the ids of the lines and their order are kept. *)
Theorem updateQuantity_sets_quantity (x : ItemId) (n : Z) (s : CartState) :
  0 < n ->
  (isItemInCart x s = true -> getItemQuantity x (updateQuantity x n s) = n)
  /\ (isItemInCart x s = false -> items (updateQuantity x n s) = items s)
  /\ map id (items (updateQuantity x n s)) = map id (items s).
Proof.
  intros Hn. unfold updateQuantity.
  destruct (n <=? 0) eqn:Hle; [apply Z.leb_le in Hle; lia|].
  rewrite withItems_items. split; [|split].
  - intros Hin. unfold getItemQuantity, getCartItem. rewrite withItems_items.
    rewrite (find_map_setQuantity x (setQuantity n)) by done.
    unfold isItemInCart in Hin. apply existsb_exists in Hin as (c & Hc & Hp).
    destruct (List.find _ (items s)) as [old|] eqn:Hf; [done|].
    by rewrite (find_none _ _ Hf c Hc) in Hp.
  - intros Habs. by apply map_absent.
  - rewrite map_map. apply map_ext. intros item. by destruct (strictEq _ _).
Qed.

Lemma updateQuantity_sets_quantity_witness :
  0 < 4
  /\ getItemQuantity (IdStr "product-1")
       (updateQuantity (IdStr "product-1") 4 Samples.cartLaptopsMouse) = 4.
Proof.
  split; [lia|].
  apply (updateQuantity_sets_quantity (IdStr "product-1") 4 Samples.cartLaptopsMouse);
    [lia|reflexivity].
Defined.

Lemma setQuantity_same item : setQuantity (quantity item) item = item.
Proof. by destruct item. Qed.



Lemma reachable_totalPrice d s :
  reachable d s ->
  totalPrice s
  = fold_left (fun total item => (total + price item * inject_Z (quantity item))%Q)
              (items s) 0%Q.
Proof.
  intros [|o s' Hs']; [done|].
  destruct o; try done. simpl. unfold updateQuantity. by destruct (_ <=? 0).
Qed.

(** X8. In every state the cart store reaches, [calculateSubtotal] of
    the ids of all lines is the stored [totalPrice], and
    [calculateSubtotal] of no id is 0. *)
Theorem calculateSubtotal_all (d : DefaultItem) (s : CartState) :
  reachable d s ->
  calculateSubtotal (map id (items s)) s = totalPrice s
  /\ calculateSubtotal [] s = 0%Q.
Proof.
  intros Hs. split.
  - rewrite (reachable_totalPrice d s Hs). unfold calculateSubtotal. f_equal.
    assert (forall l its, (forall c, In c its -> In (id c) l) ->
              List.filter (fun item => existsb (strictEq (id item)) l) its = its) as H.
    { intros l its. induction its as [|c its IH]; intros Hin; simpl; [done|].
      assert (existsb (strictEq (id c)) l = true) as ->.
      { apply existsb_exists. exists (id c). split; [apply Hin; by left|].
        apply strictEq_refl. }
      f_equal. apply IH. intros c' Hc'. apply Hin. by right. }
    apply H. intros c Hc. by apply in_map.
  - unfold calculateSubtotal. simpl.
    assert (List.filter (fun _ : CartItem => false) (items s) = []) as ->; [|done].
    induction (items s); simpl; done.
Qed.

Lemma calculateSubtotal_all_witness :
  reachable Samples.cartDefaults Samples.cartLaptopsMouse
  /\ calculateSubtotal (map id (items Samples.cartLaptopsMouse)) Samples.cartLaptopsMouse
     = totalPrice Samples.cartLaptopsMouse.
Proof.
  assert (reachable Samples.cartDefaults Samples.cartLaptopsMouse) as Hr.
  { unfold Samples.cartLaptopsMouse. do 2 apply reachable_step. apply reachable_init. }
  split; [exact Hr|].
  exact (proj1 (calculateSubtotal_all Samples.cartDefaults _ Hr)).
Defined.

(** X9. After [removeItem(x)] the id [x] is not in the cart and its
    quantity reads 0; removing it once more changes nothing. *)
Theorem removeItem_gone (x : ItemId) (s : CartState) :
  isItemInCart x (removeItem x s) = false
  /\ getItemQuantity x (removeItem x s) = 0
  /\ removeItem x (removeItem x s) = removeItem x s.
Proof.
  assert (existsb (fun c => strictEq (id c) x)
                  (List.filter (fun item => negb (strictEq (id item) x)) (items s))
          = false) as Habs.
  { induction (items s) as [|i its IH]; simpl; [done|].
    destruct (strictEq (id i) x) eqn:Hi; simpl; [done|]. by rewrite Hi. }
  split; [|split].
  - unfold isItemInCart, removeItem. by rewrite withItems_items.
  - unfold getItemQuantity, getCartItem, removeItem. rewrite withItems_items.
    destruct (List.find _ _) as [c|] eqn:Hf; [|done].
    apply find_some in Hf as [Hc Hp].
    assert (existsb (fun c => strictEq (id c) x)
              (List.filter (fun item => negb (strictEq (id item) x)) (items s)) = true);
      [|congruence].
    apply existsb_exists. by exists c.
  - unfold removeItem at 1. f_equal. unfold removeItem. rewrite withItems_items.
    rewrite filter_filter_andb. f_equal. apply filter_ext. intros c.
    by rewrite andb_diag.
Qed.

End CartMoreProps.

(** ** Wishlist store: operations *)

Module WishlistMoreProps.
Import Wishlist WishlistProps.

Lemma wishlist_filter_ids_NoDup (p : WishlistItem -> bool) its :
  NoDup (map id its) -> NoDup (map id (List.filter p its)).
Proof.
  induction its as [|x its IH]; simpl; [done|].
  intros Hnd. apply NoDup_cons in Hnd as [Hx Hnd].
  destruct (p x); simpl; [|by apply IH].
  apply NoDup_cons. split; [|by apply IH].
  intros Hin. apply Hx. apply list_elem_of_In, in_map_iff in Hin as (c & Hc & Hin).
  apply filter_In in Hin as [Hin _].
  apply list_elem_of_In, in_map_iff. by exists c.
Qed.

Lemma wishlist_addItem_ids_NoDup d x s :
  NoDup (map id (items s)) -> NoDup (map id (items (addItem d x s))).
Proof.
  intros Hnd. unfold addItem.
  destruct (List.find _ (items s)) eqn:Hf; [done|]. simpl.
  rewrite map_app. apply NoDup_app. split; [done|]. split; [|apply NoDup_singleton].
  intros y Hy Hy'. apply list_elem_of_singleton in Hy'. subst y.
  apply list_elem_of_In, in_map_iff in Hy as (c & Hc & Hin).
  pose proof (find_none _ _ Hf c Hin) as Hp. apply strictEq_false in Hp. done.
Qed.

(** X10. In every state the wishlist store reaches no two items have the
    same id, [totalItems] is the number of items, and [isEmpty] holds
    exactly when there is none. *)
Theorem wishlist_unique_and_counted (d : DefaultItem) (s : WishlistState) :
  reachable d s ->
  NoDup (map id (items s))
  /\ totalItems s = length (items s)
  /\ (isEmpty s = true <-> items s = []).
Proof.
  intros Hs. split.
  - induction Hs as [|o s Hs IH]; [apply NoDup_nil_2|].
    destruct o; simpl.
    + by apply wishlist_addItem_ids_NoDup.
    + by apply wishlist_filter_ids_NoDup.
    + unfold toggleItem. destruct (isItemInWishlist _ _); simpl.
      * by apply wishlist_filter_ids_NoDup.
      * by apply wishlist_addItem_ids_NoDup.
    + apply NoDup_nil_2.
  - destruct (reachable_derived d s Hs) as [H1 H2]. split; [done|].
    rewrite H2. destruct (items s); simpl; by split.
Qed.

Lemma wishlist_unique_and_counted_witness :
  reachable Samples.wishDefaults Samples.wishLaptopBook
  /\ NoDup (map id (items Samples.wishLaptopBook))
  /\ totalItems Samples.wishLaptopBook = 2%nat.
Proof.
  assert (reachable Samples.wishDefaults Samples.wishLaptopBook) as Hr.
  { unfold Samples.wishLaptopBook. do 2 apply reachable_step. apply reachable_init. }
  split; [exact Hr|].
  destruct (wishlist_unique_and_counted Samples.wishDefaults _ Hr) as (H1 & H2 & _).
  split; [exact H1|exact H2].
Defined.

Lemma isItemInWishlist_addItem d x s y :
  isItemInWishlist y (addItem d x s)
  = isItemInWishlist y s || strictEq (in_id x) y.
Proof.
  unfold addItem, isItemInWishlist.
  destruct (List.find _ (items s)) as [c|] eqn:Hf; simpl.
  - apply find_some in Hf as [Hc Hp]. apply strictEq_true in Hp.
    destruct (strictEq (in_id x) y) eqn:Hy; [|by rewrite orb_false_r].
    apply strictEq_true in Hy. rewrite orb_true_r.
    apply existsb_exists. exists c. split; [done|]. apply strictEq_true. congruence.
  - rewrite existsb_app. simpl. by rewrite orb_false_r.
Qed.

Lemma isItemInWishlist_removeItem_other x s y :
  isItemInWishlist y (removeItem x s)
  = isItemInWishlist y s && negb (strictEq x y).
Proof.
  unfold removeItem, isItemInWishlist; simpl.
  induction (items s) as [|c its IH]; simpl; [done|].
  destruct (strictEq (id c) x) eqn:Hc; simpl.
  - rewrite IH. apply strictEq_true in Hc. subst x.
    destruct (strictEq (id c) y) eqn:Hy; simpl; [|done].
    by rewrite andb_false_r.
  - rewrite IH. destruct (strictEq (id c) y) eqn:Hy; simpl; [|done].
    apply strictEq_true in Hy. apply strictEq_false in Hc.
    assert (strictEq x y = false) as -> by (apply strictEq_false; congruence).
    done.
Qed.

(** X11. [toggleItem(x)] reports [true] exactly when the id of [x] was
    not in the wishlist; afterwards the id is in the wishlist exactly
    when [true] was reported, and the membership of every other id is
    as before. *)
Theorem toggleItem_flips (d : DefaultItem) (x : ItemInput) (s : WishlistState) :
  let '(s', added) := toggleItem d x s in
  added = negb (isItemInWishlist (in_id x) s)
  /\ isItemInWishlist (in_id x) s' = added
  /\ (forall y, y <> in_id x -> isItemInWishlist y s' = isItemInWishlist y s).
Proof.
  unfold toggleItem. destruct (isItemInWishlist (in_id x) s) eqn:Hin.
  - split; [done|]. split.
    + rewrite isItemInWishlist_removeItem_other, strictEq_refl. by rewrite andb_false_r.
    + intros y Hy. rewrite isItemInWishlist_removeItem_other.
      assert (strictEq (in_id x) y = false) as -> by (apply strictEq_false; congruence).
      by rewrite andb_true_r.
  - split; [done|]. split.
    + rewrite isItemInWishlist_addItem, strictEq_refl. by rewrite orb_true_r.
    + intros y Hy. rewrite isItemInWishlist_addItem.
      assert (strictEq (in_id x) y = false) as -> by (apply strictEq_false; congruence).
      by rewrite orb_false_r.
Qed.

(** X12. [addItem] on the wishlist does not add an id twice: when the id
    is already there the state stays exactly as it is (the stored item is
    kept, the one passed in is dropped), so adding the same item a second
    time changes nothing. *)
Theorem wishlist_addItem_idempotent (d : DefaultItem) (x : ItemInput)
    (s : WishlistState) :
  (isItemInWishlist (in_id x) s = true -> addItem d x s = s)
  /\ addItem d x (addItem d x s) = addItem d x s.
Proof.
  assert (forall st, isItemInWishlist (in_id x) st = true -> addItem d x st = st) as H.
  { intros st Hin. unfold addItem.
    destruct (List.find _ (items st)) eqn:Hf; [done|].
    apply find_isItemInWishlist in Hf. congruence. }
  split; [apply H|]. apply H.
  rewrite isItemInWishlist_addItem, strictEq_refl. by rewrite orb_true_r.
Qed.

Lemma wishlist_addItem_idempotent_witness :
  isItemInWishlist (in_id Samples.wishBook) Samples.wishLaptopBook = true
  /\ addItem Samples.wishDefaults Samples.wishBook Samples.wishLaptopBook
     = Samples.wishLaptopBook.
Proof.
  split; [reflexivity|].
  exact (proj1 (wishlist_addItem_idempotent Samples.wishDefaults Samples.wishBook
                  Samples.wishLaptopBook) eq_refl).
Defined.

(** X13. Moving a wishlist item to the cart with the cart's [addItem] as
    callback: when the id is in the wishlist, it is not there afterwards,
    it is in the cart, the cart's quantity for it is one more than before
    (1 when it was not in the cart), and the moved item is returned.
    Without a callback nothing changes and nothing is returned, even
    when the id is in the wishlist. *)
Theorem moveToCart_into_cart (dc : Cart.DefaultItem) (itemId : ItemId)
    (s : WishlistState) (cart : Cart.CartState) :
  (isItemInWishlist itemId s = true ->
     let '(s', cart', moved) :=
       moveToCart itemId (Some (CartQueries.addToCart dc)) s cart in
     isItemInWishlist itemId s' = false
     /\ Cart.isItemInCart itemId cart' = true
     /\ Cart.getItemQuantity itemId cart' = Cart.getItemQuantity itemId cart + 1
     /\ exists it, moved = Some it /\ In it (items s) /\ id it = itemId)
  /\ moveToCart itemId None s cart = (s, cart, None).
Proof.
  split.
  - intros Hin. unfold moveToCart.
    destruct (List.find _ (items s)) as [it|] eqn:Hf.
    + apply find_some in Hf as [Hit Hid]. apply strictEq_true in Hid.
      split; [apply isItemInWishlist_removeItem|].
      unfold CartQueries.addToCart.
      destruct (CartMoreProps.find_addTo dc (Cart.items cart)
                  (CartQueries.asCartInput it) 1) as (line & Hline & Hq).
      simpl in Hline, Hq. rewrite Hid in Hline, Hq.
      unfold Cart.isItemInCart, Cart.getItemQuantity, Cart.getCartItem, Cart.addItem.
      rewrite CartProps.withItems_items, Hline. split; [|split; [done|by exists it]].
      apply existsb_exists. apply find_some in Hline as [Hl Hp]. by exists line.
    + apply find_isItemInWishlist in Hf. congruence.
  - unfold moveToCart. by destruct (List.find _ (items s)).
Qed.

Lemma moveToCart_into_cart_witness :
  isItemInWishlist (IdStr "product-1") Samples.wishLaptopBook = true
  /\ Cart.getItemQuantity (IdStr "product-1")
       (snd (fst (moveToCart (IdStr "product-1")
                    (Some (CartQueries.addToCart Samples.cartDefaults))
                    Samples.wishLaptopBook Samples.cartLaptopsMouse))) = 3.
Proof.
  split; [reflexivity|].
  pose proof (proj1 (moveToCart_into_cart Samples.cartDefaults (IdStr "product-1")
                       Samples.wishLaptopBook Samples.cartLaptopsMouse) eq_refl) as H.
  destruct (moveToCart (IdStr "product-1")
              (Some (CartQueries.addToCart Samples.cartDefaults))
              Samples.wishLaptopBook Samples.cartLaptopsMouse) as [[s' cart'] moved].
  destruct H as (_ & _ & H & _). exact H.
Defined.

End WishlistMoreProps.

(** ** Filter engine: what the filters keep *)

Module FilterMoreProps.
Import JS FilterSort FilterControls FilterSortProps.

Lemma filter_idem {A} (p : A -> bool) l :
  List.filter p (List.filter p l) = List.filter p l.
Proof.
  induction l as [|x l IH]; simpl; [done|].
  destruct (p x) eqn:Hp; simpl; [|done]. by rewrite Hp, IH.
Qed.

(** X14. Filtering is idempotent: filtering the filtered data again with
    the same state gives the filtered data. *)
Theorem filteredData_idempotent (data : list Record_) (st : FilterSortState) :
  filteredData (filteredData data st) st = filteredData data st.
Proof.
  unfold filteredData at 2 3. destruct (length data =? 0)%nat; [done|].
  unfold filteredData.
  destruct (length (List.filter _ data) =? 0)%nat eqn:Hlen.
  - apply Nat.eqb_eq in Hlen. symmetry. by apply length_zero_iff_nil.
  - apply filter_idem.
Qed.

(** X15. When [hasActiveFilters] is false (no category selected, no
    price bound, no sort option) the filtered data is the data, every
    record kept in its place. *)
Theorem inactive_filters_keep_all (data : list Record_) (st : FilterSortState) :
  hasActiveFilters st = false ->
  filteredData data st = data.
Proof.
  unfold hasActiveFilters. rewrite !orb_false_iff, !negb_false_iff.
  intros [[[Hc Hmin] Hmax] _]. unfold filteredData.
  destruct data as [|r data]; [done|].
  change (length (r :: data) =? 0)%nat with false. cbv iota.
  assert (forall item, passesCategory st item && passesPrice st item = true) as Hall.
  { intros item. unfold passesCategory, passesPrice. rewrite Hc, Hmin, Hmax. simpl.
    by destruct (isNaN _). }
  generalize (r :: data). intros l. induction l as [|x l IH]; simpl; [done|].
  by rewrite Hall, IH.
Qed.

Lemma inactive_filters_keep_all_witness :
  hasActiveFilters (clearAll Samples.minBound) = false
  /\ filteredData [Samples.phone; Samples.giftCard] (clearAll Samples.minBound)
     = [Samples.phone; Samples.giftCard].
Proof.
  split; [reflexivity|].
  exact (inactive_filters_keep_all [Samples.phone; Samples.giftCard]
           (clearAll Samples.minBound) eq_refl).
Defined.

Lemma lt_irrefl_chain p m M :
  isNaN p = false -> lt p m = false -> gt p M = false -> lt M m = true -> False.
Proof.
  unfold gt. intros Hp H1 H2 H3.
  destruct p as [|[|]|p]; [done|..]; destruct m as [|[|]|m]; try done;
    destruct M as [|[|]|M]; try done.
  simpl in *. apply negb_false_iff in H1, H2. apply negb_true_iff in H3.
  apply Qle_bool_iff in H1, H2.
  assert (Qle_bool m M = true); [|congruence].
  apply Qle_bool_iff. lra.
Qed.

(** X16. A kept record whose price is numeric is not below a set lower
    bound and not above a set upper bound. The engine does not require
    [min <= max]: when both bounds are set and the upper one is below the
    lower one, no record with a numeric price is kept. *)
Theorem kept_prices_within_bounds (data : list Record_) (st : FilterSortState)
    (item : Record_) :
  In item (filteredData data st) ->
  numericPrice item = true ->
  let price := Number (itemPrice item) in
  let lower := Number (VStr (min (priceRange st))) in
  let upper := Number (VStr (max (priceRange st))) in
  (min (priceRange st) <> EmptyString -> lt price lower = false)
  /\ (max (priceRange st) <> EmptyString -> gt price upper = false)
  /\ (min (priceRange st) <> EmptyString -> max (priceRange st) <> EmptyString ->
      lt upper lower = false).
Proof.
  intros Hin Hnum price lower upper.
  apply filteredData_In in Hin as (_ & _ & Hp).
  unfold passesPrice in Hp. unfold numericPrice in Hnum. fold price in Hp, Hnum.
  rewrite Hnum in Hp. fold lower upper in Hp.
  assert (min (priceRange st) <> EmptyString -> lt price lower = false) as H1.
  { intros Hm. apply StrProps.eqb_empty in Hm. rewrite Hm in Hp. simpl in Hp.
    by destruct (lt price lower). }
  assert (max (priceRange st) <> EmptyString -> gt price upper = false) as H2.
  { intros Hm. apply StrProps.eqb_empty in Hm. rewrite Hm in Hp. simpl in Hp.
    destruct (negb (String.eqb (min (priceRange st)) "") && lt price lower); [done|].
    by destruct (gt price upper). }
  split; [done|]. split; [done|]. intros Hmin Hmax.
  destruct (lt upper lower) eqn:Hinv; [|done]. exfalso.
  apply negb_true_iff in Hnum.
  exact (lt_irrefl_chain price lower upper Hnum (H1 Hmin) (H2 Hmax) Hinv).
Qed.

Lemma kept_prices_within_bounds_witness :
  let st := MoreSamples.priceWindow in
  (In Samples.phone (filteredData [Samples.phone; Samples.giftCard] st)
   /\ numericPrice Samples.phone = true)
  /\ lt (Number (itemPrice Samples.phone)) (Number (VStr (min (priceRange st)))) = false
  /\ gt (Number (itemPrice Samples.phone)) (Number (VStr (max (priceRange st)))) = false.
Proof.
  intros st.
  assert (In Samples.phone (filteredData [Samples.phone; Samples.giftCard] st)) as Hin.
  { vm_compute. auto. }
  split; [split; [exact Hin|reflexivity]|].
  destruct (kept_prices_within_bounds [Samples.phone; Samples.giftCard] st
              Samples.phone Hin eq_refl) as (H1 & H2 & _).
  split; [apply H1|apply H2]; discriminate.
Defined.

(** X17. When at least one category is selected, a kept record has a
    category whose name is a non-empty string equal to one of the
    selected categories; a record without a category object, or whose
    category has no name, is dropped. *)
Theorem kept_records_have_selected_category (data : list Record_)
    (st : FilterSortState) (item : Record_) :
  selectedCategories st <> [] ->
  In item (filteredData data st) ->
  exists c, categoryName item = VStr c /\ c <> EmptyString
            /\ In c (selectedCategories st).
Proof.
  intros Hsel Hin. apply filteredData_In in Hin as (_ & Hc & _).
  unfold passesCategory in Hc.
  assert ((0 <? length (selectedCategories st))%nat = true) as Hlen.
  { by destruct (selectedCategories st). }
  rewrite Hlen in Hc. cbv iota zeta in Hc.
  apply negb_true_iff, orb_false_iff in Hc as [Ht Hi].
  apply negb_false_iff in Ht, Hi.
  destruct (categoryName item) as [| |b|n|c|]; try done.
  exists c. split; [done|]. split.
  - intros ->. done.
  - unfold includes in Hi. apply existsb_exists in Hi as (c' & Hc' & Heq).
    apply String.eqb_eq in Heq. by subst c'.
Qed.

Lemma kept_records_have_selected_category_witness :
  let st := MoreSamples.electronicsOnly in
  (selectedCategories st <> []
   /\ In Samples.phone (filteredData [Samples.phone; Samples.giftCard] st))
  /\ filteredData [Samples.phone; Samples.giftCard; None] st = [Samples.phone]
  /\ exists c, categoryName Samples.phone = VStr c /\ c <> EmptyString
               /\ In c (selectedCategories st).
Proof.
  intros st.
  assert (selectedCategories st <> []) as Hsel by discriminate.
  assert (In Samples.phone (filteredData [Samples.phone; Samples.giftCard] st)) as Hin.
  { vm_compute. auto. }
  split; [done|]. split; [reflexivity|].
  exact (kept_records_have_selected_category [Samples.phone; Samples.giftCard] st
           Samples.phone Hsel Hin).
Defined.

Lemma existsb_eqb_In c (l : list string) :
  existsb (String.eqb c) l = true <-> In c l.
Proof.
  rewrite existsb_exists. split.
  - intros (x & Hx & Heq). apply String.eqb_eq in Heq. by subst.
  - intros Hin. exists c. split; [done|]. apply String.eqb_refl.
Qed.

(** X18. [toggleCategory(c)] flips whether [c] is selected and leaves
    every other category selected or not as it was; a selection without
    repetitions stays without repetitions, and toggling a category that
    was not selected twice restores the selection. *)
Theorem toggleCategory_flips (c : string) (prev : list string) :
  (In c (toggleCategory c prev) <-> ~ In c prev)
  /\ (forall c', c' <> c -> In c' (toggleCategory c prev) <-> In c' prev)
  /\ (NoDup prev -> NoDup (toggleCategory c prev))
  /\ (~ In c prev -> toggleCategory c (toggleCategory c prev) = prev).
Proof.
  unfold toggleCategory at 1 2 3.
  destruct (existsb (String.eqb c) prev) eqn:Hin.
  - apply existsb_eqb_In in Hin. split; [|split; [|split]].
    + rewrite filter_In, negb_true_iff, String.eqb_neq. split; [by intros [_ ?]|done].
    + intros c' Hne. rewrite filter_In, negb_true_iff, String.eqb_neq. tauto.
    + intros Hnd. apply NoDup_ListNoDup, List.NoDup_filter. by apply NoDup_ListNoDup.
    + done.
  - assert (~ In c prev) as Hnot.
    { intros H. apply existsb_eqb_In in H. congruence. }
    split; [|split; [|split]].
    + rewrite in_app_iff. simpl. tauto.
    + intros c' Hne. rewrite in_app_iff. simpl. split; [|tauto].
      intros [?|[?|[]]]; [done|congruence].
    + intros Hnd. apply NoDup_app. split; [done|]. split; [|apply NoDup_singleton].
      intros x Hx Hx'. apply list_elem_of_singleton in Hx'. subst x.
      by apply list_elem_of_In in Hx.
    + intros _. unfold toggleCategory. rewrite Hin.
      assert (existsb (String.eqb c) (prev ++ [c]) = true) as ->.
      { apply existsb_eqb_In, in_app_iff. right. by left. }
      rewrite List.filter_app. simpl. rewrite String.eqb_refl. simpl.
      rewrite app_nil_r. clear Hin. induction prev as [|x l IH]; simpl; [done|].
      destruct (String.eqb x c) eqn:Hx; simpl.
      * apply String.eqb_eq in Hx. subst. exfalso. apply Hnot. by left.
      * f_equal. apply IH. intros H. apply Hnot. by right.
Qed.

Lemma toggleCategory_flips_witness :
  (NoDup ["Books"; "Electronics"]%string /\ ~ In "Shoes"%string ["Books"; "Electronics"]%string)
  /\ NoDup (toggleCategory "Shoes" ["Books"; "Electronics"])
  /\ toggleCategory "Shoes" (toggleCategory "Shoes" ["Books"; "Electronics"])
     = ["Books"; "Electronics"]%string.
Proof.
  assert (NoDup ["Books"; "Electronics"]%string) as Hnd.
  { apply NoDup_cons. split; [|apply NoDup_singleton].
    intros H%list_elem_of_singleton. discriminate. }
  assert (~ In "Shoes"%string ["Books"; "Electronics"]%string) as Hnot.
  { intros [H|[H|[]]]; discriminate. }
  destruct (toggleCategory_flips "Shoes" ["Books"; "Electronics"]) as (_ & _ & H3 & H4).
  split; [done|]. split; [by apply H3|by apply H4].
Defined.

End FilterMoreProps.

(** ** Search engine: strategies, paths and the hook *)

Module SearchMoreProps.
Import Search SearchHook StrProps.

(** X19. With key paths of one segment [searchWithHighlight] leaves
    every object of the store it is given as it is: the original records
    are unchanged, and every result is a new object. *)
Theorem highlight_flat_paths_keep_records (h : heap) (data : list value)
    (query : string) (options : SearchOptions) :
  Forall (fun entry => Str.noDot (snd entry) = true) (keys options) ->
  let '(h', out) := searchWithHighlight h data query options in
  (forall l o, h !! l = Some o -> h' !! l = Some o)
  /\ Forall (fun v => exists l, v = VRef l /\ (length h <= l)%nat) out.
Proof.
  intros Hflat. unfold searchWithHighlight.
  generalize (searchData h data query
                {| keys := keys options; caseSensitive := caseSensitive options;
                   exactMatch := false; customMatcher := None; strategy := Contains;
                   minScore := 0.3%Q; regexFlags := "gi"; weights := ∅;
                   highlightClass := "search-highlight" |}).
  intros results.
  assert (forall (objs : heap) out,
            Forall (fun v => exists l, v = VRef l /\ (length h <= l)%nat) out ->
            let '(h', out') :=
              fold_left (fun '(h, out) it =>
                           let '(h, highlightedItem) :=
                             highlightItem options query h it in
                           (h, out ++ [highlightedItem]))
                        results (h ++ objs, out) in
            (exists objs', h' = h ++ objs')
            /\ Forall (fun v => exists l, v = VRef l /\ (length h <= l)%nat) out') as H.
  { induction results as [|it results IH]; intros objs out Hout; cbn [fold_left].
    - split; [by exists objs|done].
    - destruct (HighlightProps.highlightItem_flat options query (h ++ objs) it Hflat)
        as [o Ho].
      assert (snd (highlightItem options query (h ++ objs) it)
              = VRef (length (h ++ objs))) as Hv.
      { unfold highlightItem, alloc. reflexivity. }
      destruct (highlightItem options query (h ++ objs) it) as [h1 hi].
      simpl in Ho, Hv. subst h1 hi. rewrite <- app_assoc. apply IH.
      apply Forall_app. split; [done|]. apply Forall_singleton.
      eexists. split; [done|]. rewrite length_app. lia. }
  specialize (H [] [] (Forall_nil_2 _)). rewrite app_nil_r in H.
  destruct (fold_left _ results (h, [])) as [h' out].
  destruct H as [[objs ->] Hout]. split; [|done].
  intros l o Hl. by apply lookup_app_l_Some.
Qed.

Lemma highlight_flat_paths_keep_records_witness :
  Forall (fun entry => Str.noDot (snd entry) = true) (keys Samples.byTitle)
  /\ take 5 (fst (searchWithHighlight Samples.catalog Samples.records "o"
                    Samples.byTitle)) = Samples.catalog.
Proof.
  assert (Forall (fun entry => Str.noDot (snd entry) = true) (keys Samples.byTitle))
    as Hflat by (repeat constructor).
  split; [exact Hflat|].
  pose proof (highlight_flat_paths_keep_records Samples.catalog Samples.records "o"
                Samples.byTitle Hflat) as H.
  destruct (searchWithHighlight Samples.catalog Samples.records "o" Samples.byTitle)
    as [h' out] eqn:Hs.
  destruct H as [Hkeep _]. simpl.
  apply list_eq. intros i. destruct (Samples.catalog !! i) as [o|] eqn:Hi.
  - assert (i < 5)%nat as Hlt by (apply lookup_lt_Some in Hi; exact Hi).
    rewrite lookup_take_lt by exact Hlt. by apply Hkeep.
  - apply lookup_ge_None in Hi. apply lookup_ge_None. rewrite length_take.
    simpl in Hi. lia.
Defined.

(** *** Strategies *)

Lemma startsWith_includes s q : Str.startsWith s q = true -> Str.includes s q = true.
Proof.
  intros H. unfold Str.includes. rewrite RankedProps.indexOf_unfold. by rewrite H.
Qed.

Lemma includes_cons c s q : Str.includes s q = true -> Str.includes (String c s) q = true.
Proof.
  unfold Str.includes. intros H. rewrite RankedProps.indexOf_unfold.
  destruct (Str.startsWith (String c s) q); [done|].
  by destruct (Str.indexOf s q).
Qed.

Lemma startsWith_refl s : Str.startsWith s s = true.
Proof. induction s as [|c s IH]; simpl; [done|]. by rewrite Ascii.eqb_refl. Qed.

Lemma substring_all s : String.substring 0 (String.length s) s = s.
Proof. induction s as [|c s IH]; simpl; [done|]. by rewrite IH. Qed.

Lemma includes_drop n s : Str.includes s (Str.drop n s) = true.
Proof.
  unfold Str.drop. revert n. induction s as [|c s IH]; intros n.
  - by destruct n.
  - destruct n as [|n].
    + rewrite Nat.sub_0_r, substring_all. apply startsWith_includes, startsWith_refl.
    + simpl. apply includes_cons, IH.
Qed.

Lemma endsWith_includes s q : Str.endsWith s q = true -> Str.includes s q = true.
Proof.
  unfold Str.endsWith. intros [_ H]%andb_true_iff. apply String.eqb_eq in H.
  rewrite <- H. apply includes_drop.
Qed.

Lemma startsWith_subsequence s q : Str.startsWith s q = true -> subsequence q s.
Proof.
  unfold subsequence. revert s. induction q as [|a q IH]; intros s H; simpl.
  - apply sublist_nil_l.
  - destruct s as [|b s]; [done|]. simpl in H.
    apply andb_true_iff in H as [Hab H]. apply Ascii.eqb_eq in Hab. subst b.
    simpl. constructor. by apply IH.
Qed.

Lemma includes_subsequence s q : Str.includes s q = true -> subsequence q s.
Proof.
  unfold Str.includes. induction s as [|c s IH]; rewrite RankedProps.indexOf_unfold.
  - destruct (Str.startsWith "" q) eqn:Hs; [|done]. intros _.
    by apply startsWith_subsequence.
  - destruct (Str.startsWith (String c s) q) eqn:Hs.
    + intros _. by apply startsWith_subsequence.
    + destruct (Str.indexOf s q) eqn:Hi; [|done]. intros _.
      unfold subsequence in *. simpl. constructor. by apply IH.
Qed.

Lemma filter_sublist_impl {A} (p r : A -> bool) l :
  (forall x, p x = true -> r x = true) ->
  sublist (List.filter p l) (List.filter r l).
Proof.
  intros Himpl. induction l as [|x l IH]; simpl; [constructor|].
  destruct (p x) eqn:Hp.
  - rewrite (Himpl x Hp). by constructor.
  - destruct (r x); [by constructor|done].
Qed.

Lemma existsb_impl {A} (p r : A -> bool) l :
  (forall x, p x = true -> r x = true) -> existsb p l = true -> existsb r l = true.
Proof.
  intros Himpl. rewrite !existsb_exists. intros (x & Hx & Hp). exists x. auto.
Qed.

(** X20. The strategies nest: what [startsWith] or [endsWith] keeps,
    [contains] keeps too (in the same order), and what [contains] keeps,
    [fuzzy] keeps as long as [minScore] is at most 1. *)
Theorem strategies_nest (regexTest : string -> string -> string -> option bool)
    (h : heap) (data : list value) (query : string) (options : SearchOptions) :
  let search s := advancedSearch regexTest h data query (withStrategy s options) in
  sublist (search StartsWith) (search Contains)
  /\ sublist (search EndsWith) (search Contains)
  /\ ((minScore options <= 1)%Q -> sublist (search Contains) (search Fuzzy)).
Proof.
  intros search. unfold search, advancedSearch.
  destruct (String.eqb query "") eqn:Hq; [done|]. apply eqb_empty in Hq.
  simpl. split; [|split].
  - apply filter_sublist_impl. intros it. apply existsb_impl. intros [k p].
    destruct (nullish _); [done|]. apply startsWith_includes.
  - apply filter_sublist_impl. intros it. apply existsb_impl. intros [k p].
    destruct (nullish _); [done|]. apply endsWith_includes.
  - intros Hmin. apply filter_sublist_impl. intros it. apply existsb_impl.
    intros [k p]. destruct (nullish _); [done|]. intros Hinc.
    apply includes_subsequence in Hinc.
    destruct (FuzzyProps.fuzzyMatch_cases
                (normalize (caseSensitive options) (toString (getNestedValue h it p)))
                (normalize (caseSensitive options) query)
                (FuzzyProps.normalize_nonempty _ _ Hq)) as [[_ H]|[H _]]; [|done].
    apply Qle_bool_iff. rewrite H. done.
Qed.

Lemma strategies_nest_witness :
  (minScore Samples.byTitle <= 1)%Q
  /\ sublist
       (advancedSearch Samples.noRegex Samples.catalog Samples.records "o"
          (withStrategy Contains Samples.byTitle))
       (advancedSearch Samples.noRegex Samples.catalog Samples.records "o"
          (withStrategy Fuzzy Samples.byTitle)).
Proof.
  assert (minScore Samples.byTitle <= 1)%Q as Hmin by (vm_compute; discriminate).
  split; [exact Hmin|].
  destruct (strategies_nest Samples.noRegex Samples.catalog Samples.records "o"
              Samples.byTitle) as (_ & _ & H).
  exact (H Hmin).
Defined.

(** X21. Without a custom matcher, every record [searchData] keeps under
    [exactMatch] it also keeps without it, in the same order. *)
Theorem exact_matches_are_contains_matches (h : heap) (data : list value)
    (query : string) (options : SearchOptions) :
  customMatcher options = None ->
  sublist (searchData h data query (withExactMatch true options))
          (searchData h data query (withExactMatch false options)).
Proof.
  intros Hc. unfold searchData. simpl. rewrite Hc.
  destruct (String.eqb query ""); [done|].
  destruct (length (keys options) =? 0)%nat; [done|].
  apply filter_sublist_impl. intros it. apply existsb_impl. intros [k p].
  destruct (nullish _); [done|]. intros Heq. apply String.eqb_eq in Heq.
  rewrite Heq. apply startsWith_includes, startsWith_refl.
Qed.

Lemma exact_matches_are_contains_matches_witness :
  customMatcher Samples.byTitle = None
  /\ searchData Samples.catalog Samples.records "book"
       (withExactMatch true Samples.byTitle) = [VRef 2%nat]
  /\ sublist (searchData Samples.catalog Samples.records "book"
                (withExactMatch true Samples.byTitle))
             (searchData Samples.catalog Samples.records "book"
                (withExactMatch false Samples.byTitle)).
Proof.
  split; [reflexivity|]. split; [reflexivity|].
  exact (exact_matches_are_contains_matches Samples.catalog Samples.records "book"
           Samples.byTitle eq_refl).
Defined.

End SearchMoreProps.

(** ** Search engine: nested paths *)

Module PathProps.
Import Search StrProps.

Lemma splitDots_nonempty path : Str.splitDots path <> [].
Proof.
  induction path as [|c path IH]; simpl; [done|].
  destruct (Ascii.eqb c "."); [done|]. by destruct (Str.splitDots path).
Qed.

Lemma splitDots_app path key :
  Str.noDot key = true ->
  Str.splitDots (path ++ "." ++ key) = Str.splitDots path ++ [key].
Proof.
  intros Hk. induction path as [|c path IH]; simpl.
  - by rewrite HighlightProps.splitDots_flat.
  - destruct (Ascii.eqb c "."); [by rewrite IH|].
    rewrite IH. pose proof (splitDots_nonempty path) as Hne.
    by destruct (Str.splitDots path).
Qed.

Lemma append_nonempty (path rest : string) :
  path <> EmptyString -> (path ++ rest)%string <> EmptyString.
Proof. by destruct path. Qed.

(** X22. Reading one segment further: for a record that is there and a
    non-empty path, the value at [path.key] is the property [key] of the
    value at [path], and it is [undefined], without an error, as soon as
    the value at [path] is [null] or [undefined]. *)
Theorem getNestedValue_extend (h : heap) (obj : value) (path key : string) :
  truthy obj = true ->
  path <> EmptyString ->
  Str.noDot key = true ->
  getNestedValue h obj (path ++ "." ++ key)
  = if nullish (getNestedValue h obj path) then VUndefined
    else getProp h (getNestedValue h obj path) key.
Proof.
  intros Hobj Hpath Hkey. unfold getNestedValue. rewrite Hobj. simpl negb.
  apply eqb_empty in Hpath as Hp. rewrite Hp.
  pose proof (append_nonempty path ("." ++ key) Hpath) as Hne.
  apply eqb_empty in Hne. rewrite Hne. simpl orb. cbv iota.
  rewrite splitDots_app by done. by rewrite fold_left_app.
Qed.

Lemma getNestedValue_extend_witness :
  (truthy (VRef 0%nat) = true /\ "category"%string <> EmptyString
   /\ Str.noDot "name" = true)
  /\ getNestedValue Samples.catalog (VRef 0%nat) "category.name" = VStr "Electronics"
  /\ getNestedValue Samples.catalog (VRef 0%nat) "brand.name" = VUndefined.
Proof.
  split; [split; [reflexivity|split; [discriminate|reflexivity]]|].
  assert ("category"%string <> EmptyString) as Hc by discriminate.
  assert ("brand"%string <> EmptyString) as Hb by discriminate.
  split.
  - exact (eq_trans (getNestedValue_extend Samples.catalog (VRef 0%nat)
                       "category" "name" eq_refl Hc eq_refl) eq_refl).
  - exact (eq_trans (getNestedValue_extend Samples.catalog (VRef 0%nat)
                       "brand" "name" eq_refl Hb eq_refl) eq_refl).
Defined.

Lemma getProp_ref (h : heap) (l : loc) (key : string) (o : object) :
  h !! l = Some o -> getProp h (VRef l) key = default VUndefined (o !! key).
Proof. unfold getProp. by intros ->. Qed.

(** The walk of [setNestedValue] over the leading segments, and the
    read of [getNestedValue] over all of them. *)
Lemma set_then_get_segments (v : value) (lastKey : string) :
  forall (segs : list string) (cur : loc) (h : heap),
    (cur < length h)%nat ->
    match segs with
    | key :: _ => isObject (getProp h (VRef cur) key) = false
    | [] => True
    end ->
    let '(target, h1) :=
      fold_left (fun '(current, h) key =>
                   let next := getProp h (VRef current) key in
                   match next with
                   | VRef l => (l, h)
                   | _ =>
                       let '(l, h) := alloc h ∅ in
                       (l, setProp h current key (VRef l))
                   end)
                segs (cur, h) in
    let h2 := setProp h1 target lastKey v in
    fold_left (fun current key =>
                 if nullish current then VUndefined else getProp h2 current key)
              (segs ++ [lastKey]) (VRef cur) = v
    /\ (forall l, (l < length h)%nat -> l <> cur -> h2 !! l = h !! l).
Proof.
  induction segs as [|key segs IH]; intros cur h Hcur Hfresh.
  - simpl. destruct (lookup_lt_is_Some_2 h cur Hcur) as [o Ho]. split.
    + assert (setProp h cur lastKey v !! cur = Some (<[lastKey := v]> o)) as Hcur'.
      { unfold setProp. by rewrite list_lookup_alter_eq, Ho. }
      by rewrite Hcur', lookup_insert_eq.
    + intros l _ Hl. unfold setProp. by rewrite list_lookup_alter_ne.
  - cbn [fold_left app].
    destruct (lookup_lt_is_Some_2 h cur Hcur) as [o Ho].
    set (n := length h).
    set (h' := setProp (h ++ [∅]) cur key (VRef n)).
    assert ((match getProp h (VRef cur) key with
             | VRef l => (l, h)
             | _ => let '(l, h0) := alloc h ∅ in (l, setProp h0 cur key (VRef l))
             end) = (n, h')) as ->.
    { destruct (getProp h (VRef cur) key); try done. }
    assert (length h' = S n) as Hlen.
    { unfold h', setProp. rewrite length_alter, length_app. simpl. lia. }
    assert (h' !! n = Some ∅) as Hn.
    { unfold h', setProp. rewrite list_lookup_alter_ne by lia.
      rewrite lookup_app_r by done. by rewrite Nat.sub_diag. }
    assert (h' !! cur = Some (<[key := VRef n]> o)) as Hc.
    { unfold h', setProp. rewrite list_lookup_alter_eq.
      by rewrite lookup_app_l, Ho by done. }
    specialize (IH n h' ltac:(lia)).
    assert (match segs with
            | key0 :: _ => isObject (getProp h' (VRef n) key0) = false
            | [] => True
            end) as Hfresh'.
    { destruct segs as [|k' segs']; [done|].
      by rewrite (getProp_ref h' n k' ∅ Hn), lookup_empty. }
    specialize (IH Hfresh'). cbv zeta in IH.
    match goal with
    | |- context [fold_left ?f segs (n, h')] =>
        set (r := fold_left f segs (n, h'))
    end.
    match type of IH with
    | context [fold_left ?g segs (n, h')] =>
        change (fold_left g segs (n, h')) with r in IH
    end.
    destruct r as [target h1].
    destruct IH as [Hget Hframe]. split.
    + simpl nullish. cbv iota.
      assert (getProp (setProp h1 target lastKey v) (VRef cur) key = VRef n) as ->.
      { assert (setProp h1 target lastKey v !! cur = Some (<[key := VRef n]> o))
          as Hcur' by (rewrite Hframe by lia; exact Hc).
        by rewrite (getProp_ref _ cur key _ Hcur'), lookup_insert_eq. }
      exact Hget.
    + intros l Hl Hne. rewrite Hframe by (fold n in Hl; lia).
      unfold h', setProp. rewrite list_lookup_alter_ne by done.
      by rewrite lookup_app_l.
Qed.

(** X23. Writing then reading: after [setNestedValue(obj, path, v)],
    [getNestedValue(obj, path)] is [v], for a path of one segment, and
    for a dotted path whose first segment is not yet an object on [obj]
    (the intermediate objects are created); every other object that
    existed before is left as it was. *)
Theorem set_then_get (h : heap) (obj : loc) (path : string) (v : value) :
  (obj < length h)%nat ->
  path <> EmptyString ->
  Str.noDot path = true
  \/ isObject (getProp h (VRef obj) (hd EmptyString (Str.splitDots path))) = false ->
  getNestedValue (setNestedValue h obj path v) (VRef obj) path = v
  /\ (forall l, (l < length h)%nat -> l <> obj ->
                setNestedValue h obj path v !! l = h !! l).
Proof.
  intros Hobj Hpath Hfirst.
  unfold getNestedValue, setNestedValue. simpl truthy. simpl negb.
  apply eqb_empty in Hpath as ->. simpl orb. cbv iota.
  pose proof (splitDots_nonempty path) as Hne.
  pose proof (set_then_get_segments v (List.last (Str.splitDots path) EmptyString)
                (removelast (Str.splitDots path)) obj h Hobj) as H.
  assert (match removelast (Str.splitDots path) with
          | key :: _ => isObject (getProp h (VRef obj) key) = false
          | [] => True
          end) as Hfresh.
  { destruct Hfirst as [Hflat|Hfirst].
    - by rewrite HighlightProps.splitDots_flat.
    - destruct (Str.splitDots path) as [|k1 [|k2 rest]]; [done|done|exact Hfirst]. }
  specialize (H Hfresh).
  rewrite <- (app_removelast_last EmptyString Hne) in H.
  destruct (fold_left _ (removelast (Str.splitDots path)) (obj, h)) as [target h1].
  exact H.
Qed.

Lemma set_then_get_witness :
  ((0 < length Samples.catalog)%nat /\ "brand.name"%string <> EmptyString
   /\ isObject (getProp Samples.catalog (VRef 0%nat)
                  (hd EmptyString (Str.splitDots "brand.name"))) = false)
  /\ getNestedValue (setNestedValue Samples.catalog 0%nat "brand.name" (VStr "Acme"))
       (VRef 0%nat) "brand.name" = VStr "Acme".
Proof.
  assert (0 < length Samples.catalog)%nat as H1 by (simpl; lia).
  assert ("brand.name"%string <> EmptyString) as H2 by discriminate.
  assert (isObject (getProp Samples.catalog (VRef 0%nat)
                      (hd EmptyString (Str.splitDots "brand.name"))) = false) as H3
    by reflexivity.
  split; [done|].
  exact (proj1 (set_then_get Samples.catalog 0%nat "brand.name" (VStr "Acme")
                  H1 H2 (or_intror H3))).
Defined.

End PathProps.

(** ** Search engine: scores, key maps and the hook *)

Module HookProps.
Import Search SearchHook StrProps.



Lemma filter_none {A} (p : A -> bool) l :
  (forall x, p x = false) -> List.filter p l = [].
Proof.
  intros Hp. induction l as [|x l IH]; simpl; [done|]. by rewrite Hp.
Qed.

(** X25. With an empty key map and a non-empty query the three search
    functions differ: [searchData] returns all the data, [advancedSearch]
    and [rankedSearch] return no record at all. *)
Theorem empty_key_map (regexTest : string -> string -> string -> option bool)
    (h : heap) (data : list value) (query : string) (options : SearchOptions) :
  keys options = [] ->
  query <> EmptyString ->
  searchData h data query options = data
  /\ advancedSearch regexTest h data query options = []
  /\ rankedSearch h data query options = [].
Proof.
  intros Hk Hq. apply eqb_empty in Hq.
  unfold searchData, advancedSearch, rankedSearch. rewrite Hq, Hk. simpl.
  split; [done|]. split.
  - by apply filter_none.
  - rewrite RankedProps.filter_map_comm. rewrite filter_none; [done|].
    intros it. unfold rank, accumulate. by rewrite Hk.
Qed.

Lemma empty_key_map_witness :
  (keys (withKeys [] Samples.byTitle) = [] /\ "lap"%string <> EmptyString)
  /\ searchData Samples.catalog Samples.records "lap" (withKeys [] Samples.byTitle)
     = Samples.records
  /\ rankedSearch Samples.catalog Samples.records "lap" (withKeys [] Samples.byTitle)
     = [].
Proof.
  assert ("lap"%string <> EmptyString) as Hq by discriminate.
  split; [split; [reflexivity|exact Hq]|].
  destruct (empty_key_map Samples.noRegex Samples.catalog Samples.records "lap"
              (withKeys [] Samples.byTitle) eq_refl Hq) as (H1 & _ & H3).
  split; [exact H1|exact H3].
Defined.

(** X26. With a non-empty key map, no custom matcher and no exact
    matching, [searchData] and the [contains] strategy of
    [advancedSearch] return the same records. *)
Theorem searchData_is_contains (regexTest : string -> string -> string -> option bool)
    (h : heap) (data : list value) (query : string) (options : SearchOptions) :
  keys options <> [] ->
  customMatcher options = None ->
  exactMatch options = false ->
  searchData h data query options
  = advancedSearch regexTest h data query (withStrategy Contains options).
Proof.
  intros Hk Hc He. unfold searchData, advancedSearch. simpl.
  destruct (String.eqb query ""); [done|].
  assert ((length (keys options) =? 0)%nat = false) as ->.
  { by destruct (keys options). }
  rewrite Hc, He. apply filter_ext. intros it.
  induction (keys options) as [|[k p] ks IH]; simpl; [done|]. by rewrite ?IH.
Qed.

Lemma searchData_is_contains_witness :
  (keys Samples.byCategory <> [] /\ customMatcher Samples.byCategory = None
   /\ exactMatch Samples.byCategory = false)
  /\ searchData Samples.catalog Samples.records "elec" Samples.byCategory
     = advancedSearch Samples.noRegex Samples.catalog Samples.records "elec"
         (withStrategy Contains Samples.byCategory).
Proof.
  assert (keys Samples.byCategory <> []) as Hk by discriminate.
  split; [split; [exact Hk|split; reflexivity]|].
  exact (searchData_is_contains Samples.noRegex Samples.catalog Samples.records "elec"
           Samples.byCategory Hk eq_refl eq_refl).
Defined.

(** X27. [performSearch] of the hook: a blank query or an empty data
    array gives the data back; otherwise a strategy name outside the
    seven it knows ends in a TypeError (the [default] branch calls the
    data array), and for the names it knows the [exactMatch] option of
    the configuration has no effect on the outcome. *)
Theorem performSearch_edges (regexTest : string -> string -> string -> option bool)
    (h : heap) (config : SearchConfig) (searchQuery : string) (data : list value) :
  (trim searchQuery = EmptyString \/ data = [] ->
     performSearch regexTest h config searchQuery data = Returned data)
  /\ (trim searchQuery <> EmptyString -> data <> [] ->
      ~ knownStrategy (strategyName config) ->
      performSearch regexTest h config searchQuery data = TypeError)
  /\ (forall b,
        performSearch regexTest h
          {| options := withExactMatch b (options config);
             strategyName := strategyName config |} searchQuery data
        = performSearch regexTest h config searchQuery data).
Proof.
  split; [|split].
  - intros [Hb|Hd]; unfold performSearch.
    + by rewrite Hb.
    + subst data. by rewrite orb_true_r.
  - intros Hb Hd Hk. unfold performSearch.
    apply eqb_empty in Hb. rewrite Hb.
    assert ((length data =? 0)%nat = false) as -> by (by destruct data).
    simpl orb. cbv iota zeta.
    assert (forall name, strategyName config <> name ->
                         String.eqb (strategyName config) name = false) as Hne.
    { intros name. apply String.eqb_neq. }
    unfold knownStrategy in Hk. simpl in Hk.
    rewrite !Hne; [done|intros H; apply Hk; rewrite H; tauto..].
  - intros b. unfold performSearch. simpl strategyName. simpl options.
    destruct (String.eqb (trim searchQuery) "" || (length data =? 0)%nat); [done|].
    repeat (destruct (String.eqb (strategyName config) _); [reflexivity|]).
    reflexivity.
Qed.

Lemma performSearch_edges_witness :
  (trim "lap" <> EmptyString /\ Samples.records <> []
   /\ ~ knownStrategy "exact")
  /\ performSearch Samples.noRegex Samples.catalog
       {| options := Samples.byTitle; strategyName := "exact" |} "lap" Samples.records
     = TypeError
  /\ performSearch Samples.noRegex Samples.catalog
       {| options := Samples.byTitle; strategyName := "contains" |} "   "
       Samples.records
     = Returned Samples.records.
Proof.
  assert (trim "lap" <> EmptyString) as Hb by (vm_compute; discriminate).
  assert (Samples.records <> []) as Hd by discriminate.
  assert (~ knownStrategy "exact") as Hk.
  { unfold knownStrategy. simpl. intros H.
    repeat (destruct H as [H|H]; [discriminate|]). exact H. }
  split; [done|]. split.
  - exact (proj1 (proj2 (performSearch_edges Samples.noRegex Samples.catalog
                           {| options := Samples.byTitle; strategyName := "exact" |}
                           "lap" Samples.records)) Hb Hd Hk).
  - apply (proj1 (performSearch_edges Samples.noRegex Samples.catalog
                    {| options := Samples.byTitle; strategyName := "contains" |}
                    "   " Samples.records)).
    left. reflexivity.
Defined.

(** X28. The search history of the hook. In every state its handlers
    lead to, whichever render the callbacks come from, it has at most
    ten entries, none of them empty; [getSuggestions] returns at most
    five entries, all from the history of its render. [handleSearch]
    looks for the query in the history of its render: when every call
    is through an up-to-date callback no entry is in the history twice,
    and two calls with one query through the callback of the first
    render enter the query twice. *)
Theorem search_history_invariants (st : HookState) (rendered : list string)
    (partialQuery : string) :
  hookReachable st ->
  (length (searchHistory st) <= 10)%nat
  /\ Forall (fun entry => entry <> EmptyString) (searchHistory st)
  /\ (length (getSuggestions rendered partialQuery) <= 5)%nat
  /\ (forall s, In s (getSuggestions rendered partialQuery) -> In s rendered)
  /\ (renderedReachable st -> NoDup (searchHistory st))
  /\ searchHistory (handleSearch [] "a" (handleSearch [] "a" initialHookState))
     = ["a"; "a"]%string.
Proof.
  intros Hst.
  assert ((length (searchHistory st) <= 10)%nat
          /\ Forall (fun entry => entry <> EmptyString) (searchHistory st))
    as (Hlen & Hne).
  { induction Hst as [|o st Hst (Hlen & Hne)].
    - split; [simpl; lia|done].
    - destruct o as [seen newQuery| |]; simpl; [|done|].
      + destruct (negb (String.eqb (trim newQuery) "")) eqn:Hq; simpl; [|done].
        destruct (existsb (String.eqb (trim newQuery)) seen); simpl; [done|].
        apply negb_true_iff, eqb_empty in Hq.
        split; [rewrite length_take; lia|].
        apply Forall_cons. split; [done|]. by apply Forall_take.
      + split; [simpl; lia|done]. }
  split; [done|]. split; [done|]. unfold getSuggestions. split; [|split; [|split]].
  - destruct (String.eqb (trim partialQuery) ""); rewrite length_take; lia.
  - intros s Hs. destruct (String.eqb (trim partialQuery) "").
    + apply list_elem_of_In. apply list_elem_of_In in Hs.
      eapply elem_of_sublist; [exact Hs|apply sublist_take].
    + apply list_elem_of_In in Hs.
      assert (s ∈ List.filter
                    (fun historyItem =>
                       Str.includes (Str.toLowerCase historyItem)
                                    (Str.toLowerCase partialQuery))
                    rendered) as Hf.
      { eapply elem_of_sublist; [exact Hs|apply sublist_take]. }
      apply list_elem_of_In, filter_In in Hf. tauto.
  - clear. intros Hst.
    induction Hst as [|o st Hst IH Hup]; [apply NoDup_nil_2|].
    destruct o as [seen newQuery| |]; simpl in *; [|done|apply NoDup_nil_2].
    subst seen.
    destruct (negb (String.eqb (trim newQuery) "")); simpl; [|done].
    destruct (existsb (String.eqb (trim newQuery)) (searchHistory st)) eqn:Hin;
      simpl; [done|].
    assert (~ In (trim newQuery) (searchHistory st)) as Hnot.
    { intros H. apply FilterMoreProps.existsb_eqb_In in H. congruence. }
    apply NoDup_cons. split.
    + intros H. apply Hnot, list_elem_of_In.
      eapply elem_of_sublist; [exact H|apply sublist_take].
    + eapply sublist_NoDup; [exact IH|apply sublist_take].
  - reflexivity.
Qed.

Lemma search_history_invariants_witness :
  let st := applyHook (HandleSearch ["laptop"] " phone ")
              (applyHook (HandleSearch [] "laptop") initialHookState) in
  hookReachable st
  /\ searchHistory st = ["phone"; "laptop"]%string
  /\ (length (searchHistory st) <= 10)%nat
  /\ getSuggestions (searchHistory st) "PHO" = ["phone"]%string.
Proof.
  intros st.
  assert (hookReachable st) as Hr.
  { unfold st. do 2 apply hookReachable_step. apply hookReachable_init. }
  split; [exact Hr|]. split; [reflexivity|].
  split; [|reflexivity].
  exact (proj1 (search_history_invariants st [] "" Hr)).
Defined.

End HookProps.

(** ** Cart utilities: totals and merging *)

Module CartCalcProps.
Import Cart CartCalc CartProps.

Lemma reachable_totalItems d s :
  reachable d s ->
  totalItems s = fold_left (fun total item => total + quantity item) (items s) 0.
Proof.
  intros [|o s' Hs']; [done|].
  destruct o; try done. simpl. unfold updateQuantity. by destruct (_ <=? 0).
Qed.

(** X29. The utilities and the store agree: for every state the cart
    store reaches, [calculateCartTotals] of its lines with the default
    options has the store's [totalItems] as [itemCount], the store's
    [totalPrice] as [subtotal] and as [total], and the number of lines as
    [uniqueItems]; with any options, [total] is the subtotal less the
    discount, plus the tax on that discounted amount, plus shipping. *)
Theorem utilities_agree_with_store (d : DefaultItem) (s : CartState)
    (options : TotalsOptions) :
  reachable d s ->
  let t := calculateCartTotals (items s) defaultTotalsOptions in
  let t' := calculateCartTotals (items s) options in
  itemCount t = totalItems s
  /\ subtotal t = totalPrice s
  /\ (total t == totalPrice s)%Q
  /\ uniqueItems t = length (items s)
  /\ (total t' == totalPrice s * (1 - discountRate options) * (1 + taxRate options)
                  + shippingCost options)%Q.
Proof.
  intros Hs t t'.
  pose proof (reachable_totalItems d s Hs) as Hi.
  pose proof (CartMoreProps.reachable_totalPrice d s Hs) as Hp.
  unfold t, t', calculateCartTotals. simpl. rewrite <- Hi, <- Hp.
  split; [done|]. split; [done|]. split; [ring|]. split; [done|ring].
Qed.

Lemma utilities_agree_with_store_witness :
  reachable Samples.cartDefaults Samples.cartLaptopsMouse
  /\ itemCount (calculateCartTotals (items Samples.cartLaptopsMouse)
                  defaultTotalsOptions) = totalItems Samples.cartLaptopsMouse
  /\ subtotal (calculateCartTotals (items Samples.cartLaptopsMouse)
                 defaultTotalsOptions) = totalPrice Samples.cartLaptopsMouse.
Proof.
  assert (reachable Samples.cartDefaults Samples.cartLaptopsMouse) as Hr.
  { unfold Samples.cartLaptopsMouse. do 2 apply reachable_step. apply reachable_init. }
  split; [exact Hr|].
  destruct (utilities_agree_with_store Samples.cartDefaults Samples.cartLaptopsMouse
              defaultTotalsOptions Hr) as (H1 & H2 & _).
  split; [exact H1|exact H2].
Defined.

(** *** Merging duplicates *)

Lemma generateCartItemId_addQuantity q item :
  generateCartItemId (addQuantity q item) = generateCartItemId item.
Proof. reflexivity. Qed.

Lemma alter_keys (f : Line -> Line) i (m : list (string * Line)) :
  map fst (alter (fun entry => (fst entry, f (snd entry))) i m) = map fst m.
Proof.
  revert i. induction m as [|e m IH]; intros [|i]; try done.
  change (alter (fun entry : string * Line => (fst entry, f (snd entry)))
            (S i) (e :: m))
    with (e :: alter (fun entry : string * Line => (fst entry, f (snd entry))) i m).
  cbn [map]. by rewrite IH.
Qed.

Lemma alter_sum q i (m : list (string * Line)) :
  (i < length m)%nat ->
  sumLineQuantities
    (map snd (alter (fun entry => (fst entry, addQuantity q (snd entry))) i m))
  = sumLineQuantities (map snd m) + q.
Proof.
  revert i. induction m as [|e m IH]; intros [|i] Hi; simpl in Hi; try lia.
  - simpl. lia.
  - specialize (IH i ltac:(lia)).
    change (alter (fun entry : string * Line =>
                     (fst entry, addQuantity q (snd entry))) (S i) (e :: m))
      with (e :: alter (fun entry : string * Line =>
                          (fst entry, addQuantity q (snd entry))) i m).
    cbn [map sumLineQuantities]. rewrite IH. lia.
Qed.

Lemma sum_app (l1 l2 : list Line) :
  sumLineQuantities (l1 ++ l2) = sumLineQuantities l1 + sumLineQuantities l2.
Proof. induction l1 as [|x l1 IH]; simpl; [done|]. rewrite IH. lia. Qed.

Lemma mergeStep_spec m item :
  NoDup (map fst m) -> Forall filed m ->
  let m' := mergeStep m item in
  NoDup (map fst m') /\ Forall filed m'
  /\ sumLineQuantities (map snd m') = sumLineQuantities (map snd m) + lineQuantity item
  /\ (length m' <= S (length m))%nat
  /\ In (generateCartItemId item) (map fst m')
  /\ (forall k, In k (map fst m) -> In k (map fst m')).
Proof.
  intros Hnd Hfiled m'. unfold m', mergeStep.
  destruct (findIndex _ m) as [i|] eqn:Hf.
  - destruct (findIndex_Some _ _ _ Hf) as (e & He & Hk).
    apply String.eqb_eq in Hk.
    rewrite (alter_keys (addQuantity (lineQuantity item))).
    split; [done|]. split; [|split; [|split; [|split]]].
    + apply Forall_forall. intros x Hx.
      apply list_elem_of_lookup in Hx as [j Hj].
      destruct (decide (i = j)) as [->|Hne].
      * rewrite list_lookup_alter_eq, He in Hj. injection Hj as <-.
        unfold filed. simpl. rewrite Forall_forall in Hfiled.
        apply (Hfiled e). apply list_elem_of_lookup. by exists j.
      * rewrite list_lookup_alter_ne in Hj by done.
        rewrite Forall_forall in Hfiled. apply Hfiled.
        apply list_elem_of_lookup. by exists j.
    + apply alter_sum. by apply lookup_lt_Some in He.
    + rewrite length_alter. lia.
    + rewrite <- Hk. apply in_map. apply list_elem_of_In, list_elem_of_lookup.
      by exists i.
    + done.
  - rewrite map_app. simpl. split; [|split; [|split; [|split; [|split]]]].
    + apply NoDup_app. split; [done|]. split; [|apply NoDup_singleton].
      intros k Hk Hk'. apply list_elem_of_singleton in Hk'. subst k.
      apply list_elem_of_In, in_map_iff in Hk as (e & He & Hin).
      pose proof (proj1 (findIndex_None _ _) Hf e Hin) as Hne.
      apply String.eqb_neq in Hne. done.
    + apply Forall_app. split; [done|]. by apply Forall_singleton.
    + rewrite map_app, sum_app. simpl. lia.
    + rewrite length_app. simpl. lia.
    + apply in_or_app. right. by left.
    + intros k Hk. apply in_or_app. by left.
Qed.

Lemma merge_fold_spec (its : list Line) :
  forall m, NoDup (map fst m) -> Forall filed m ->
  let m' := fold_left mergeStep its m in
  NoDup (map fst m') /\ Forall filed m'
  /\ sumLineQuantities (map snd m')
     = sumLineQuantities (map snd m) + sumLineQuantities its
  /\ (length m' <= length m + length its)%nat
  /\ (forall item, In item its -> In (generateCartItemId item) (map fst m'))
  /\ (forall k, In k (map fst m) -> In k (map fst m')).
Proof.
  induction its as [|item its IH]; intros m Hnd Hfiled; cbn [fold_left].
  - simpl. split; [done|]. split; [done|]. split; [lia|]. split; [lia|].
    split; [by intros ? []|done].
  - destruct (mergeStep_spec m item Hnd Hfiled) as (H1 & H2 & H3 & H4 & H5 & H6).
    destruct (IH (mergeStep m item) H1 H2) as (I1 & I2 & I3 & I4 & I5 & I6).
    split; [done|]. split; [done|]. split; [rewrite I3, H3; simpl; lia|].
    split; [simpl; lia|]. split; [|by auto].
    intros x [<-|Hx]; [by apply I6|by apply I5].
Qed.

(** X30. [mergeDuplicateItems] keeps the total quantity; afterwards no
    two items have the same identity key, every identity key of the
    input is still there, and there are no more items than before. *)
Theorem mergeDuplicateItems_spec (its : list Line) :
  let merged := mergeDuplicateItems its in
  sumLineQuantities merged = sumLineQuantities its
  /\ NoDup (map generateCartItemId merged)
  /\ (forall item, In item its ->
                   In (generateCartItemId item) (map generateCartItemId merged))
  /\ (length merged <= length its)%nat.
Proof.
  intros merged. unfold merged, mergeDuplicateItems.
  destruct (merge_fold_spec its [] (NoDup_nil_2) (Forall_nil_2 _))
    as (H1 & H2 & H3 & H4 & H5 & _).
  assert (map generateCartItemId (map snd (fold_left mergeStep its []))
          = map fst (fold_left mergeStep its [])) as Hkeys.
  { rewrite map_map. apply Forall_fmap_ext_1. exact H2. }
  rewrite Hkeys. split; [by rewrite H3|]. split; [done|]. split; [done|].
  rewrite length_map. simpl in H4. lia.
Qed.

End CartCalcProps.
